(** * DBSCAN-like vertex clustering kernel (clusterTracksDBSCAN.h)

    A shallow embedding of [ClusterTracksDBSCAN::operator()] from
    RecoTracker/PixelVertexFinding/plugins/alpaka/clusterTracksDBSCAN.h,
    followed by the properties of the kernel.

    The kernel is run by a single worker, as the serial back-end does:
    every [uniform_elements] loop visits the items 0, 1, ..., nt-1 in that
    order and the barriers are no-ops.  The [ALPAKA_ASSERT_OFFLOAD]
    assertions are enabled and stop the run; the assertions on the
    pointers themselves and the [verbose] printing are left out; the
    checks of the [GPU_DEBUG] blocks are not part of the run and are
    modelled on their own.  Floating-point operations are the IEEE-754
    ones, each rounded on its own. *)

From Stdlib Require Import ZArith List Lia Bool Permutation.
From Stdlib Require Import Floats.SpecFloat.
Import ListNotations.

Local Open Scope Z_scope.

(** ** Machine integers *)

Definition INT8_MIN : Z := -128.
Definition INT8_MAX : Z := 127.
Definition INT32_MIN : Z := - 2 ^ 31.
Definition INT32_MAX : Z := 2 ^ 31 - 1.

(** Conversion to [uint8_t], [uint32_t] and [int32_t]: reduction modulo 2^w,
    for the signed type re-centred on zero. *)
Definition to_uint8 (z : Z) : Z := z mod 2 ^ 8.
Definition to_uint32 (z : Z) : Z := z mod 2 ^ 32.
Definition to_int32 (z : Z) : Z := (z + 2 ^ 31) mod 2 ^ 32 - 2 ^ 31.

(** [std::clamp(v, lo, hi)]. *)
Definition clamp (v lo hi : Z) : Z :=
  if v <? lo then lo else if hi <? v then hi else v.

(** ** Floating point

    [float] is IEEE-754 binary32 and [double] binary64, both carried by
    [spec_float]; arithmetic rounds to nearest even. *)

Definition float : Type := spec_float.

Module Float32.
Definition prec : Z := 24.
Definition emax : Z := 128.
Definition add : float -> float -> float := SFadd prec emax.
Definition sub : float -> float -> float := SFsub prec emax.
Definition mul : float -> float -> float := SFmul prec emax.
Definition div : float -> float -> float := SFdiv prec emax.
Definition abs : float -> float := SFabs.
(** [a > b] and [a >= b]; both are false as soon as an operand is a NaN. *)
Definition gt (a b : float) : bool := SFltb b a.
Definition ge (a b : float) : bool := SFleb b a.
Definition lt (a b : float) : bool := SFltb a b.
Definition le (a b : float) : bool := SFleb a b.
Definition of_Z (z : Z) : float := binary_normalize prec emax z 0 false.
Definition is_nan (a : float) : bool :=
  match a with S754_nan => true | _ => false end.
End Float32.

Module Float64.
Definition prec : Z := 53.
Definition emax : Z := 1024.
Definition mul : spec_float -> spec_float -> spec_float := SFmul prec emax.
(** The promotion of a [float] to [double] is exact. *)
Definition of_float (x : float) : spec_float := x.
(** The literal [10.]. *)
Definition ten : spec_float := S754_finite false 5629499534213120 (-49).
(** The integer part of a finite value, rounded toward zero. *)
Definition trunc (x : spec_float) : option Z :=
  match x with
  | S754_zero _ => Some 0
  | S754_finite s m e =>
      Some (cond_Zopp s
              (match e with
               | Zneg p => Z.pos m / 2 ^ Z.pos p
               | _ => Z.pos m * 2 ^ e
               end))
  | S754_infinity _ | S754_nan => None
  end.
(** [int(x)]: truncation toward zero; the conversion has no defined
    behaviour for a NaN, an infinity or a value outside the range of
    [int]. *)
Definition to_int (x : spec_float) : option Z :=
  match trunc x with
  | Some z => if (INT32_MIN <=? z) && (z <=? INT32_MAX) then Some z else None
  | None => None
  end.
End Float64.

(** ** Arrays reached through raw pointers *)

Definition upd {A : Type} (a : Z -> A) (i : Z) (v : A) : Z -> A :=
  fun k => if k =? i then v else a k.

(** The items [0 .. n-1] in the order a single worker visits them. *)
Definition uniform_elements (n : Z) : list Z :=
  map Z.of_nat (seq 0 (Z.to_nat n)).

(** ** The two SoA views, as one memory

    [ntrks], [zt], [ezt2], [izt], [iv] and [nvIntermediate] live in the
    work-space view, [nn] (the [ndof] column) and [nvFinal] in the vertex
    view. *)
Record Memory : Type := mkMemory {
  ntrks : Z;
  zt : Z -> float;
  ezt2 : Z -> float;
  izt : Z -> Z;
  nn : Z -> Z;
  iv : Z -> Z;
  nvFinal : Z;
  nvIntermediate : Z
}.

Definition set_izt (m : Memory) (i v : Z) : Memory :=
  mkMemory (ntrks m) (zt m) (ezt2 m) (upd (izt m) i v) (nn m) (iv m)
           (nvFinal m) (nvIntermediate m).
Definition set_nn (m : Memory) (i v : Z) : Memory :=
  mkMemory (ntrks m) (zt m) (ezt2 m) (izt m) (upd (nn m) i v) (iv m)
           (nvFinal m) (nvIntermediate m).
Definition set_iv (m : Memory) (i v : Z) : Memory :=
  mkMemory (ntrks m) (zt m) (ezt2 m) (izt m) (nn m) (upd (iv m) i v)
           (nvFinal m) (nvIntermediate m).
Definition set_nv (m : Memory) (v : Z) : Memory :=
  mkMemory (ntrks m) (zt m) (ezt2 m) (izt m) (nn m) (iv m) v v.

(** The constants of namespace [zVertex]; their header is not part of the
    sources at hand, so the kernel is parameterised by them. *)
Record zVertex : Type := mkzVertex { MAXTRACKS : Z; MAXVTX : Z }.

(** ** Outcomes *)

Inductive Assertion : Type :=
| CapacityAssert      (* static_cast<int>(nt) <= hist.capacity() *)
| MaxTracksAssert     (* i < zVertex::MAXTRACKS *)
| KeyRangeAssert      (* 0 <= iz - INT8_MIN < 256 *)
| HistSizeAssert      (* hist.size() == nt *)
| MaxVtxAssert.       (* foundClusters < zVertex::MAXVTX *)

(** A run completes, stops at a failed assertion (with the memory as it is
    at that point), has no defined behaviour, or exhausts the fuel given to
    the [while] loop. *)
Inductive result (A : Type) : Type :=
| Ok (a : A)
| AssertFailed (a : Assertion) (m : Memory)
| Undefined
| OutOfFuel.

Arguments Ok {A} a.
Arguments AssertFailed {A} a m.
Arguments Undefined {A}.
Arguments OutOfFuel {A}.

Definition bind {A B : Type} (r : result A) (k : A -> result B) : result B :=
  match r with
  | Ok a => k a
  | AssertFailed a m => AssertFailed a m
  | Undefined => Undefined
  | OutOfFuel => OutOfFuel
  end.

Notation "x <- c1 ;; c2" := (bind c1 (fun x => c2))
  (at level 61, c1 at next level, right associativity).

(** A loop whose body may stop the run. *)
Fixpoint for_each {S : Type} (body : S -> Z -> result S) (l : list Z) (s : S)
  : result S :=
  match l with
  | [] => Ok s
  | i :: l' => s' <- body s i ;; for_each body l' s'
  end.

(** ** The bucketed index *)

Module Hist.
(** Modelled from the spec: [HistoContainer<uint8_t, 256, 16000, 8, uint16_t>]
    and [forEachInBins], whose header
    (HeterogeneousCore/AlpakaInterface/interface/HistoContainer.h) is not
    part of the sources at hand.  A fixed-capacity histogram over the
    bucket keys 0..255 with a counting phase, a finalize phase turning the
    counters into prefix-sum offsets, a fill phase in which every item
    claims the next free slot of its bucket, and a query yielding the items
    of all buckets within a radius of a key. *)
Record t : Type := mk {
  off : Z -> Z;          (* per-bucket counter, offsets once finalized *)
  bins : Z -> list Z     (* the slots claimed in each bucket *)
}.
(** Modelled from the spec: the number of buckets and the capacity, the
    second and third template arguments. *)
Definition nbins : Z := 256.
Definition capacity : Z := 16000.
(** Modelled from the spec: the histogram with every counter at zero and
    no slot claimed. *)
Definition zero : t := mk (fun _ => 0) (fun _ => []).
(** Modelled from the spec: [count] increments the counter of bucket [b]. *)
Definition count (h : t) (b : Z) : t := mk (upd (off h) b (off h b + 1)) (bins h).
Fixpoint sum_upto (f : Z -> Z) (n : nat) : Z :=
  match n with
  | O => 0
  | S k => sum_upto f k + f (Z.of_nat k)
  end.
(** Modelled from the spec: [finalize] turns the counters into prefix
    sums; [size] is the last of them, the number of items counted. *)
Definition finalize (h : t) : t :=
  mk (fun b => sum_upto (off h) (Z.to_nat (b + 1))) (bins h).
Definition size (h : t) : Z := off h (nbins - 1).
(** Modelled from the spec: [fill] lets item [j] claim the next free slot
    of bucket [b]. *)
Definition fill (h : t) (b : Z) (j : Z) : t := mk (off h) (upd (bins h) b (j :: bins h b)).
(** Modelled from the spec: the keys within [n] buckets of [key],
    [max(0, key-n) .. min(nbins-1, key+n)], and the items of these
    buckets. *)
Definition range (key n : Z) : list Z :=
  let bs := Z.max 0 (key - n) in
  let be := Z.min (nbins - 1) (key + n) in
  map (fun k => bs + k) (uniform_elements (be - bs + 1)).
Definition query (h : t) (key n : Z) : list Z := flat_map (bins h) (range key n).
End Hist.

(** Modelled from the spec: [forEachInBins(hist, value, n, func)] runs
    [func] once on every item of the buckets within [n] of [value]. *)
Definition forEachInBins {S : Type} (hist : Hist.t) (value n : Z)
  (func : S -> Z -> S) (s : S) : S :=
  fold_left func (Hist.query hist value n) s.

(** ** The kernel, phase by phase *)

Section Kernel.

Variable zv : zVertex.
Variables (minT : Z) (eps errmax chi2max : float).

(** [int iz = int(zt[i] * 10.)] (line 80). *)
Definition quantize (z : float) : option Z :=
  Float64.to_int (Float64.mul (Float64.of_float z) Float64.ten).

(** Lines 78-88: bucket keys, bucket counters, and the initial values of
    [iv] and [nn]. *)
Definition fill_hist_item (s : Memory * Hist.t) (i : Z) : result (Memory * Hist.t) :=
  let '(m, hist) := s in
  if negb (i <? MAXTRACKS zv) then AssertFailed MaxTracksAssert m else
  match quantize (zt m i) with
  | None => Undefined
  | Some iz =>
      let iz := clamp iz INT8_MIN INT8_MAX in
      let m := set_izt m i (to_uint8 (iz - INT8_MIN)) in
      if negb ((0 <=? iz - INT8_MIN) && (iz - INT8_MIN <? 256))
      then AssertFailed KeyRangeAssert m else
      let hist := Hist.count hist (izt m i) in
      let m := set_iv m i (to_int32 i) in
      let m := set_nn m i 0 in
      Ok (m, hist)
  end.

Definition fill_hist (m : Memory) (hist : Hist.t) : result (Memory * Hist.t) :=
  for_each fill_hist_item (uniform_elements (ntrks m)) (m, hist).

(** Lines 96-98. *)
Definition fill_slots (m : Memory) (hist : Hist.t) : Hist.t :=
  fold_left (fun h i => Hist.fill h (izt m i) (to_uint32 i))
            (uniform_elements (ntrks m)) hist.

(** Lines 102-116: count neighbours. *)
Definition count_loop (i : Z) (m : Memory) (j : Z) : Memory :=
  if i =? j then m else
  let dist := Float32.abs (Float32.sub (zt m i) (zt m j)) in
  if Float32.gt dist eps then m else
  set_nn m i (to_int32 (nn m i + 1)).

Definition count_item (hist : Hist.t) (er2mx : float) (m : Memory) (i : Z) : Memory :=
  if Float32.gt (ezt2 m i) er2mx then m else
  forEachInBins hist (izt m i) 1 (count_loop i) m.

Definition count_neighbours (hist : Hist.t) (er2mx : float) (m : Memory) : Memory :=
  fold_left (count_item hist er2mx) (uniform_elements (ntrks m)) m.

(** Lines 121-138: find the nearest neighbour with smaller z.  The lambda
    updates the local [mz] and [iv[i]]. *)
Definition seed_loop (i : Z) (s : float * Memory) (j : Z) : float * Memory :=
  let '(mz, m) := s in
  if Float32.ge (zt m j) mz then s else
  if nn m j <? minT then s else
  let dist := Float32.abs (Float32.sub (zt m i) (zt m j)) in
  if Float32.gt dist eps then s else
  (zt m j, set_iv m i (to_int32 j)).

Definition seed_item (hist : Hist.t) (m : Memory) (i : Z) : Memory :=
  if nn m i <? minT then m else
  snd (forEachInBins hist (izt m i) 1 (seed_loop i) (zt m i, m)).

Definition seed (hist : Hist.t) (m : Memory) : Memory :=
  fold_left (seed_item hist) (uniform_elements (ntrks m)) m.

(** Lines 152-157: consolidate the graph.  [walk] is the loop
    [while (m != iv[m]) m = iv[m];]. *)
Fixpoint walk (fuel : nat) (a : Z -> Z) (m : Z) : option Z :=
  match fuel with
  | O => None
  | S fuel' => if negb (m =? a m) then walk fuel' a (a m) else Some m
  end.

Definition compress_item (fuel : nat) (m : Memory) (i : Z) : result Memory :=
  match walk fuel (iv m) (iv m i) with
  | None => OutOfFuel
  | Some r => Ok (set_iv m i r)
  end.

Definition compress (fuel : nat) (m : Memory) : result Memory :=
  for_each (compress_item fuel) (uniform_elements (ntrks m)) m.

(** Lines 197-214: collect edges. *)
Definition edge_loop (i : Z) (s : float * Memory) (j : Z) : float * Memory :=
  let '(mdist, m) := s in
  if nn m j <? minT then s else
  let dist := Float32.abs (Float32.sub (zt m i) (zt m j)) in
  if Float32.gt dist mdist then s else
  if Float32.gt (Float32.mul dist dist)
                (Float32.mul chi2max (Float32.add (ezt2 m i) (ezt2 m j)))
  then s else
  (dist, set_iv m i (iv m j)).

Definition edge_item (hist : Hist.t) (m : Memory) (i : Z) : Memory :=
  if minT <=? nn m i then m else
  snd (forEachInBins hist (izt m i) 1 (edge_loop i) (eps, m)).

Definition collect_edges (hist : Hist.t) (m : Memory) : Memory :=
  fold_left (edge_item hist) (uniform_elements (ntrks m)) m.

(** [alpaka::atomicInc(acc, addr, value, ...)]: the old value is returned
    and the cell becomes [old >= value ? 0 : old + 1]. *)
Definition atomicInc (cell value : Z) : Z * Z :=
  (cell, if value <=? cell then 0 else cell + 1).

(** Lines 222-231: mark the roots with a negative id. *)
Definition mark_item (s : Memory * Z) (i : Z) : Memory * Z :=
  let '(m, foundClusters) := s in
  if iv m i =? to_int32 i then
    if minT <=? nn m i then
      let '(old, foundClusters) := atomicInc foundClusters 0xffffffff in
      (set_iv m i (to_int32 (to_uint32 (- (old + 1)))), foundClusters)
    else (set_iv m i (-9998), foundClusters)
  else s.

Definition mark_roots (m : Memory) : Memory * Z :=
  fold_left mark_item (uniform_elements (ntrks m)) (m, 0).

(** Lines 237-242: propagate the negative id. *)
Definition propagate_item (m : Memory) (i : Z) : Memory :=
  if 0 <=? iv m i then set_iv m i (iv m (iv m i)) else m.

Definition propagate (m : Memory) : Memory :=
  fold_left propagate_item (uniform_elements (ntrks m)) m.

(** Lines 246-248: make the ids non-negative. *)
Definition adjust_item (m : Memory) (i : Z) : Memory :=
  set_iv m i (to_int32 (- iv m i - 1)).

Definition adjust (m : Memory) : Memory :=
  fold_left adjust_item (uniform_elements (ntrks m)) m.

(** Lines 65-99: the index over the bucket keys. *)
Definition build_index (m : Memory) : result (Memory * Hist.t) :=
  let hist := Hist.zero in
  if negb (to_int32 (ntrks m) <=? Hist.capacity) then AssertFailed CapacityAssert m else
  s <- fill_hist m hist ;;
  let '(m, hist) := s in
  let hist := Hist.finalize hist in
  if negb (Hist.size hist =? ntrks m) then AssertFailed HistSizeAssert m else
  Ok (m, fill_slots m hist).

(** Lines 101-214: the forest of clusters. *)
Definition link (fuel : nat) (hist : Hist.t) (m : Memory) : result Memory :=
  let er2mx := Float32.mul errmax errmax in
  let m := count_neighbours hist er2mx m in
  let m := seed hist m in
  m <- compress fuel m ;;
  Ok (collect_edges hist m).

(** Lines 216-250: the dense ids and their count. *)
Definition relabel (m : Memory) : result Memory :=
  let '(m, foundClusters) := mark_roots m in
  if negb (foundClusters <? MAXVTX zv) then AssertFailed MaxVtxAssert m else
  let m := propagate m in
  let m := adjust m in
  Ok (set_nv m foundClusters).

(** [ClusterTracksDBSCAN::operator()]. *)
Definition clusterTracksDBSCAN (fuel : nat) (m : Memory) : result Memory :=
  s <- build_index m ;;
  m <- link fuel (snd s) (fst s) ;;
  relabel m.

End Kernel.

(** ** Vocabulary of the statements *)

(** The order of [SFcompare] on values that are not NaN, as a
    lexicographic order on integer triples. *)
Definition key (f : float) : Z * Z * Z :=
  match f with
  | S754_zero _ => (0, 0, 0)
  | S754_infinity s => (if s then -2 else 2, 0, 0)
  | S754_nan => (0, 0, 0)
  | S754_finite s m e => if s then (-1, - e, - Z.pos m) else (1, e, Z.pos m)
  end.

Definition klt (x y : Z * Z * Z) : Prop :=
  let '(c1, e1, m1) := x in
  let '(c2, e2, m2) := y in
  c1 < c2 \/ (c1 = c2 /\ (e1 < e2 \/ (e1 = e2 /\ m1 < m2))).

(** Zero or finite: the values [int(zt * 10.)] is defined on. *)
Definition is_finite (f : float) : bool :=
  match f with
  | S754_zero _ | S754_finite _ _ _ => true
  | _ => false
  end.


(** The bucket key the kernel stores for a position (0 where the
    conversion to [int] is not defined). *)
Definition bucket_of (z : float) : Z :=
  match quantize z with
  | Some iz => to_uint8 (clamp iz INT8_MIN INT8_MAX - INT8_MIN)
  | None => 0
  end.

(** [std::abs(zt[i] - zt[j])]. *)
Definition dist (m : Memory) (i j : Z) : float :=
  Float32.abs (Float32.sub (zt m i) (zt m j)).

(** What a phase that writes only [iv] (respectively only [nn]) leaves
    alone. *)
Definition frame_iv (m : Memory) :=
  (ntrks m, zt m, ezt2 m, izt m, nn m, nvFinal m, nvIntermediate m).
Definition only_iv (m m' : Memory) : Prop := frame_iv m' = frame_iv m.
Definition frame_nn (m : Memory) :=
  (ntrks m, zt m, ezt2 m, izt m, iv m, nvFinal m, nvIntermediate m).
Definition only_nn (m m' : Memory) : Prop := frame_nn m' = frame_nn m.

(** How many of the items [0 .. n-1] have bucket key [b]. *)
Definition count_in_bucket (m : Memory) (n b : Z) : Z :=
  Z.of_nat (length (filter (fun k => bucket_of (zt m k) =? b) (uniform_elements n))).

(** Item [j] lies in a bucket the query around item [i] visits. *)
Definition visited (m : Memory) (i j : Z) : Prop :=
  0 <= j < ntrks m /\ Z.abs (izt m i - izt m j) <= 1.

(** The memory and the index as the later phases find them: the item
    count passed the capacity check, every position went through
    [int(zt * 10.)], and the query around an item yields the items of the
    adjacent buckets. *)
Definition prepared (m : Memory) (hist : Hist.t) : Prop :=
  0 <= ntrks m <= Hist.capacity /\
  (forall k, 0 <= k < ntrks m -> is_finite (zt m k) = true) /\
  (forall i j, 0 <= i < ntrks m ->
     (In j (Hist.query hist (izt m i) 1) <-> visited m i j)).

(** Item [j] passes the three tests of the seeding lambda for item [i]
    taken against [zt[i]] itself: a core item, at a strictly smaller
    position, not farther than [eps]. *)
Definition seed_candidate (minT : Z) (eps : float) (m : Memory) (i j : Z) : Prop :=
  minT <= nn m j /\
  Float32.lt (zt m j) (zt m i) = true /\
  Float32.gt (dist m i j) eps = false.

(** [p] is a smallest-position candidate among the items of [l], or [i]
    itself when [l] holds no candidate. *)
Definition seed_choice (minT : Z) (eps : float) (m : Memory) (i : Z)
  (l : list Z) (p : Z) : Prop :=
  (p = i /\ forall j, In j l -> ~ seed_candidate minT eps m i j) \/
  (In p l /\ seed_candidate minT eps m i p /\
   forall j, In j l -> seed_candidate minT eps m i j ->
             Float32.le (zt m p) (zt m j) = true).

(** The state the seeding phase leaves: only [iv] is written, and only for
    the core items, each with its choice among the items the query around
    it yields. *)
Definition seeded (minT : Z) (eps : float) (hist : Hist.t) (m0 m : Memory) : Prop :=
  only_iv m0 m /\
  (forall k, ~ 0 <= k < ntrks m0 -> iv m k = iv m0 k) /\
  (forall i, 0 <= i < ntrks m0 ->
     (nn m0 i < minT -> iv m i = i) /\
     (minT <= nn m0 i ->
      seed_choice minT eps m0 i (Hist.query hist (izt m0 i) 1) (iv m i))).

(** The parent pointers form a forest: a pointer that is not a self-loop
    leads from a core item to a core item at a strictly smaller position. *)
Definition forest (minT : Z) (m : Memory) : Prop :=
  forall k, 0 <= k < ntrks m ->
    iv m k = k \/
    (0 <= iv m k < ntrks m /\
     Float32.lt (zt m (iv m k)) (zt m k) = true /\
     minT <= nn m k /\ minT <= nn m (iv m k)).

(** The number of items at a position strictly smaller than item [p]'s:
    it bounds the length of the walk that starts at [p]. *)
Definition rank (m : Memory) (p : Z) : nat :=
  length (filter (fun k => Float32.lt (zt m k) (zt m p)) (uniform_elements (ntrks m))).

(** The state of the consolidation loop once the items below [i] are done:
    still a forest, and the pointers already rewritten are roots. *)
Definition compressed_upto (minT : Z) (m0 : Memory) (i : Z) (m : Memory) : Prop :=
  only_iv m0 m /\ forest minT m /\
  (forall k, ~ 0 <= k < ntrks m0 -> iv m k = iv m0 k) /\
  (forall k, 0 <= k < i -> 0 <= iv m k < ntrks m0 /\ iv m (iv m k) = iv m k).

(** Item [j] passes the tests of the edge lambda for item [i] taken
    against [eps] itself: a core item, not farther than [eps], and within
    the chi-square budget. *)
Definition edge_candidate (minT : Z) (eps chi2max : float) (m : Memory) (i j : Z) : Prop :=
  minT <= nn m j /\
  Float32.gt (dist m i j) eps = false /\
  Float32.gt (Float32.mul (dist m i j) (dist m i j))
             (Float32.mul chi2max (Float32.add (ezt2 m i) (ezt2 m j))) = false.

(** [p] is the pointer of a nearest candidate among the items of [l], or
    the pointer of [i] itself when [l] holds no candidate. *)
Definition edge_choice (minT : Z) (eps chi2max : float) (m : Memory) (i : Z)
  (l : list Z) (p : Z) : Prop :=
  (p = iv m i /\ forall j, In j l -> ~ edge_candidate minT eps chi2max m i j) \/
  (exists j, In j l /\ edge_candidate minT eps chi2max m i j /\ p = iv m j /\
     forall j', In j' l -> edge_candidate minT eps chi2max m i j' ->
                Float32.le (dist m i j) (dist m i j') = true).

(** The state the edge phase leaves. *)
Definition edged (minT : Z) (eps chi2max : float) (hist : Hist.t) (m0 m : Memory) : Prop :=
  only_iv m0 m /\
  (forall k, ~ 0 <= k < ntrks m0 -> iv m k = iv m0 k) /\
  (forall i, 0 <= i < ntrks m0 ->
     (minT <= nn m0 i -> iv m i = iv m0 i) /\
     (nn m0 i < minT ->
      edge_choice minT eps chi2max m0 i (Hist.query hist (izt m0 i) 1) (iv m i))).

(** Every pointer is a root in range; a root that is pointed at by another
    item, or by a core item, is a core item. *)
Definition flat (minT : Z) (m : Memory) : Prop :=
  forall k, 0 <= k < ntrks m ->
    0 <= iv m k < ntrks m /\ iv m (iv m k) = iv m k /\
    (iv m k <> k -> minT <= nn m (iv m k)) /\
    (minT <= nn m k -> minT <= nn m (iv m k)).

(** What the marking loop has written at item [k] when [f] ids are
    allocated: the negative id of a core root, the noise marker of a root
    that is not a core item, or the pointer left in place. *)
Definition marked (minT : Z) (m0 : Memory) (f k v : Z) : Prop :=
  (iv m0 k = k /\ minT <= nn m0 k /\ exists id, 0 <= id < f /\ v = - (id + 1)) \/
  (iv m0 k = k /\ nn m0 k < minT /\ v = -9998) \/
  (iv m0 k <> k /\ v = iv m0 k).

(** Every item carries the negative code of an id below [f], or the
    noise marker; a core item carries an id. *)
Definition coded (minT : Z) (m : Memory) (f : Z) : Prop :=
  forall k, 0 <= k < ntrks m ->
    ((exists id, 0 <= id < f /\ iv m k = - (id + 1)) \/
     (nn m k < minT /\ iv m k = -9998)).

(** The final labels: a dense id below [f], or the noise value [9997] on
    an item that is not a core item. *)
Definition labelled (minT : Z) (m : Memory) (f : Z) : Prop :=
  forall k, 0 <= k < ntrks m ->
    (0 <= iv m k < f) \/ (nn m k < minT /\ iv m k = 9997).

(** The arrays the kernel only reads. *)
Definition inputs (m : Memory) := (ntrks m, zt m, ezt2 m).

(** The state of the loop of lines 78-88 once the items below [i] are
    done. *)
Definition fill_hist_inv (zv : zVertex) (m0 : Memory) (i : Z) (s : Memory * Hist.t) : Prop :=
  let '(m, h) := s in
  (ntrks m = ntrks m0 /\ zt m = zt m0 /\ ezt2 m = ezt2 m0 /\
   nvFinal m = nvFinal m0 /\ nvIntermediate m = nvIntermediate m0) /\
  (forall k, 0 <= k < i ->
     quantize (zt m0 k) <> None /\ izt m k = bucket_of (zt m0 k) /\
     iv m k = k /\ nn m k = 0 /\ k < MAXTRACKS zv) /\
  (forall k, ~ 0 <= k < i ->
     izt m k = izt m0 k /\ iv m k = iv m0 k /\ nn m k = nn m0 k) /\
  (forall b, Hist.off h b = count_in_bucket m0 i b) /\
  Hist.sum_upto (Hist.off h) (Z.to_nat Hist.nbins) = i /\
  Hist.bins h = Hist.bins Hist.zero.

(** ** The statements of the specification, in its own words *)

(** Round to the nearest integer, halves away from zero. *)
Definition spec_round (x : spec_float) : option Z :=
  match x with
  | S754_zero _ => Some 0
  | S754_finite s m e =>
      Some (cond_Zopp s
              (match e with
               | Zneg p => (2 * Z.pos m + 2 ^ Z.pos p) / (2 * 2 ^ Z.pos p)
               | _ => Z.pos m * 2 ^ e
               end))
  | S754_infinity _ | S754_nan => None
  end.

(** [bucketIndex = clamp(round(position * scaleFactor), minBucket, maxBucket)]
    mapped into the unsigned key domain, with the scale factor 10. *)
Definition spec_bucketIndex (position : float) (minBucket maxBucket : Z) : option Z :=
  match spec_round (Float64.mul (Float64.of_float position) Float64.ten) with
  | Some r => Some (clamp r minBucket maxBucket - minBucket)
  | None => None
  end.

(** A qualifying core neighbour of [i] for the seeding phase: a core item
    at a strictly smaller position and not farther than [eps]. *)
Definition seed_qualifies (minT : Z) (eps : float) (m : Memory) (i j : Z) : Prop :=
  minT <= nn m j /\
  Float32.lt (zt m j) (zt m i) = true /\
  Float32.le (dist m i j) eps = true.

(** The seeding rule as the specification words it: the pointer of a core
    item is the qualifying core neighbour with the smallest position among
    all items, and stays [i] when there is none. *)
Definition spec_seed_pointer (minT : Z) (eps : float) (m : Memory) (i p : Z) : Prop :=
  (p = i /\ forall j, 0 <= j < ntrks m -> ~ seed_qualifies minT eps m i j) \/
  (0 <= p < ntrks m /\ seed_qualifies minT eps m i p /\
   forall j, 0 <= j < ntrks m -> seed_qualifies minT eps m i j ->
             Float32.le (zt m p) (zt m j) = true).

(** The seeding rule on the items the query around [i] yields. *)
Definition adjacent_seed_pointer (minT : Z) (eps : float) (m : Memory) (i p : Z) : Prop :=
  (p = i /\ forall j, visited m i j -> ~ seed_qualifies minT eps m i j) \/
  (visited m i p /\ seed_qualifies minT eps m i p /\
   forall j, visited m i j -> seed_qualifies minT eps m i j ->
             Float32.le (zt m p) (zt m j) = true).





(** ** The checks of the debug build *)

(** Lines 144-147 and 163-166 ([GPU_DEBUG]): the mini verification,
    [if (iv[i] != int(i)) assert(iv[iv[i]] != int(i))]; [true] when the
    assertion holds for every item. *)
Definition mini_verification_item (m : Memory) (i : Z) : bool :=
  if negb (iv m i =? to_int32 i) then negb (iv m (iv m i) =? to_int32 i) else true.

Definition mini_verification (m : Memory) : bool :=
  forallb (mini_verification_item m) (uniform_elements (ntrks m)).

(** Lines 172-192 ([GPU_DEBUG]): the check that no cluster was split.
    The first assertion that fails stops the check: [zt[iv[i]] <= zt[i]]
    for a core item [i], or [iv[i] == iv[j]] for a core item [j] not
    farther than [eps] in the buckets around [i]. *)
Inductive DebugCheck : Type :=
| Passed
| OrderViolated (i : Z)
| ClusterSplit (i j : Z).

Definition split_loop (minT : Z) (eps : float) (m : Memory) (i : Z)
  (s : DebugCheck) (j : Z) : DebugCheck :=
  match s with
  | Passed =>
      if nn m j <? minT then Passed else
      let dist := Float32.abs (Float32.sub (zt m i) (zt m j)) in
      if Float32.gt dist eps then Passed else
      if negb (iv m i =? iv m j) then ClusterSplit i j else Passed
  | _ => s
  end.

Definition split_item (minT : Z) (eps : float) (hist : Hist.t) (m : Memory)
  (s : DebugCheck) (i : Z) : DebugCheck :=
  match s with
  | Passed =>
      if nn m i <? minT then Passed else
      if negb (Float32.le (zt m (iv m i)) (zt m i)) then OrderViolated i else
      forEachInBins hist (izt m i) 1 (split_loop minT eps m i) Passed
  | _ => s
  end.

Definition split_verification (minT : Z) (eps : float) (hist : Hist.t) (m : Memory)
  : DebugCheck :=
  fold_left (split_item minT eps hist m) (uniform_elements (ntrks m)) Passed.

(** ** Vocabulary of the counting statements *)

(** The bucket of item [j] is the bucket of item [i] or next to it. *)
Definition adjacent (m : Memory) (i j : Z) : bool :=
  Z.abs (izt m i - izt m j) <=? 1.

(** Item [j] is counted by the lambda of lines 105-113 run for item [i]. *)
Definition is_neighbour (eps : float) (m : Memory) (i j : Z) : bool :=
  adjacent m i j && negb (i =? j) && negb (Float32.gt (dist m i j) eps).

Definition neighbours (eps : float) (m : Memory) (i : Z) : Z :=
  Z.of_nat (length (filter (is_neighbour eps m i) (uniform_elements (ntrks m)))).

(** Item [j] adds one to [nn[i]] in the loop of lines 102-114: item [i]
    is not skipped at line 103 ([ezt2[i] > er2mx]), and [j] is counted by
    the lambda run for [i]. *)
Definition counted (eps er2mx : float) (m : Memory) (i j : Z) : bool :=
  negb (Float32.gt (ezt2 m i) er2mx) && is_neighbour eps m i j.

(** Item [j] is in a bucket around item [i] and passes the tests of the
    seeding lambda taken against [zt[i]]. *)
Definition is_seed_candidate (minT : Z) (eps : float) (m : Memory) (i j : Z) : bool :=
  adjacent m i j && (minT <=? nn m j) && Float32.lt (zt m j) (zt m i) &&
  negb (Float32.gt (dist m i j) eps).

(** A core item no seeding pointer can leave: the root of a cluster. *)
Definition is_root (minT : Z) (eps : float) (m : Memory) (i : Z) : bool :=
  (minT <=? nn m i) &&
  negb (existsb (is_seed_candidate minT eps m i) (uniform_elements (ntrks m))).

Definition roots (minT : Z) (eps : float) (m : Memory) : list Z :=
  filter (is_root minT eps m) (uniform_elements (ntrks m)).

(** ** Vocabulary of the comparison of two runs *)

(** The two memories hold the same items: the same count and, below it,
    the same positions and variances. *)
Definition same_items (m m' : Memory) : Prop :=
  ntrks m' = ntrks m /\
  forall k, 0 <= k < ntrks m -> zt m' k = zt m k /\ ezt2 m' k = ezt2 m k.

(** They hold the same items and, below the count, the same values in
    the arrays the kernel writes. *)
Definition agree (m m' : Memory) : Prop :=
  same_items m m' /\
  forall k, 0 <= k < ntrks m ->
    izt m' k = izt m k /\ nn m' k = nn m k /\ iv m' k = iv m k.

(** They agree and report the same number of clusters. *)
Definition same_results (m m' : Memory) : Prop :=
  agree m m' /\ nvFinal m' = nvFinal m /\ nvIntermediate m' = nvIntermediate m.

(** The two memories hold the same values everywhere. *)
Definition same_memory (m m' : Memory) : Prop :=
  ntrks m' = ntrks m /\ nvFinal m' = nvFinal m /\ nvIntermediate m' = nvIntermediate m /\
  forall k, zt m' k = zt m k /\ ezt2 m' k = ezt2 m k /\ izt m' k = izt m k /\
            nn m' k = nn m k /\ iv m' k = iv m k.

(** ** Vocabulary of the connection statements *)

(** Item [r] is reached from item [i] by steps that each go to a seeding
    candidate of the item they leave, in the buckets around it. *)
Inductive linked (minT : Z) (eps : float) (m : Memory) : Z -> Z -> Prop :=
| linked_refl i : linked minT eps m i i
| linked_step i j r :
    visited m i j -> seed_candidate minT eps m i j -> linked minT eps m j r ->
    linked minT eps m i r.

(** ** Concrete inputs *)

Module Examples.

(** The nearest [float] to the ratio [n / d]. *)
Definition ratio (n d : Z) : float := Float32.div (Float32.of_Z n) (Float32.of_Z d).

Definition f_0 : float := S754_zero false.
Definition f_1 : float := Eval vm_compute in Float32.of_Z 1.
Definition f_9 : float := Eval vm_compute in Float32.of_Z 9.
Definition f_5 : float := Eval vm_compute in Float32.of_Z 5.
Definition f_0_01 : float := Eval vm_compute in ratio 1 100.
Definition f_0_02 : float := Eval vm_compute in ratio 2 100.
Definition f_0_05 : float := Eval vm_compute in ratio 5 100.
Definition f_0_06 : float := Eval vm_compute in ratio 6 100.
Definition f_0_35 : float := Eval vm_compute in ratio 35 100.
Definition f_0_36 : float := Eval vm_compute in ratio 36 100.
Definition f_0_37 : float := Eval vm_compute in ratio 37 100.
Definition f_0_5 : float := Eval vm_compute in ratio 1 2.
Definition f_5_01 : float := Eval vm_compute in ratio 501 100.
Definition f_0_0001 : float := Eval vm_compute in ratio 1 10000.
Definition f_0_065 : float := Eval vm_compute in ratio 65 1000.

(** An instance of the [zVertex] constants. *)
Definition zv : zVertex := mkzVertex 32768 1024.

(** An array holding the values of [l] at 0, 1, ... and [d] elsewhere. *)
Definition array {A : Type} (l : list A) (d : A) : Z -> A :=
  fun i => if i <? 0 then d else nth (Z.to_nat i) l d.

(** A memory with the given positions, one variance for all items, and
    zeros in the arrays the kernel writes. *)
Definition memory (positions : list float) (variance : float) : Memory :=
  mkMemory (Z.of_nat (length positions)) (array positions f_0) (fun _ => variance)
           (fun _ => 0) (fun _ => 0) (fun _ => 0) 0 0.

(** The same, over whatever [m0] holds in the arrays the kernel writes. *)
Definition memory_over (positions : list float) (variance : float) (m0 : Memory) : Memory :=
  mkMemory (Z.of_nat (length positions)) (array positions f_0) (fun _ => variance)
           (izt m0) (nn m0) (iv m0) (nvFinal m0) (nvIntermediate m0).

(** The scenario of five items in two groups. *)
Definition positions5 : list float := [f_0; f_0_01; f_0_02; f_5; f_5_01].
Definition scenario5 : Memory := memory positions5 f_0_0001.

(** Two core items at the same position below a third one. *)
Definition ties3 : Memory := memory [f_0; f_0; f_0_01] f_0_0001.

(** Two groups of core items 0.35 apart. *)
Definition groups6 : Memory :=
  memory [f_0; f_0_01; f_0_02; f_0_35; f_0_36; f_0_37] f_0_0001.


(** A group of core items and an item 0.045 above it. *)
Definition edge4 : Memory := memory [f_0; f_0_01; f_0_02; f_0_065] f_0_01.

(** Three items within 0.02, the middle one with a variance of 5. *)
Definition gated3 : Memory :=
  mkMemory 3 (array [f_0; f_0_01; f_0_02] f_0) (array [f_0_0001; f_5; f_0_0001] f_0)
           (fun _ => 0) (fun _ => 0) (fun _ => 0) 0 0.


(** One item at 0.06. *)
Definition single : Memory := memory [f_0_06] f_0_0001.

End Examples.

(** * Properties *)

(** ** Arithmetic and arrays *)

Lemma upd_same {A : Type} (a : Z -> A) i v : upd a i v i = v.
Proof. unfold upd. now rewrite Z.eqb_refl. Qed.

Lemma upd_other {A : Type} (a : Z -> A) i v k : k <> i -> upd a i v k = a k.
Proof. unfold upd. intros H. apply Z.eqb_neq in H. now rewrite H. Qed.

Lemma to_int32_small z : INT32_MIN <= z <= INT32_MAX -> to_int32 z = z.
Proof.
  unfold to_int32, INT32_MIN, INT32_MAX. intros H.
  rewrite Z.mod_small; lia.
Qed.

Lemma to_uint32_small z : 0 <= z < 2 ^ 32 -> to_uint32 z = z.
Proof. unfold to_uint32. intros H. now apply Z.mod_small. Qed.

Lemma to_uint32_neg z : 0 < z <= 2 ^ 31 -> to_int32 (to_uint32 (- z)) = - z.
Proof.
  unfold to_int32, to_uint32. intros H.
  replace (- z) with (2 ^ 32 - z + (-1) * 2 ^ 32) by lia.
  rewrite Z.mod_add by lia. rewrite (Z.mod_small (2 ^ 32 - z)) by lia.
  replace (2 ^ 32 - z + 2 ^ 31) with (2 ^ 31 - z + 1 * 2 ^ 32) by lia.
  rewrite Z.mod_add by lia. rewrite Z.mod_small; lia.
Qed.

Lemma In_uniform_elements n i : In i (uniform_elements n) <-> 0 <= i < n.
Proof.
  unfold uniform_elements. rewrite in_map_iff. split.
  - intros (k & <- & Hk). apply in_seq in Hk. lia.
  - intros H. exists (Z.to_nat i). split; [lia|]. apply in_seq. lia.
Qed.

Lemma uniform_elements_succ n :
  0 <= n -> uniform_elements (n + 1) = uniform_elements n ++ [n].
Proof.
  intros H. unfold uniform_elements.
  replace (Z.to_nat (n + 1)) with (S (Z.to_nat n)) by lia.
  rewrite seq_S, map_app. simpl. f_equal. f_equal. lia.
Qed.


(** Loop rule for a [uniform_elements] loop that cannot stop the run. *)
Lemma uniform_loop_inv {St : Type} (Inv : Z -> St -> Prop) (body : St -> Z -> St) n s :
  0 <= n ->
  Inv 0 s ->
  (forall i t, 0 <= i < n -> Inv i t -> Inv (i + 1) (body t i)) ->
  Inv n (fold_left body (uniform_elements n) s).
Proof.
  intros Hn H0 Hstep.
  assert (G : forall k : nat, Z.of_nat k <= n ->
            Inv (Z.of_nat k) (fold_left body (uniform_elements (Z.of_nat k)) s)).
  { induction k as [|k IH]; intros Hk.
    - exact H0.
    - replace (Z.of_nat (S k)) with (Z.of_nat k + 1) by lia.
      rewrite uniform_elements_succ, fold_left_app by lia. simpl.
      apply Hstep; [lia|]. apply IH. lia. }
  specialize (G (Z.to_nat n)). rewrite Z2Nat.id in G by lia. apply G. lia.
Qed.

(** Loop rule for a [uniform_elements] loop whose body may stop the run:
    the rule gives the invariant when the loop completes. *)
Lemma uniform_for_each_inv {St : Type} (Inv : Z -> St -> Prop)
  (body : St -> Z -> result St) n s s' :
  0 <= n ->
  Inv 0 s ->
  (forall i t t', 0 <= i < n -> Inv i t -> body t i = Ok t' -> Inv (i + 1) t') ->
  for_each body (uniform_elements n) s = Ok s' ->
  Inv n s'.
Proof.
  intros Hn H0 Hstep.
  assert (E : forall l1 l2 t,
            for_each body (l1 ++ l2) t =
            bind (for_each body l1 t) (for_each body l2)).
  { induction l1 as [|x l1 IH]; intros l2 t; simpl; [reflexivity|].
    destruct (body t x); simpl; auto. }
  assert (G : forall k : nat, Z.of_nat k <= n -> forall r,
            for_each body (uniform_elements (Z.of_nat k)) s = Ok r ->
            Inv (Z.of_nat k) r).
  { induction k as [|k IH]; intros Hk r Hr.
    - simpl in Hr. injection Hr as <-. exact H0.
    - replace (Z.of_nat (S k)) with (Z.of_nat k + 1) in * by lia.
      rewrite uniform_elements_succ, E in Hr by lia.
      destruct (for_each body (uniform_elements (Z.of_nat k)) s) as [t| | |] eqn:Ht;
        simpl in Hr; try discriminate.
      destruct (body t (Z.of_nat k)) as [t'| | |] eqn:Hb; simpl in Hr; try discriminate.
      injection Hr as <-.
      eapply Hstep; [|apply IH; [lia|reflexivity]|exact Hb]. lia. }
  intros Hr. specialize (G (Z.to_nat n)). rewrite Z2Nat.id in G by lia.
  apply G; [lia|exact Hr].
Qed.

(** A loop that can stop only by running out of fuel completes when every
    iteration does. *)
Lemma uniform_for_each_total {St : Type} (Inv : Z -> St -> Prop)
  (body : St -> Z -> result St) n s :
  0 <= n ->
  Inv 0 s ->
  (forall i t, 0 <= i < n -> Inv i t -> exists t', body t i = Ok t' /\ Inv (i + 1) t') ->
  exists s', for_each body (uniform_elements n) s = Ok s' /\ Inv n s'.
Proof.
  intros Hn H0 Hstep.
  assert (E : forall l1 l2 t,
            for_each body (l1 ++ l2) t =
            bind (for_each body l1 t) (for_each body l2)).
  { induction l1 as [|x l1 IH]; intros l2 t; simpl; [reflexivity|].
    destruct (body t x); simpl; auto. }
  assert (G : forall k : nat, Z.of_nat k <= n ->
            exists r, for_each body (uniform_elements (Z.of_nat k)) s = Ok r /\
                      Inv (Z.of_nat k) r).
  { induction k as [|k IH]; intros Hk.
    - exists s. split; [reflexivity|exact H0].
    - destruct IH as (t & Ht & It); [lia|].
      destruct (Hstep (Z.of_nat k) t) as (t' & Hb & It'); [lia|exact It|].
      exists t'. replace (Z.of_nat (S k)) with (Z.of_nat k + 1) by lia.
      rewrite uniform_elements_succ, E, Ht by lia. simpl. rewrite Hb. simpl.
      split; [reflexivity|exact It']. }
  specialize (G (Z.to_nat n)). rewrite Z2Nat.id in G by lia. apply G. lia.
Qed.

(** ** The order on floats *)

Lemma compare_cont_Eq m1 m2 : Pos.compare_cont Eq m1 m2 = (Z.pos m1 ?= Z.pos m2).
Proof. reflexivity. Qed.

Lemma SFltb_key a b :
  Float32.is_nan a = false -> Float32.is_nan b = false ->
  (SFltb a b = true <-> klt (key a) (key b)).
Proof.
  unfold SFltb.
  destruct a as [sa|sa| |sa ma ea], b as [sb|sb| |sb mb eb]; simpl;
    try discriminate; intros _ _;
    try destruct sa; try destruct sb; simpl;
    try (split; [discriminate|lia]); try (split; [lia|reflexivity]).
  - rewrite compare_cont_Eq.
    destruct (Z.compare_spec ea eb); destruct (Z.compare_spec (Z.pos ma) (Z.pos mb));
      simpl; split; try discriminate; try reflexivity; try lia.
  - rewrite compare_cont_Eq.
    destruct (Z.compare_spec ea eb); destruct (Z.compare_spec (Z.pos ma) (Z.pos mb));
      simpl; split; try discriminate; try reflexivity; try lia.
Qed.

Lemma SFleb_key a b :
  Float32.is_nan a = false -> Float32.is_nan b = false ->
  (SFleb a b = true <-> ~ klt (key b) (key a)).
Proof.
  unfold SFleb.
  destruct a as [sa|sa| |sa ma ea], b as [sb|sb| |sb mb eb]; simpl;
    try discriminate; intros _ _;
    try destruct sa; try destruct sb; simpl;
    try (split; [discriminate|lia]); try (split; [lia|reflexivity]).
  - rewrite compare_cont_Eq.
    destruct (Z.compare_spec ea eb); destruct (Z.compare_spec (Z.pos ma) (Z.pos mb));
      simpl; split; try discriminate; try reflexivity; try lia.
  - rewrite compare_cont_Eq.
    destruct (Z.compare_spec ea eb); destruct (Z.compare_spec (Z.pos ma) (Z.pos mb));
      simpl; split; try discriminate; try reflexivity; try lia.
Qed.

Lemma SFltb_not_nan a b :
  SFltb a b = true -> Float32.is_nan a = false /\ Float32.is_nan b = false.
Proof. destruct a, b; simpl; try discriminate; auto. Qed.

Lemma SFleb_not_nan a b :
  SFleb a b = true -> Float32.is_nan a = false /\ Float32.is_nan b = false.
Proof. destruct a, b; simpl; try discriminate; auto. Qed.

Lemma is_finite_not_nan a : is_finite a = true -> Float32.is_nan a = false.
Proof. destruct a; simpl; auto; discriminate. Qed.

Lemma klt_irrefl k : ~ klt k k.
Proof. destruct k as [[c e] m]. simpl. lia. Qed.

Lemma klt_trans k1 k2 k3 : klt k1 k2 -> klt k2 k3 -> klt k1 k3.
Proof. destruct k1 as [[c1 e1] m1], k2 as [[c2 e2] m2], k3 as [[c3 e3] m3]. simpl. lia. Qed.

Lemma kle_trans k1 k2 k3 : ~ klt k2 k1 -> ~ klt k3 k2 -> ~ klt k3 k1.
Proof. destruct k1 as [[c1 e1] m1], k2 as [[c2 e2] m2], k3 as [[c3 e3] m3]. simpl. lia. Qed.

Lemma lt_irrefl a : Float32.lt a a = false.
Proof.
  unfold Float32.lt. destruct (SFltb a a) eqn:E; [|reflexivity].
  destruct (SFltb_not_nan _ _ E) as [Ha _].
  apply SFltb_key in E; auto. now apply klt_irrefl in E.
Qed.

Lemma lt_trans a b c :
  Float32.lt a b = true -> Float32.lt b c = true -> Float32.lt a c = true.
Proof.
  unfold Float32.lt. intros H1 H2.
  destruct (SFltb_not_nan _ _ H1) as [Ha Hb].
  destruct (SFltb_not_nan _ _ H2) as [_ Hc].
  apply SFltb_key in H1, H2; auto. apply SFltb_key; auto.
  eapply klt_trans; eauto.
Qed.

(** On finite values, [!(a >= b)] is [a < b]. *)
Lemma not_ge_lt a b :
  Float32.is_nan a = false -> Float32.is_nan b = false ->
  Float32.ge a b = false -> Float32.lt a b = true.
Proof.
  unfold Float32.ge, Float32.lt. intros Ha Hb H.
  apply SFltb_key; auto.
  destruct (SFleb b a) eqn:E; [discriminate|].
  assert (N : ~ ~ klt (key a) (key b)).
  { intros C. apply SFleb_key in C; auto. congruence. }
  destruct (key a) as [[c1 e1] m1], (key b) as [[c2 e2] m2]. simpl in *. lia.
Qed.

Lemma lt_not_ge a b : Float32.lt a b = true -> Float32.ge a b = false.
Proof.
  unfold Float32.ge, Float32.lt. intros H.
  destruct (SFltb_not_nan _ _ H) as [Ha Hb].
  apply SFltb_key in H; auto.
  destruct (SFleb b a) eqn:E; [|reflexivity].
  apply SFleb_key in E; auto. contradiction.
Qed.

(** On values that are not NaN, [!(a > b)] is [a <= b]. *)
Lemma not_gt_le a b :
  Float32.is_nan a = false -> Float32.is_nan b = false ->
  Float32.gt a b = false -> Float32.le a b = true.
Proof.
  unfold Float32.gt, Float32.le. intros Ha Hb H.
  apply SFleb_key; auto. intros C. apply SFltb_key in C; auto. congruence.
Qed.

Lemma le_not_gt a b : Float32.le a b = true -> Float32.gt a b = false.
Proof.
  unfold Float32.gt, Float32.le. intros H.
  destruct (SFleb_not_nan _ _ H) as [Ha Hb].
  apply SFleb_key in H; auto.
  destruct (SFltb b a) eqn:E; [|reflexivity].
  apply SFltb_key in E; auto. contradiction.
Qed.

Lemma le_trans a b c :
  Float32.le a b = true -> Float32.le b c = true -> Float32.le a c = true.
Proof.
  unfold Float32.le. intros H1 H2.
  destruct (SFleb_not_nan _ _ H1) as [Ha Hb].
  destruct (SFleb_not_nan _ _ H2) as [_ Hc].
  apply SFleb_key in H1, H2; auto. apply SFleb_key; auto.
  eapply kle_trans; eauto.
Qed.

Lemma lt_le a b : Float32.lt a b = true -> Float32.le a b = true.
Proof.
  unfold Float32.lt, Float32.le. intros H.
  destruct (SFltb_not_nan _ _ H) as [Ha Hb].
  apply SFltb_key in H; auto. apply SFleb_key; auto.
  intros C. apply (klt_irrefl (key a)). eapply klt_trans; eauto.
Qed.

Lemma le_refl a : Float32.is_nan a = false -> Float32.le a a = true.
Proof. intros Ha. apply SFleb_key; auto. apply klt_irrefl. Qed.

(** ** Inversion of the error monad *)

Lemma bind_Ok_inv {A B : Type} (r : result A) (k : A -> result B) b :
  bind r k = Ok b -> exists a, r = Ok a /\ k a = Ok b.
Proof. destruct r as [a| | |]; simpl; try discriminate. intros H. now exists a. Qed.

Lemma assert_Ok_inv {A : Type} (c : bool) a m (r : result A) x :
  (if negb c then AssertFailed a m else r) = Ok x -> c = true /\ r = Ok x.
Proof. destruct c; simpl; [auto|discriminate]. Qed.

Lemma bind_fail_inv {A B : Type} (r : result A) (k : A -> result B) a x :
  bind r k = AssertFailed a x ->
  r = AssertFailed a x \/ exists v, r = Ok v /\ k v = AssertFailed a x.
Proof.
  destruct r as [v|a' x'| |]; simpl; try discriminate.
  - intros H. right. exists v. auto.
  - intros H. left. injection H as <- <-. reflexivity.
Qed.

Lemma assert_fail_inv {A : Type} (c : bool) a m (r : result A) a' x :
  (if negb c then AssertFailed a m else r) = AssertFailed a' x ->
  (c = false /\ a' = a /\ x = m) \/ (c = true /\ r = AssertFailed a' x).
Proof.
  destruct c; simpl; [auto|]. intros H. injection H as <- <-. auto.
Qed.

Lemma assert_pass {A : Type} (c : bool) a m (r : result A) :
  c = true -> (if negb c then AssertFailed a m else r) = r.
Proof. intros ->. reflexivity. Qed.

(** ** Subtraction of finite values is never a NaN *)

Lemma iter_pos_inv {A : Type} (P : A -> Prop) (f : A -> A) :
  (forall x, P x -> P (f x)) -> forall n x, P x -> P (iter_pos f n x).
Proof.
  intros Hf. induction n as [n IH|n IH|]; intros x Hx; simpl; auto.
Qed.

Lemma shr_1_nonneg mrs : 0 <= shr_m mrs -> 0 <= shr_m (shr_1 mrs).
Proof.
  destruct mrs as [m r s]. simpl.
  destruct m as [|p|p]; try destruct p; simpl; lia.
Qed.

Lemma shr_fexp_nonneg prec emax m e l :
  0 <= m -> 0 <= shr_m (fst (shr_fexp prec emax m e l)).
Proof.
  intros Hm. unfold shr_fexp, shr.
  assert (H0 : 0 <= shr_m (shr_record_of_loc m l)).
  { destruct l as [|[| |]]; simpl; exact Hm. }
  destruct (fexp prec emax (Zdigits2 m + e) - e); simpl; auto.
  apply (iter_pos_inv (fun r => 0 <= shr_m r)); auto using shr_1_nonneg.
Qed.

Lemma round_nearest_even_nonneg m l : 0 <= m -> 0 <= round_nearest_even m l.
Proof.
  intros Hm. destruct l as [|[| |]]; simpl; try lia.
  destruct (Z.even m); lia.
Qed.

Lemma binary_round_aux_not_nan prec emax sx mx ex lx :
  0 <= mx -> Float32.is_nan (binary_round_aux prec emax sx mx ex lx) = false.
Proof.
  intros Hm. unfold binary_round_aux.
  pose proof (shr_fexp_nonneg prec emax mx ex lx Hm) as H1.
  destruct (shr_fexp prec emax mx ex lx) as [mrs' e']. simpl in H1.
  pose proof (shr_fexp_nonneg prec emax _ e' loc_Exact
                (round_nearest_even_nonneg _ (loc_of_shr_record mrs') H1)) as H2.
  destruct (shr_fexp prec emax _ e' loc_Exact) as [mrs'' e'']. simpl in H2.
  destruct (shr_m mrs'') as [|p|p]; simpl; auto; [|lia].
  destruct (e'' <=? emax - prec); reflexivity.
Qed.

Lemma binary_normalize_not_nan prec emax m e sz :
  Float32.is_nan (binary_normalize prec emax m e sz) = false.
Proof.
  unfold binary_normalize, binary_round.
  destruct m as [|p|p]; [reflexivity| |];
    destruct (shl_align _ _ _) as [mz ez]; apply binary_round_aux_not_nan; lia.
Qed.

Lemma sub_not_nan a b :
  is_finite a = true -> is_finite b = true ->
  Float32.is_nan (Float32.sub a b) = false.
Proof.
  unfold Float32.sub.
  destruct a as [sa|sa| |sa ma ea], b as [sb|sb| |sb mb eb]; simpl;
    try discriminate; intros _ _.
  - destruct sa, sb; reflexivity.
  - reflexivity.
  - reflexivity.
  - apply binary_normalize_not_nan.
Qed.

Lemma abs_not_nan a : Float32.is_nan (Float32.abs a) = Float32.is_nan a.
Proof. destruct a; reflexivity. Qed.

Lemma dist_not_nan m i j :
  is_finite (zt m i) = true -> is_finite (zt m j) = true ->
  Float32.is_nan (dist m i j) = false.
Proof. intros Hi Hj. unfold dist. rewrite abs_not_nan. now apply sub_not_nan. Qed.

(** The conversion [int(zt * 10.)] is defined only on zero and finite
    positions. *)
Lemma quantize_finite z iz : quantize z = Some iz -> is_finite z = true.
Proof. destruct z as [s|s| |s m e]; try reflexivity; try destruct s; discriminate. Qed.

Lemma bucket_of_range z : 0 <= bucket_of z <= 255.
Proof.
  unfold bucket_of. destruct (quantize z) as [iz|]; [|lia].
  unfold to_uint8. pose proof (Z.mod_pos_bound (clamp iz INT8_MIN INT8_MAX - INT8_MIN) (2 ^ 8)).
  lia.
Qed.

Lemma clamp_range v lo hi : lo <= hi -> lo <= clamp v lo hi <= hi.
Proof.
  intros H. unfold clamp.
  destruct (Z.ltb_spec v lo); [lia|]. destruct (Z.ltb_spec hi v); lia.
Qed.

(** The stored key is the clamped integer part shifted by 128; the
    conversion to [uint8_t] leaves it alone. *)
Lemma bucket_of_quantize z iz :
  quantize z = Some iz -> bucket_of z = clamp iz INT8_MIN INT8_MAX - INT8_MIN.
Proof.
  intros H. unfold bucket_of. rewrite H. unfold to_uint8.
  pose proof (clamp_range iz INT8_MIN INT8_MAX). unfold INT8_MIN, INT8_MAX in *.
  apply Z.mod_small. lia.
Qed.

(** ** Frames *)

Lemma only_iv_trans m1 m2 m3 : only_iv m1 m2 -> only_iv m2 m3 -> only_iv m1 m3.
Proof. unfold only_iv. congruence. Qed.

Lemma only_iv_set_iv m i v : only_iv m (set_iv m i v).
Proof. reflexivity. Qed.

Lemma only_iv_proj m m' :
  only_iv m m' ->
  ntrks m' = ntrks m /\ zt m' = zt m /\ ezt2 m' = ezt2 m /\ izt m' = izt m /\
  nn m' = nn m /\ nvFinal m' = nvFinal m /\ nvIntermediate m' = nvIntermediate m.
Proof. unfold only_iv, frame_iv. intros H. injection H as -> -> -> -> -> -> ->. repeat split. Qed.

Lemma only_nn_trans m1 m2 m3 : only_nn m1 m2 -> only_nn m2 m3 -> only_nn m1 m3.
Proof. unfold only_nn. congruence. Qed.

Lemma only_nn_proj m m' :
  only_nn m m' ->
  ntrks m' = ntrks m /\ zt m' = zt m /\ ezt2 m' = ezt2 m /\ izt m' = izt m /\
  iv m' = iv m /\ nvFinal m' = nvFinal m /\ nvIntermediate m' = nvIntermediate m.
Proof. unfold only_nn, frame_nn. intros H. injection H as -> -> -> -> -> -> ->. repeat split. Qed.

Lemma fold_left_preserves {A B : Type} (P : A -> Prop) (f : A -> B -> A) l a :
  P a -> (forall x y, P x -> P (f x y)) -> P (fold_left f l a).
Proof. revert a. induction l as [|y l IH]; intros a Ha Hf; simpl; auto. Qed.

(** ** The index: keys, counters, slots and the query *)

Lemma sum_upto_upd f b v n :
  Hist.sum_upto (upd f b v) n =
  Hist.sum_upto f n + (if (0 <=? b) && (b <? Z.of_nat n) then v - f b else 0).
Proof.
  induction n as [|n IH].
  { simpl. destruct (Z.leb_spec 0 b), (Z.ltb_spec b 0); simpl; lia. }
  cbn [Hist.sum_upto]. rewrite IH. unfold upd.
  destruct (Z.eqb_spec (Z.of_nat n) b) as [E|Hne].
  - subst b.
    destruct (Z.leb_spec 0 (Z.of_nat n)), (Z.ltb_spec (Z.of_nat n) (Z.of_nat n)),
      (Z.ltb_spec (Z.of_nat n) (Z.of_nat (S n))); simpl; lia.
  - destruct (Z.leb_spec 0 b), (Z.ltb_spec b (Z.of_nat n)), (Z.ltb_spec b (Z.of_nat (S n)));
      simpl; lia.
Qed.

Lemma filter_uniform_succ (f : Z -> bool) n :
  0 <= n ->
  Z.of_nat (length (filter f (uniform_elements (n + 1)))) =
  Z.of_nat (length (filter f (uniform_elements n))) + (if f n then 1 else 0).
Proof.
  intros Hn. rewrite uniform_elements_succ, filter_app, length_app by lia.
  simpl. destruct (f n); simpl; lia.
Qed.

Lemma fill_hist_item_step zv m0 i s s' :
  0 <= i <= INT32_MAX ->
  fill_hist_inv zv m0 i s ->
  fill_hist_item zv s i = Ok s' ->
  fill_hist_inv zv m0 (i + 1) s'.
Proof.
  intros Hi Inv Hs. destruct s as [m h].
  destruct Inv as ((En & Ez & Ee & Ef & Ev) & Hlo & Hhi & Hoff & Hsum & Hbins).
  unfold fill_hist_item in Hs.
  destruct (Z.ltb_spec i (MAXTRACKS zv)) as [Hmax|]; simpl in Hs; [|discriminate].
  destruct (quantize (zt m i)) as [iz|] eqn:Hq; [|discriminate].
  rewrite Ez in Hq.
  pose proof (bucket_of_quantize _ _ Hq) as Hb.
  pose proof (bucket_of_range (zt m0 i)) as Hr.
  assert (Hk : to_uint8 (clamp iz INT8_MIN INT8_MAX - INT8_MIN) = bucket_of (zt m0 i)).
  { unfold bucket_of. now rewrite Hq. }
  rewrite Hk in Hs. rewrite <- Hb in Hs.
  destruct ((0 <=? bucket_of (zt m0 i)) && (bucket_of (zt m0 i) <? 256)) eqn:Hc;
    simpl in Hs; [|discriminate].
  injection Hs as <-. unfold fill_hist_inv.
  cbn [ntrks zt ezt2 izt nn iv nvFinal nvIntermediate set_iv set_nn set_izt
       Hist.off Hist.bins Hist.count].
  split; [repeat split; assumption|].
  split.
  { intros k Hki. destruct (Z.eq_dec k i) as [->|Hne].
    - rewrite !upd_same. split; [rewrite Hq; discriminate|]. split; [reflexivity|].
      split; [apply to_int32_small; unfold INT32_MIN; lia|]. split; [reflexivity|exact Hmax].
    - rewrite !upd_other by exact Hne. apply Hlo. lia. }
  split.
  { intros k Hki. rewrite !upd_other by lia. apply Hhi. lia. }
  split.
  { intros b. rewrite upd_same. unfold count_in_bucket.
    rewrite filter_uniform_succ by lia.
    fold (count_in_bucket m0 i b). unfold upd.
    destruct (Z.eqb_spec b (bucket_of (zt m0 i))) as [->|Hne].
    - rewrite Z.eqb_refl, Hoff. reflexivity.
    - rewrite Hoff. destruct (Z.eqb_spec (bucket_of (zt m0 i)) b); [congruence|lia]. }
  split; [|exact Hbins].
  rewrite upd_same, sum_upto_upd, Hsum. unfold Hist.nbins.
  destruct (Z.leb_spec 0 (bucket_of (zt m0 i))),
    (Z.ltb_spec (bucket_of (zt m0 i)) (Z.of_nat (Z.to_nat 256)));
    cbn [andb]; lia.
Qed.

Lemma sum_upto_zero n : Hist.sum_upto (fun _ => 0) n = 0.
Proof. induction n as [|n IH]; cbn [Hist.sum_upto]; lia. Qed.

Lemma fill_hist_inv_0 zv m0 : fill_hist_inv zv m0 0 (m0, Hist.zero).
Proof.
  unfold fill_hist_inv. split; [repeat split|]. split; [intros k Hk; lia|].
  split; [intros k Hk; repeat split|]. split; [intros b; reflexivity|].
  split; [apply sum_upto_zero|reflexivity].
Qed.

Lemma fill_hist_spec zv m0 s :
  0 <= ntrks m0 <= INT32_MAX ->
  fill_hist zv m0 Hist.zero = Ok s ->
  fill_hist_inv zv m0 (ntrks m0) s.
Proof.
  intros Hn Hs. unfold fill_hist in Hs.
  eapply (uniform_for_each_inv (fill_hist_inv zv m0)); [| |  |exact Hs].
  - lia.
  - apply fill_hist_inv_0.
  - intros i t t' Hi It Ht. eapply fill_hist_item_step; eauto. lia.
Qed.

Lemma range_spec key n b :
  In b (Hist.range key n) <->
  Z.max 0 (key - n) <= b <= Z.min (Hist.nbins - 1) (key + n).
Proof.
  unfold Hist.range. rewrite in_map_iff. split.
  - intros (k & <- & Hk). apply In_uniform_elements in Hk. lia.
  - intros H. exists (b - Z.max 0 (key - n)). split; [lia|].
    apply In_uniform_elements. lia.
Qed.

Lemma fill_slots_spec m hist0 :
  0 <= ntrks m <= INT32_MAX ->
  (forall b, Hist.bins hist0 b = []) ->
  forall b j, In j (Hist.bins (fill_slots m hist0) b) <-> 0 <= j < ntrks m /\ izt m j = b.
Proof.
  intros Hn H0. unfold fill_slots.
  apply (uniform_loop_inv
           (fun i h => forall b j, In j (Hist.bins h b) <-> 0 <= j < i /\ izt m j = b)).
  - lia.
  - intros b j. rewrite H0. simpl. split; [tauto|lia].
  - intros i h Hi Inv b j. simpl. unfold upd.
    rewrite to_uint32_small by (unfold INT32_MAX in Hn; lia).
    destruct (Z.eqb_spec b (izt m i)) as [->|Hne].
    + simpl. rewrite Inv. split.
      * intros [<-|[H1 H2]]; split; auto; lia.
      * intros [H1 H2]. destruct (Z.eq_dec j i); [left; congruence|right; split; auto; lia].
    + rewrite Inv. split; intros [H1 H2]; split; auto; try lia.
      destruct (Z.eq_dec j i); [subst; congruence|lia].
Qed.

Lemma size_finalize h :
  Hist.size (Hist.finalize h) = Hist.sum_upto (Hist.off h) (Z.to_nat Hist.nbins).
Proof. reflexivity. Qed.

Lemma build_index_inv zv m0 m1 hist :
  build_index zv m0 = Ok (m1, hist) ->
  to_int32 (ntrks m0) <= Hist.capacity /\
  exists h, fill_hist zv m0 Hist.zero = Ok (m1, h) /\
            Hist.size (Hist.finalize h) = ntrks m1 /\
            hist = fill_slots m1 (Hist.finalize h).
Proof.
  intros Hb. unfold build_index in Hb.
  apply assert_Ok_inv in Hb. destruct Hb as [Hcap Hb].
  apply Z.leb_le in Hcap. split; [exact Hcap|].
  apply bind_Ok_inv in Hb. destruct Hb as ([m h] & Hf & Hb).
  apply assert_Ok_inv in Hb. destruct Hb as [Hs Hb]. apply Z.eqb_eq in Hs.
  injection Hb as <- <-. exists h. split; [exact Hf|]. split; [exact Hs|reflexivity].
Qed.

(** What [build_index] hands to the later phases. *)
Lemma build_index_spec zv m0 m1 hist :
  0 <= ntrks m0 <= INT32_MAX ->
  build_index zv m0 = Ok (m1, hist) ->
  (ntrks m1 = ntrks m0 /\ zt m1 = zt m0 /\ ezt2 m1 = ezt2 m0 /\
   nvFinal m1 = nvFinal m0 /\ nvIntermediate m1 = nvIntermediate m0) /\
  (forall k, 0 <= k < ntrks m0 ->
     quantize (zt m0 k) <> None /\ izt m1 k = bucket_of (zt m0 k) /\
     iv m1 k = k /\ nn m1 k = 0 /\ k < MAXTRACKS zv) /\
  (forall k, ~ 0 <= k < ntrks m0 ->
     izt m1 k = izt m0 k /\ iv m1 k = iv m0 k /\ nn m1 k = nn m0 k) /\
  prepared m1 hist.
Proof.
  intros Hn Hb. apply build_index_inv in Hb.
  destruct Hb as (Hcap & h & Hf & _ & ->).
  rewrite to_int32_small in Hcap by (unfold INT32_MIN; lia).
  apply fill_hist_spec in Hf; [|exact Hn].
  destruct Hf as ((En & Ez & Ee & Ef & Ev) & Hlo & Hhi & Hoff & Hsum & Hbins).
  split; [auto|]. split; [auto|]. split; [auto|].
  split; [lia|]. split.
  - intros k Hk. rewrite En in Hk. destruct (Hlo k Hk) as (Hq & _).
    rewrite Ez. destruct (quantize (zt m0 k)) eqn:E; [|congruence].
    eapply quantize_finite; eauto.
  - intros i j Hi. unfold Hist.query. rewrite in_flat_map.
    assert (Hs : forall b j, In j (Hist.bins (fill_slots m1 (Hist.finalize h)) b) <->
                             0 <= j < ntrks m1 /\ izt m1 j = b).
    { apply fill_slots_spec; [lia|]. intros b.
      change (Hist.bins (Hist.finalize h) b) with (Hist.bins h b). now rewrite Hbins. }
    assert (Hr : forall k, 0 <= k < ntrks m1 -> 0 <= izt m1 k <= 255).
    { intros k Hk. rewrite En in Hk. destruct (Hlo k Hk) as (_ & -> & _).
      apply bucket_of_range. }
    unfold visited. split.
    + intros (b & Hb & Hj). apply Hs in Hj. destruct Hj as [Hj <-].
      apply range_spec in Hb. unfold Hist.nbins in Hb.
      pose proof (Hr i Hi). pose proof (Hr j Hj). split; [lia|lia].
    + intros [Hj Ha]. exists (izt m1 j). split; [|apply Hs; auto].
      apply range_spec. unfold Hist.nbins.
      pose proof (Hr i Hi). pose proof (Hr j Hj). lia.
Qed.

Lemma prepared_only_nn m m' hist : only_nn m m' -> prepared m hist -> prepared m' hist.
Proof.
  intros F. apply only_nn_proj in F. destruct F as (En & Ez & _ & Ei & _).
  unfold prepared, visited. now rewrite En, Ez, Ei.
Qed.

Lemma prepared_only_iv m m' hist : only_iv m m' -> prepared m hist -> prepared m' hist.
Proof.
  intros F. apply only_iv_proj in F. destruct F as (En & Ez & _ & Ei & _).
  unfold prepared, visited. now rewrite En, Ez, Ei.
Qed.

(** ** Counting neighbours writes [nn] only *)

Lemma count_loop_only_nn eps i m j : only_nn m (count_loop eps i m j).
Proof.
  unfold count_loop. destruct (i =? j); [reflexivity|].
  destruct (Float32.gt _ _); reflexivity.
Qed.

Lemma count_item_only_nn eps hist er2mx m i : only_nn m (count_item eps hist er2mx m i).
Proof.
  unfold count_item, forEachInBins. destruct (Float32.gt _ _); [reflexivity|].
  apply (fold_left_preserves (only_nn m)); [reflexivity|].
  intros x y Hx. eapply only_nn_trans; [exact Hx|apply count_loop_only_nn].
Qed.

Lemma count_neighbours_only_nn eps hist er2mx m :
  only_nn m (count_neighbours eps hist er2mx m).
Proof.
  unfold count_neighbours.
  apply (fold_left_preserves (only_nn m)); [reflexivity|].
  intros x y Hx. eapply only_nn_trans; [exact Hx|apply count_item_only_nn].
Qed.

(** ** Seeding *)

Lemma seed_choice_frame minT eps m m' i l p :
  only_iv m m' -> seed_choice minT eps m' i l p -> seed_choice minT eps m i l p.
Proof.
  intros F. apply only_iv_proj in F. destruct F as (_ & Ez & _ & _ & En & _).
  unfold seed_choice, seed_candidate, dist. now rewrite Ez, En.
Qed.

(** The lambda of lines 125-136 run over any list of items. *)
Lemma seed_loop_spec minT eps m i l :
  0 <= ntrks m <= INT32_MAX ->
  is_finite (zt m i) = true ->
  (forall j, In j l -> 0 <= j < ntrks m /\ is_finite (zt m j) = true) ->
  forall mz m', fold_left (seed_loop minT eps i) l (zt m i, m) = (mz, m') ->
  only_iv m m' /\ (forall k, k <> i -> iv m' k = iv m k) /\
  ((mz = zt m i /\ iv m' i = iv m i /\
    forall j, In j l -> ~ seed_candidate minT eps m i j) \/
   (mz = zt m (iv m' i) /\ In (iv m' i) l /\ seed_candidate minT eps m i (iv m' i) /\
    forall j, In j l -> seed_candidate minT eps m i j ->
              Float32.le (zt m (iv m' i)) (zt m j) = true)).
Proof.
  intros Hn Hfi. induction l as [|x l IH] using rev_ind; intros Hl mz m' Hfold.
  - simpl in Hfold. injection Hfold as <- <-.
    split; [reflexivity|]. split; [auto|]. left. repeat split; auto.
  - rewrite fold_left_app in Hfold. simpl in Hfold.
    destruct (fold_left (seed_loop minT eps i) l (zt m i, m)) as [mz0 m0] eqn:E0.
    destruct (IH (fun j Hj => Hl j (in_or_app _ _ _ (or_introl Hj))) mz0 m0 eq_refl)
      as (F & Hother & Hcase).
    assert (Hinx : In x (l ++ [x])) by (apply in_or_app; right; now left).
    destruct (Hl x Hinx) as [Hx Hfx].
    pose proof (only_iv_proj _ _ F) as (_ & Ez & _ & _ & Enn & _).
    assert (Hmz0 : Float32.is_nan mz0 = false /\
                   (mz0 = zt m i \/ Float32.lt mz0 (zt m i) = true)).
    { destruct Hcase as [(-> & _)|(-> & Hin & (_ & Hlt & _) & _)].
      - split; [now apply is_finite_not_nan|now left].
      - split; [|now right]. apply is_finite_not_nan.
        apply (Hl (iv m0 i)). apply in_or_app. now left. }
    destruct Hmz0 as [Hnan0 Hle0].
    unfold seed_loop in Hfold. rewrite Ez, Enn in Hfold.
    assert (Hkeep :
              (mz0 = zt m i -> ~ seed_candidate minT eps m i x) ->
              (mz0 = zt m (iv m0 i) -> seed_candidate minT eps m i x ->
               Float32.le (zt m (iv m0 i)) (zt m x) = true) ->
              only_iv m m0 /\ (forall k, k <> i -> iv m0 k = iv m k) /\
              ((mz0 = zt m i /\ iv m0 i = iv m i /\
                forall j, In j (l ++ [x]) -> ~ seed_candidate minT eps m i j) \/
               (mz0 = zt m (iv m0 i) /\ In (iv m0 i) (l ++ [x]) /\
                seed_candidate minT eps m i (iv m0 i) /\
                forall j, In j (l ++ [x]) -> seed_candidate minT eps m i j ->
                          Float32.le (zt m (iv m0 i)) (zt m j) = true))).
    { intros HA HB. split; [exact F|]. split; [exact Hother|].
      destruct Hcase as [(Emz & Eiv & Hno)|(Emz & Hin & Hc & Hmin)].
      - left. split; [exact Emz|]. split; [exact Eiv|].
        intros j Hj. apply in_app_or in Hj. destruct Hj as [Hj|[<-|[]]].
        + now apply Hno.
        + now apply HA.
      - right. split; [exact Emz|]. split; [apply in_or_app; now left|].
        split; [exact Hc|].
        intros j Hj Hcj. apply in_app_or in Hj. destruct Hj as [Hj|[<-|[]]].
        + now apply Hmin.
        + now apply HB. }
    destruct (Float32.ge (zt m x) mz0) eqn:Hge.
    { (* not below the best so far *)
      injection Hfold as <- <-. apply Hkeep.
      - intros -> (_ & Hlt & _). apply lt_not_ge in Hlt. congruence.
      - intros <- _. exact Hge. }
    destruct (Z.ltb_spec (nn m x) minT) as [Hnc|Hcore].
    { injection Hfold as <- <-. apply Hkeep.
      - intros _ (Hc & _). lia.
      - intros _ (Hc & _). lia. }
    destruct (Float32.gt (Float32.abs (Float32.sub (zt m i) (zt m x))) eps) eqn:Hd.
    { injection Hfold as <- <-. apply Hkeep.
      - intros _ (_ & _ & Hc). unfold dist in Hc. congruence.
      - intros _ (_ & _ & Hc). unfold dist in Hc. congruence. }
    clear Hkeep.
    (* a new best *)
    injection Hfold as <- <-.
    assert (Ex : to_int32 x = x).
    { apply to_int32_small. unfold INT32_MIN. lia. }
    assert (Hlt0 : Float32.lt (zt m x) mz0 = true).
    { apply not_ge_lt; auto. now apply is_finite_not_nan. }
    assert (Hlti : Float32.lt (zt m x) (zt m i) = true).
    { destruct Hle0 as [->|Hl0]; [exact Hlt0|]. eapply lt_trans; eauto. }
    split; [eapply only_iv_trans; [exact F|apply only_iv_set_iv]|].
    split.
    { intros k Hk. simpl. rewrite upd_other by auto. now apply Hother. }
    right. simpl. rewrite upd_same, Ex.
    split; [reflexivity|]. split; [apply in_or_app; right; now left|].
    split; [repeat split; auto|].
    intros j Hj Hcj. apply in_app_or in Hj. destruct Hj as [Hj|[<-|[]]].
    + destruct Hcase as [(Emz & Eiv & Hno)|(Emz & Hin & Hc & Hmin)].
      * now destruct (Hno j Hj).
      * eapply le_trans; [|apply (Hmin j Hj Hcj)]. apply lt_le. now rewrite <- Emz.
    + apply le_refl. now apply is_finite_not_nan.
Qed.

Lemma capacity_int32 n : 0 <= n <= Hist.capacity -> 0 <= n <= INT32_MAX.
Proof. unfold Hist.capacity, INT32_MAX. lia. Qed.

Lemma seed_item_spec minT eps hist m i :
  prepared m hist -> 0 <= i < ntrks m -> iv m i = i ->
  only_iv m (seed_item minT eps hist m i) /\
  (forall k, k <> i -> iv (seed_item minT eps hist m i) k = iv m k) /\
  (nn m i < minT -> iv (seed_item minT eps hist m i) i = i) /\
  (minT <= nn m i ->
   seed_choice minT eps m i (Hist.query hist (izt m i) 1)
               (iv (seed_item minT eps hist m i) i)).
Proof.
  intros (Hn & Hfin & Hq) Hi Hself. unfold seed_item, forEachInBins.
  destruct (Z.ltb_spec (nn m i) minT) as [Hnc|Hc].
  { split; [reflexivity|]. split; [auto|]. split; [auto|]. lia. }
  destruct (fold_left (seed_loop minT eps i) (Hist.query hist (izt m i) 1) (zt m i, m))
    as [mz m'] eqn:E.
  destruct (seed_loop_spec minT eps m i (Hist.query hist (izt m i) 1)
              (capacity_int32 _ Hn) (Hfin i Hi)) with (mz := mz) (m' := m')
    as (F & Hother & Hcase); [|exact E|].
  { intros j Hj. apply Hq in Hj; [|exact Hi]. destruct Hj as [Hj _]. auto. }
  cbn [snd]. split; [exact F|]. split; [exact Hother|]. split; [lia|].
  intros _. destruct Hcase as [(_ & Eiv & Hno)|(_ & Hin & Hcand & Hmin)].
  - left. split; [congruence|exact Hno].
  - right. auto.
Qed.

Lemma seed_spec minT eps hist m0 :
  prepared m0 hist ->
  (forall k, 0 <= k < ntrks m0 -> iv m0 k = k) ->
  seeded minT eps hist m0 (seed minT eps hist m0).
Proof.
  intros Hp Hself. unfold seed, seeded.
  assert (Hn : 0 <= ntrks m0) by (destruct Hp as [? _]; lia).
  pose proof (uniform_loop_inv
    (fun i m =>
       only_iv m0 m /\
       (forall k, ~ 0 <= k < i -> iv m k = iv m0 k) /\
       (forall k, 0 <= k < i ->
          (nn m0 k < minT -> iv m k = k) /\
          (minT <= nn m0 k ->
           seed_choice minT eps m0 k (Hist.query hist (izt m0 k) 1) (iv m k))))
    (seed_item minT eps hist) (ntrks m0) m0 Hn) as H.
  destruct H as (F & Hout & Hin).
  - split; [reflexivity|]. split; [auto|]. intros k Hk. lia.
  - intros i m Hi (F & Hout & Hin).
    pose proof (only_iv_proj _ _ F) as (En & Ez & _ & Ei & Enn & _).
    assert (Hpm : prepared m hist) by (eapply prepared_only_iv; eauto).
    assert (Him : 0 <= i < ntrks m) by (rewrite En; exact Hi).
    assert (Hsm : iv m i = i) by (rewrite Hout by lia; now apply Hself).
    destruct (seed_item_spec minT eps hist m i Hpm Him Hsm) as (F' & Hother & Hnc & Hc).
    split; [eapply only_iv_trans; eauto|]. split.
    + intros k Hk. rewrite Hother by lia. apply Hout. lia.
    + intros k Hk. destruct (Z.eq_dec k i) as [->|Hne].
      * split.
        -- intros Hlt. apply Hnc. now rewrite Enn.
        -- intros Hge. rewrite <- Ei. eapply seed_choice_frame; [exact F|].
           apply Hc. now rewrite Enn.
      * rewrite Hother by exact Hne. apply Hin. lia.
  - split; [exact F|]. split; [exact Hout|exact Hin].
Qed.

Lemma seeded_forest minT eps hist m0 m :
  prepared m0 hist -> seeded minT eps hist m0 m -> forest minT m.
Proof.
  intros (Hn & Hfin & Hq) (F & Hout & Hin) k Hk.
  pose proof (only_iv_proj _ _ F) as (En & Ez & _ & _ & Enn & _).
  rewrite En in Hk. rewrite En, Ez, Enn.
  destruct (Hin k Hk) as [Hnc Hc].
  destruct (Z.lt_ge_cases (nn m0 k) minT) as [Hlt|Hge]; [left; auto|].
  destruct (Hc Hge) as [(-> & _)|(Hv & (Hcp & Hltp & _) & _)]; [now left|].
  right. apply Hq in Hv; [|exact Hk]. destruct Hv as [Hv _]. auto.
Qed.

(** ** The walk to the root *)

Lemma filter_length_le {A : Type} (f g : A -> bool) l :
  (forall x, In x l -> f x = true -> g x = true) ->
  (length (filter f l) <= length (filter g l))%nat.
Proof.
  induction l as [|a l IH]; intros H; simpl; [lia|].
  assert (IH' := IH (fun x Hx => H x (or_intror Hx))).
  destruct (f a) eqn:Ef.
  - rewrite (H a (or_introl eq_refl) Ef). simpl. lia.
  - destruct (g a); simpl; lia.
Qed.

Lemma filter_length_lt {A : Type} (f g : A -> bool) l y :
  (forall x, In x l -> f x = true -> g x = true) ->
  In y l -> f y = false -> g y = true ->
  (length (filter f l) < length (filter g l))%nat.
Proof.
  induction l as [|a l IH]; intros H Hy Hf Hg; simpl; [destruct Hy|].
  assert (Hle := filter_length_le f g l (fun x Hx => H x (or_intror Hx))).
  destruct Hy as [->|Hy].
  - rewrite Hf, Hg. simpl. lia.
  - assert (IH' := IH (fun x Hx => H x (or_intror Hx)) Hy Hf Hg).
    destruct (f a) eqn:Ef.
    + rewrite (H a (or_introl eq_refl) Ef). simpl. lia.
    + destruct (g a); simpl; lia.
Qed.

Lemma rank_lt m p q :
  0 <= q < ntrks m -> Float32.lt (zt m q) (zt m p) = true ->
  (rank m q < rank m p)%nat.
Proof.
  intros Hq Hlt. unfold rank. apply filter_length_lt with (y := q).
  - intros x _ Hx. eapply lt_trans; eauto.
  - now apply In_uniform_elements.
  - apply lt_irrefl.
  - exact Hlt.
Qed.

Lemma rank_bound m p : 0 <= p < ntrks m -> (Z.of_nat (rank m p) < ntrks m).
Proof.
  intros Hp. unfold rank.
  assert (H : (length (filter (fun k => Float32.lt (zt m k) (zt m p)) (uniform_elements (ntrks m)))
               < length (filter (fun _ => true) (uniform_elements (ntrks m))))%nat).
  { apply filter_length_lt with (y := p); auto.
    - now apply In_uniform_elements.
    - apply lt_irrefl. }
  assert (E : length (filter (fun _ : Z => true) (uniform_elements (ntrks m))) =
              Z.to_nat (ntrks m)).
  { rewrite forallb_filter_id.
    - unfold uniform_elements. now rewrite length_map, length_seq.
    - apply forallb_forall. auto. }
  lia.
Qed.

(** If the walk returns, it returns a root below its start. *)
Lemma walk_sound minT m :
  forest minT m ->
  forall fuel p r, 0 <= p < ntrks m -> walk fuel (iv m) p = Some r ->
  0 <= r < ntrks m /\ iv m r = r /\
  (r = p \/ (Float32.lt (zt m r) (zt m p) = true /\ minT <= nn m p /\ minT <= nn m r)).
Proof.
  intros Hf. induction fuel as [|fuel IH]; intros p r Hp Hw; [discriminate|].
  simpl in Hw. destruct (Z.eqb_spec p (iv m p)) as [E|Hne]; simpl in Hw.
  - injection Hw as <-. auto.
  - destruct (Hf p Hp) as [E|(Hr & Hlt & Hcp & Hcq)]; [congruence|].
    destruct (IH _ _ Hr Hw) as (Hrr & Hroot & Hrel).
    split; [exact Hrr|]. split; [exact Hroot|]. right.
    destruct Hrel as [->|(Hlt' & _ & Hcr)]; [auto|].
    split; [eapply lt_trans; eauto|auto].
Qed.

(** The walk returns as soon as the fuel exceeds the rank of its start. *)
Lemma walk_total minT m :
  forest minT m ->
  forall fuel p, 0 <= p < ntrks m -> (rank m p < fuel)%nat ->
  exists r, walk fuel (iv m) p = Some r.
Proof.
  intros Hf. induction fuel as [|fuel IH]; intros p Hp Hr; [lia|].
  simpl. destruct (Z.eqb_spec p (iv m p)) as [E|Hne]; simpl.
  - now exists p.
  - destruct (Hf p Hp) as [E|(Hq & Hlt & _)]; [congruence|].
    apply IH; [exact Hq|]. pose proof (rank_lt m p (iv m p) Hq Hlt). lia.
Qed.

(** ** Consolidation *)

Lemma forest_pointer_range minT m k :
  forest minT m -> 0 <= k < ntrks m -> 0 <= iv m k < ntrks m.
Proof. intros Hf Hk. destruct (Hf k Hk) as [->|(H & _)]; auto. Qed.

Lemma compress_item_step minT fuel m0 i m m' :
  compressed_upto minT m0 i m -> 0 <= i < ntrks m0 ->
  compress_item fuel m i = Ok m' ->
  compressed_upto minT m0 (i + 1) m'.
Proof.
  intros (F & Hf & Hout & Hdone) Hi Hc.
  pose proof (only_iv_proj _ _ F) as (En & Ez & _ & _ & Enn & _).
  assert (Him : 0 <= i < ntrks m) by (rewrite En; exact Hi).
  unfold compress_item in Hc.
  destruct (walk fuel (iv m) (iv m i)) as [r|] eqn:Hw; [|discriminate].
  injection Hc as <-.
  pose proof (forest_pointer_range minT m i Hf Him) as Hp.
  destruct (walk_sound minT m Hf fuel _ _ Hp Hw) as (Hr & Hroot & Hrel).
  assert (Hself : iv m i = i -> r = i).
  { intros E. rewrite E in Hw. destruct fuel as [|fuel]; [discriminate|].
    simpl in Hw. rewrite E, Z.eqb_refl in Hw. simpl in Hw. congruence. }
  split; [eapply only_iv_trans; [exact F|apply only_iv_set_iv]|].
  split.
  { (* still a forest *)
    intros k Hk. cbn [ntrks set_iv] in Hk.
    cbn [iv set_iv zt nn ntrks].
    destruct (Z.eq_dec k i) as [->|Hne].
    - rewrite upd_same.
      destruct (Z.eq_dec r i) as [->|Hri]; [now left|]. right.
      split; [exact Hr|].
      destruct (Hf i Him) as [E|(_ & Hlt & Hci & Hcp)]; [now destruct (Hri (Hself E))|].
      destruct Hrel as [->|(Hlt' & _ & Hcr)]; [auto|].
      split; [eapply lt_trans; eauto|auto].
    - rewrite upd_other by exact Hne.
      destruct (Hf k Hk) as [E|(Hrk & Hlt & Hck & Hcp)]; [now left|]. right.
      split; [exact Hrk|]. split; [exact Hlt|]. split; [exact Hck|exact Hcp]. }
  split.
  { intros k Hk. cbn [iv set_iv]. rewrite upd_other by lia. now apply Hout. }
  intros k Hk. cbn [iv set_iv].
  assert (Hroot' : upd (iv m) i r r = r).
  { destruct (Z.eq_dec r i) as [->|Hri]; [apply upd_same|].
    now rewrite upd_other. }
  destruct (Z.eq_dec k i) as [->|Hne].
  - rewrite upd_same. split; [lia|exact Hroot'].
  - rewrite (upd_other _ _ _ k) by exact Hne.
    destruct (Hdone k) as [Hrk Hrt]; [lia|]. split; [exact Hrk|].
    destruct (Z.eq_dec (iv m k) i) as [E|Hki].
    + rewrite E in *. rewrite (Hself Hrt). apply upd_same.
    + now rewrite upd_other.
Qed.

Lemma compress_item_total minT fuel m0 i m :
  compressed_upto minT m0 i m -> 0 <= i < ntrks m0 ->
  ntrks m0 <= Z.of_nat fuel ->
  exists m', compress_item fuel m i = Ok m'.
Proof.
  intros (F & Hf & Hout & Hdone) Hi Hfuel.
  pose proof (only_iv_proj _ _ F) as (En & _).
  assert (Him : 0 <= i < ntrks m) by (rewrite En; exact Hi).
  pose proof (forest_pointer_range minT m i Hf Him) as Hp.
  destruct (walk_total minT m Hf fuel (iv m i) Hp) as [r Hw].
  { pose proof (rank_bound m (iv m i) Hp). lia. }
  unfold compress_item. rewrite Hw. eauto.
Qed.

Lemma compressed_upto_0 minT m : forest minT m -> compressed_upto minT m 0 m.
Proof.
  intros Hf. split; [reflexivity|]. split; [exact Hf|]. split; [auto|].
  intros k Hk. lia.
Qed.

(** When the consolidation completes, every pointer is a root. *)
Lemma compress_sound minT fuel m m' :
  0 <= ntrks m -> forest minT m ->
  compress fuel m = Ok m' ->
  compressed_upto minT m (ntrks m) m'.
Proof.
  intros Hn Hf Hc. unfold compress in Hc.
  eapply (uniform_for_each_inv (compressed_upto minT m)); [exact Hn| | |exact Hc].
  - now apply compressed_upto_0.
  - intros i t t' Hi It Ht. eapply compress_item_step; eauto.
Qed.

(** With at least as much fuel as there are items, it does complete. *)
Lemma compress_total minT fuel m :
  0 <= ntrks m -> forest minT m -> ntrks m <= Z.of_nat fuel ->
  exists m', compress fuel m = Ok m' /\ compressed_upto minT m (ntrks m) m'.
Proof.
  intros Hn Hf Hfuel. unfold compress.
  apply (uniform_for_each_total (compressed_upto minT m)); [exact Hn| |].
  - now apply compressed_upto_0.
  - intros i t Hi It.
    destruct (compress_item_total minT fuel m i t It Hi Hfuel) as [t' Ht].
    exists t'. split; [exact Ht|]. eapply compress_item_step; eauto.
Qed.

(** Consolidating a consolidated state writes back what is there. *)
Lemma compress_again fuel m :
  0 <= ntrks m -> (0 < fuel)%nat ->
  (forall k, 0 <= k < ntrks m -> iv m (iv m k) = iv m k) ->
  exists m', compress fuel m = Ok m' /\ only_iv m m' /\ forall k, iv m' k = iv m k.
Proof.
  intros Hn Hfuel Hflat. unfold compress.
  apply (uniform_for_each_total
           (fun (_ : Z) t => only_iv m t /\ forall k, iv t k = iv m k)); [exact Hn| |].
  - split; [reflexivity|auto].
  - intros i t Hi (F & Hiv). unfold compress_item.
    assert (Hw : walk fuel (iv t) (iv t i) = Some (iv t i)).
    { destruct fuel as [|fuel]; [lia|]. simpl.
      rewrite (Hiv (iv t i)), (Hiv i), (Hflat i Hi), Z.eqb_refl. reflexivity. }
    rewrite Hw. eexists. split; [reflexivity|].
    split; [eapply only_iv_trans; [exact F|apply only_iv_set_iv]|].
    intros k. cbn [iv set_iv]. unfold upd.
    destruct (Z.eqb_spec k i) as [->|]; auto.
Qed.

(** ** Edges *)

Lemma gt_nan_r a b : Float32.is_nan b = true -> Float32.gt a b = false.
Proof. destruct b; try discriminate. reflexivity. Qed.

Lemma within_le a b eps :
  Float32.le a b = true -> Float32.gt b eps = false -> Float32.gt a eps = false.
Proof.
  intros Hab Hb. destruct (Float32.is_nan eps) eqn:E; [now apply gt_nan_r|].
  destruct (SFleb_not_nan _ _ Hab) as [Ha Hbn].
  apply le_not_gt. eapply le_trans; [exact Hab|]. now apply not_gt_le.
Qed.

(** The lambda of lines 202-212 run over any list of items, for an item
    [i] that is not a core item. *)
Lemma edge_loop_spec minT eps chi2max m i l :
  nn m i < minT ->
  is_finite (zt m i) = true ->
  (forall j, In j l -> is_finite (zt m j) = true) ->
  forall mdist m', fold_left (edge_loop minT chi2max i) l (eps, m) = (mdist, m') ->
  only_iv m m' /\ (forall k, k <> i -> iv m' k = iv m k) /\
  ((mdist = eps /\ iv m' i = iv m i /\
    forall j, In j l -> ~ edge_candidate minT eps chi2max m i j) \/
   (exists j, In j l /\ edge_candidate minT eps chi2max m i j /\
      mdist = dist m i j /\ iv m' i = iv m j /\
      forall j', In j' l -> edge_candidate minT eps chi2max m i j' ->
                 Float32.le (dist m i j) (dist m i j') = true)).
Proof.
  intros Hnc Hfi. induction l as [|x l IH] using rev_ind; intros Hl mdist m' Hfold.
  - simpl in Hfold. injection Hfold as <- <-.
    split; [reflexivity|]. split; [auto|]. left. repeat split; auto.
  - rewrite fold_left_app in Hfold. simpl in Hfold.
    destruct (fold_left (edge_loop minT chi2max i) l (eps, m)) as [md0 m0] eqn:E0.
    destruct (IH (fun j Hj => Hl j (in_or_app _ _ _ (or_introl Hj))) md0 m0 eq_refl)
      as (F & Hother & Hcase).
    assert (Hinx : In x (l ++ [x])) by (apply in_or_app; right; now left).
    pose proof (Hl x Hinx) as Hfx.
    pose proof (only_iv_proj _ _ F) as (_ & Ez & Ee & _ & Enn & _).
    pose proof (dist_not_nan m i x Hfi Hfx) as Hdx.
    assert (Hkeep :
              (md0 = eps -> ~ edge_candidate minT eps chi2max m i x) ->
              (forall j, md0 = dist m i j -> edge_candidate minT eps chi2max m i x ->
                         Float32.le (dist m i j) (dist m i x) = true) ->
              only_iv m m0 /\ (forall k, k <> i -> iv m0 k = iv m k) /\
              ((md0 = eps /\ iv m0 i = iv m i /\
                forall j, In j (l ++ [x]) -> ~ edge_candidate minT eps chi2max m i j) \/
               (exists j, In j (l ++ [x]) /\ edge_candidate minT eps chi2max m i j /\
                  md0 = dist m i j /\ iv m0 i = iv m j /\
                  forall j', In j' (l ++ [x]) -> edge_candidate minT eps chi2max m i j' ->
                             Float32.le (dist m i j) (dist m i j') = true))).
    { intros HA HB. split; [exact F|]. split; [exact Hother|].
      destruct Hcase as [(Emd & Eiv & Hno)|(j & Hin & Hc & Emd & Eiv & Hmin)].
      - left. split; [exact Emd|]. split; [exact Eiv|].
        intros j Hj. apply in_app_or in Hj. destruct Hj as [Hj|[<-|[]]].
        + now apply Hno.
        + now apply HA.
      - right. exists j. split; [apply in_or_app; now left|].
        split; [exact Hc|]. split; [exact Emd|]. split; [exact Eiv|].
        intros j' Hj' Hcj. apply in_app_or in Hj'. destruct Hj' as [Hj'|[<-|[]]].
        + now apply Hmin.
        + now apply HB. }
    unfold edge_loop in Hfold. rewrite Ez, Ee, Enn in Hfold.
    fold (dist m i x) in Hfold.
    destruct (Z.ltb_spec (nn m x) minT) as [Hncx|Hcx].
    { injection Hfold as <- <-. apply Hkeep.
      - intros _ (Hc & _). lia.
      - intros j _ (Hc & _). lia. }
    destruct (Float32.gt (dist m i x) md0) eqn:Hgt.
    { injection Hfold as <- <-. apply Hkeep.
      - intros -> (_ & Hc & _). congruence.
      - intros j -> _. apply lt_le. exact Hgt. }
    destruct (Float32.gt (Float32.mul (dist m i x) (dist m i x))
                (Float32.mul chi2max (Float32.add (ezt2 m i) (ezt2 m x)))) eqn:Hchi.
    { injection Hfold as <- <-. apply Hkeep.
      - intros _ (_ & _ & Hc). congruence.
      - intros j _ (_ & _ & Hc). congruence. }
    clear Hkeep. injection Hfold as <- <-.
    assert (Hxi : x <> i) by (intros ->; lia).
    split; [eapply only_iv_trans; [exact F|apply only_iv_set_iv]|].
    split.
    { intros k Hk. cbn [iv set_iv]. rewrite upd_other by auto. now apply Hother. }
    right. exists x. cbn [iv set_iv]. rewrite upd_same.
    split; [exact Hinx|].
    assert (Hwithin : Float32.gt (dist m i x) eps = false).
    { destruct Hcase as [(-> & _)|(j & Hin & (_ & Hw & _) & -> & _)]; [exact Hgt|].
      eapply within_le; [|exact Hw]. apply not_gt_le; auto.
      apply dist_not_nan; auto. apply Hl. apply in_or_app. now left. }
    split; [repeat split; auto|].
    split; [reflexivity|]. split; [now apply Hother|].
    intros j' Hj' Hcj. apply in_app_or in Hj'. destruct Hj' as [Hj'|[<-|[]]].
    + destruct Hcase as [(_ & _ & Hno)|(j & Hin & _ & -> & _ & Hmin)].
      * now destruct (Hno j' Hj').
      * eapply le_trans; [|apply (Hmin j' Hj' Hcj)]. apply not_gt_le; auto.
        apply dist_not_nan; auto. apply Hl. apply in_or_app. now left.
    + now apply le_refl.
Qed.

Lemma edge_item_spec minT eps chi2max hist m i :
  prepared m hist -> 0 <= i < ntrks m ->
  only_iv m (edge_item minT eps chi2max hist m i) /\
  (forall k, k <> i -> iv (edge_item minT eps chi2max hist m i) k = iv m k) /\
  (minT <= nn m i -> iv (edge_item minT eps chi2max hist m i) i = iv m i) /\
  (nn m i < minT ->
   edge_choice minT eps chi2max m i (Hist.query hist (izt m i) 1)
               (iv (edge_item minT eps chi2max hist m i) i)).
Proof.
  intros (Hn & Hfin & Hq) Hi. unfold edge_item, forEachInBins.
  destruct (Z.leb_spec minT (nn m i)) as [Hc|Hnc].
  { split; [reflexivity|]. split; [auto|]. split; [auto|]. lia. }
  destruct (fold_left (edge_loop minT chi2max i) (Hist.query hist (izt m i) 1) (eps, m))
    as [md m'] eqn:E.
  destruct (edge_loop_spec minT eps chi2max m i (Hist.query hist (izt m i) 1)
              Hnc (Hfin i Hi)) with (mdist := md) (m' := m')
    as (F & Hother & Hcase); [|exact E|].
  { intros j Hj. apply Hq in Hj; [|exact Hi]. destruct Hj as [Hj _]. auto. }
  cbn [snd]. split; [exact F|]. split; [exact Hother|]. split; [lia|].
  intros _. destruct Hcase as [(_ & Eiv & Hno)|(j & Hin & Hcand & _ & Eiv & Hmin)].
  - left. auto.
  - right. exists j. auto.
Qed.

Lemma edge_candidate_frame minT eps chi2max m m' i j :
  only_iv m m' ->
  edge_candidate minT eps chi2max m' i j <-> edge_candidate minT eps chi2max m i j.
Proof.
  intros F. apply only_iv_proj in F. destruct F as (_ & Ez & Ee & _ & En & _).
  unfold edge_candidate, dist. now rewrite Ez, Ee, En.
Qed.

Lemma collect_edges_spec minT eps chi2max hist m0 :
  prepared m0 hist ->
  edged minT eps chi2max hist m0 (collect_edges minT eps chi2max hist m0).
Proof.
  intros Hp. unfold collect_edges, edged.
  assert (Hn : 0 <= ntrks m0) by (destruct Hp as [? _]; lia).
  pose proof (uniform_loop_inv
    (fun i m =>
       only_iv m0 m /\
       (forall k, ~ 0 <= k < i -> iv m k = iv m0 k) /\
       (forall k, 0 <= k < i ->
          (minT <= nn m0 k -> iv m k = iv m0 k) /\
          (nn m0 k < minT ->
           edge_choice minT eps chi2max m0 k (Hist.query hist (izt m0 k) 1) (iv m k))))
    (edge_item minT eps chi2max hist) (ntrks m0) m0 Hn) as H.
  destruct H as (F & Hout & Hin).
  - split; [reflexivity|]. split; [auto|]. intros k Hk. lia.
  - intros i m Hi (F & Hout & Hin).
    pose proof (only_iv_proj _ _ F) as (En & Ez & Ee & Ei & Enn & _).
    assert (Hpm : prepared m hist) by (eapply prepared_only_iv; eauto).
    assert (Him : 0 <= i < ntrks m) by (rewrite En; exact Hi).
    assert (Hcore : forall j, minT <= nn m0 j -> iv m j = iv m0 j).
    { intros j Hj. destruct (Z.lt_ge_cases j 0) as [|H0]; [apply Hout; lia|].
      destruct (Z.lt_ge_cases j i) as [Hlt|]; [|apply Hout; lia].
      now apply Hin. }
    destruct (edge_item_spec minT eps chi2max hist m i Hpm Him) as (F' & Hother & Hc & Hnc).
    split; [eapply only_iv_trans; eauto|]. split.
    + intros k Hk. rewrite Hother by lia. apply Hout. lia.
    + intros k Hk. destruct (Z.eq_dec k i) as [->|Hne].
      * split.
        -- intros Hge. rewrite Hc by (now rewrite Enn). apply Hout. lia.
        -- intros Hlt. rewrite Enn in Hnc. specialize (Hnc Hlt). rewrite Ei in Hnc.
           destruct Hnc as [(Ep & Hno)|(j & Hj & Hcj & Ep & Hmin)].
           ++ left. split; [rewrite Ep; apply Hout; lia|].
              intros j Hj Hcj. apply (Hno j Hj). now apply (edge_candidate_frame _ _ _ m0 m).
           ++ right. exists j. split; [exact Hj|].
              apply (edge_candidate_frame _ _ _ m0 m) in Hcj; [|exact F].
              split; [exact Hcj|]. split.
              ** rewrite Ep. apply Hcore. now destruct Hcj.
              ** intros j' Hj' Hcj'. unfold dist in *. rewrite Ez in Hmin.
                 apply Hmin; [exact Hj'|].
                 apply (edge_candidate_frame _ _ _ m0 m); auto.
      * rewrite Hother by exact Hne. apply Hin. lia.
  - split; [exact F|]. split; [exact Hout|exact Hin].
Qed.

(** ** The forest is flat after consolidation and stays flat with the
    edges *)

Lemma compressed_flat minT m0 m :
  compressed_upto minT m0 (ntrks m0) m -> flat minT m.
Proof.
  intros (F & Hf & Hout & Hdone) k Hk.
  pose proof (only_iv_proj _ _ F) as (En & _).
  rewrite En in *. destruct (Hdone k Hk) as [Hr Hroot].
  split; [exact Hr|]. split; [exact Hroot|].
  rewrite <- En in Hk. destruct (Hf k Hk) as [E|(_ & _ & Hck & Hcp)].
  - split; [congruence|now rewrite E].
  - split; auto.
Qed.

Lemma flat_noncore_self minT m0 m k :
  compressed_upto minT m0 (ntrks m0) m -> 0 <= k < ntrks m -> nn m k < minT ->
  iv m k = k.
Proof.
  intros (_ & Hf & _) Hk Hnc. destruct (Hf k Hk) as [E|(_ & _ & Hck & _)]; [exact E|lia].
Qed.

Lemma edged_flat minT eps chi2max hist m0 m1 m :
  prepared m1 hist ->
  compressed_upto minT m0 (ntrks m0) m1 ->
  edged minT eps chi2max hist m1 m ->
  flat minT m.
Proof.
  intros Hp Hc (F & Hout & Hin) k Hk.
  pose proof (compressed_flat _ _ _ Hc) as Hfl.
  pose proof (only_iv_proj _ _ F) as (En & _ & _ & _ & Enn & _).
  rewrite En in *. rewrite Enn.
  assert (Hroot : forall r, 0 <= r < ntrks m1 -> iv m1 r = r -> minT <= nn m1 r -> iv m r = r).
  { intros r Hr Er Hcr. destruct (Hin r Hr) as [Hsame _]. rewrite Hsame; auto. }
  destruct (Hin k Hk) as [Hcore Hnc].
  destruct (Hfl k Hk) as (Hr & Hrt & Hne & Hcc).
  destruct (Z.lt_ge_cases (nn m1 k) minT) as [Hlt|Hge].
  - (* not a core item *)
    pose proof (flat_noncore_self _ _ _ k Hc Hk Hlt) as Eself.
    destruct (Hnc Hlt) as [(Ep & _)|(j & Hj & (Hcj & _) & Ep & _)].
    + rewrite Ep, Eself. split; [lia|]. split; [rewrite Ep; exact Eself|].
      split; [congruence|lia].
    + destruct Hp as (_ & _ & Hq). apply Hq in Hj; [|exact Hk]. destruct Hj as [Hj _].
      destruct (Hfl j Hj) as (Hrj & Hrtj & _ & Hccj).
      rewrite Ep. split; [exact Hrj|]. split; [apply Hroot; auto|]. split; auto.
  - rewrite (Hcore Hge). split; [exact Hr|].
    split; [apply Hroot; auto|]. split; auto.
Qed.

(** ** Relabelling *)

Lemma marked_mono minT m0 f f' k v : f <= f' -> marked minT m0 f k v -> marked minT m0 f' k v.
Proof.
  intros Hf [(E & Hc & id & Hid & Ev)|[H|H]].
  - left. split; [exact E|]. split; [exact Hc|]. exists id. split; [lia|exact Ev].
  - right. now left.
  - right. now right.
Qed.

Lemma mark_roots_spec minT m0 m f :
  0 <= ntrks m0 <= Hist.capacity ->
  mark_roots minT m0 = (m, f) ->
  only_iv m0 m /\ 0 <= f <= ntrks m0 /\
  (forall k, ~ 0 <= k < ntrks m0 -> iv m k = iv m0 k) /\
  (forall k, 0 <= k < ntrks m0 -> marked minT m0 f k (iv m k)).
Proof.
  intros Hn Hm. unfold mark_roots in Hm.
  pose proof (uniform_loop_inv
    (fun i (s : Memory * Z) =>
       only_iv m0 (fst s) /\ 0 <= snd s <= i /\
       (forall k, ~ 0 <= k < i -> iv (fst s) k = iv m0 k) /\
       (forall k, 0 <= k < i -> marked minT m0 (snd s) k (iv (fst s) k)))
    (mark_item minT) (ntrks m0) (m0, 0) (proj1 Hn)) as H.
  rewrite Hm in H. cbn [fst snd] in H. apply H; clear H Hm.
  - split; [reflexivity|]. split; [lia|]. split; [auto|]. intros k Hk. lia.
  - intros i [t g] Hi (F & Hg & Hout & Hin). cbn [fst snd] in *.
    pose proof (only_iv_proj _ _ F) as (_ & _ & _ & _ & Enn & _).
    unfold mark_item. rewrite Enn.
    rewrite (Hout i) by lia.
    rewrite to_int32_small by (unfold INT32_MIN, INT32_MAX, Hist.capacity in *; lia).
    destruct (Z.eqb_spec (iv m0 i) i) as [Eroot|Hnr].
    + destruct (Z.leb_spec minT (nn m0 i)) as [Hc|Hnc].
      * unfold atomicInc.
        destruct (Z.leb_spec 4294967295 g) as [Hbig|_];
          [unfold Hist.capacity in Hn; lia|].
        cbn [fst snd].
        rewrite to_uint32_neg by (unfold Hist.capacity in Hn; lia).
        split; [eapply only_iv_trans; [exact F|apply only_iv_set_iv]|].
        split; [lia|]. split.
        -- intros k Hk. cbn [iv set_iv]. rewrite upd_other by lia. apply Hout. lia.
        -- intros k Hk. cbn [iv set_iv]. destruct (Z.eq_dec k i) as [->|Hne].
           ++ rewrite upd_same. left. split; [exact Eroot|]. split; [exact Hc|].
              exists g. split; [lia|reflexivity].
           ++ rewrite upd_other by exact Hne. apply marked_mono with (f := g); [lia|].
              apply Hin. lia.
      * cbn [fst snd].
        split; [eapply only_iv_trans; [exact F|apply only_iv_set_iv]|].
        split; [lia|]. split.
        -- intros k Hk. cbn [iv set_iv]. rewrite upd_other by lia. apply Hout. lia.
        -- intros k Hk. cbn [iv set_iv]. destruct (Z.eq_dec k i) as [->|Hne].
           ++ rewrite upd_same. right. left. auto.
           ++ rewrite upd_other by exact Hne. apply Hin. lia.
    + cbn [fst snd]. split; [exact F|]. split; [lia|]. split.
      * intros k Hk. apply Hout. lia.
      * intros k Hk. destruct (Z.eq_dec k i) as [->|Hne].
        -- right. right. split; [exact Hnr|]. apply Hout. lia.
        -- apply Hin. lia.
Qed.

Lemma propagate_spec minT m0 m f :
  0 <= ntrks m0 ->
  flat minT m0 ->
  only_iv m0 m ->
  (forall k, 0 <= k < ntrks m0 -> marked minT m0 f k (iv m k)) ->
  only_iv m (propagate m) /\
  (forall k, ~ 0 <= k < ntrks m -> iv (propagate m) k = iv m k) /\
  coded minT (propagate m) f.
Proof.
  intros Hn Hfl F Hmk.
  pose proof (only_iv_proj _ _ F) as (En & _ & _ & _ & Enn & _).
  unfold propagate, coded.
  assert (Hnm : 0 <= ntrks m) by lia.
  pose proof (uniform_loop_inv
    (fun i t =>
       only_iv m t /\
       (forall k, ~ 0 <= k < i -> iv t k = iv m k) /\
       (forall k, iv m k < 0 -> iv t k = iv m k) /\
       (forall k, 0 <= k < i ->
          (exists id, 0 <= id < f /\ iv t k = - (id + 1)) \/
          (nn m k < minT /\ iv t k = -9998)))
    propagate_item (ntrks m) m Hnm) as H.
  destruct H as (F' & Hout & _ & Hin).
  - split; [reflexivity|]. split; [auto|]. split; [auto|]. intros k Hk. lia.
  - intros i t Hi (Ft & Hout & Hneg & Hin).
    assert (Hi0 : 0 <= i < ntrks m0) by lia.
    unfold propagate_item. rewrite (Hout i) by lia.
    destruct (Z.leb_spec 0 (iv m i)) as [Hpos|Hlt].
    + (* a pointer to a marked root *)
      destruct (Hmk i Hi0) as [(_ & _ & id & Hid & Ev)|[(_ & _ & Ev)|(Hnr & Ev)]];
        [lia|lia|].
      destruct (Hfl i Hi0) as (Hr & Hroot & Hcr & _).
      destruct (Hmk (iv m0 i) Hr) as [(_ & _ & id & Hid & Er)|[(_ & Hnc & _)|(Hnr' & _)]];
        [|specialize (Hcr Hnr); lia|congruence].
      assert (Eread : iv t (iv m i) = - (id + 1)).
      { rewrite Hneg; rewrite Ev, Er; [reflexivity|lia]. }
      rewrite Eread.
      split; [eapply only_iv_trans; [exact Ft|apply only_iv_set_iv]|].
      split.
      { intros k Hk. cbn [iv set_iv]. rewrite upd_other by lia. apply Hout. lia. }
      split.
      { intros k Hk. cbn [iv set_iv].
        destruct (Z.eq_dec k i) as [->|Hne]; [lia|].
        rewrite upd_other by exact Hne. now apply Hneg. }
      intros k Hk. cbn [iv set_iv]. destruct (Z.eq_dec k i) as [->|Hne].
      * rewrite upd_same. left. eauto.
      * rewrite upd_other by exact Hne. apply Hin. lia.
    + split; [exact Ft|]. split; [intros k Hk; apply Hout; lia|].
      split; [exact Hneg|].
      intros k Hk. destruct (Z.eq_dec k i) as [->|Hne]; [|apply Hin; lia].
      rewrite (Hneg i Hlt).
      destruct (Hmk i Hi0) as [(_ & _ & id & Hid & Ev)|[(_ & Hnc & Ev)|(Hnr & Ev)]].
      * left. eauto.
      * right. rewrite Enn. auto.
      * destruct (Hfl i Hi0) as (Hr & _). lia.
  - split; [exact F'|]. split; [exact Hout|].
    pose proof (only_iv_proj _ _ F') as (En' & _ & _ & _ & Enn' & _).
    rewrite En', Enn'. exact Hin.
Qed.

Lemma adjust_spec minT m f :
  0 <= ntrks m -> 0 <= f <= Hist.capacity ->
  coded minT m f ->
  only_iv m (adjust m) /\
  (forall k, ~ 0 <= k < ntrks m -> iv (adjust m) k = iv m k) /\
  labelled minT (adjust m) f.
Proof.
  intros Hn Hf Hc. unfold adjust, labelled.
  pose proof (uniform_loop_inv
    (fun i t =>
       only_iv m t /\
       (forall k, ~ 0 <= k < i -> iv t k = iv m k) /\
       (forall k, 0 <= k < i ->
          (0 <= iv t k < f) \/ (nn m k < minT /\ iv t k = 9997)))
    adjust_item (ntrks m) m Hn) as H.
  destruct H as (F' & Hout & Hin).
  - split; [reflexivity|]. split; [auto|]. intros k Hk. lia.
  - intros i t Hi (Ft & Hout & Hin). unfold adjust_item. rewrite (Hout i) by lia.
    split; [eapply only_iv_trans; [exact Ft|apply only_iv_set_iv]|].
    split.
    { intros k Hk. cbn [iv set_iv]. rewrite upd_other by lia. apply Hout. lia. }
    intros k Hk. cbn [iv set_iv]. destruct (Z.eq_dec k i) as [->|Hne].
    + rewrite upd_same.
      destruct (Hc i Hi) as [(id & Hid & ->)|(Hnc & ->)].
      * left. rewrite to_int32_small;
          unfold INT32_MIN, INT32_MAX, Hist.capacity in *; lia.
      * right. split; [exact Hnc|]. reflexivity.
    + rewrite upd_other by exact Hne. apply Hin. lia.
  - split; [exact F'|]. split; [exact Hout|].
    pose proof (only_iv_proj _ _ F') as (En' & _ & _ & _ & Enn' & _).
    rewrite En', Enn'. exact Hin.
Qed.

(** ** What every phase leaves alone, whatever the state *)

Lemma only_iv_inputs m m' : only_iv m m' -> inputs m' = inputs m.
Proof.
  intros F. apply only_iv_proj in F. destruct F as (E1 & E2 & E3 & _).
  unfold inputs. now rewrite E1, E2, E3.
Qed.

Lemma only_nn_inputs m m' : only_nn m m' -> inputs m' = inputs m.
Proof.
  intros F. apply only_nn_proj in F. destruct F as (E1 & E2 & E3 & _).
  unfold inputs. now rewrite E1, E2, E3.
Qed.

Lemma fold_left_snd_preserves {A B C : Type} (P : B -> Prop) (f : A * B -> C -> A * B) l s :
  P (snd s) -> (forall x y, P (snd x) -> P (snd (f x y))) -> P (snd (fold_left f l s)).
Proof. intros H0 Hf. apply (fold_left_preserves (fun x => P (snd x))); auto. Qed.

Lemma seed_loop_only_iv minT eps i s j : only_iv (snd s) (snd (seed_loop minT eps i s j)).
Proof.
  destruct s as [mz m]. unfold seed_loop.
  destruct (Float32.ge _ _); [reflexivity|]. destruct (_ <? _); [reflexivity|].
  destruct (Float32.gt _ _); reflexivity.
Qed.

Lemma seed_only_iv minT eps hist m : only_iv m (seed minT eps hist m).
Proof.
  unfold seed. apply (fold_left_preserves (only_iv m)); [reflexivity|].
  intros x i Hx. eapply only_iv_trans; [exact Hx|].
  unfold seed_item, forEachInBins. destruct (_ <? _); [reflexivity|].
  apply (fold_left_snd_preserves (only_iv x)); [reflexivity|].
  intros s j Hs. eapply only_iv_trans; [exact Hs|apply seed_loop_only_iv].
Qed.

Lemma edge_loop_only_iv minT chi2max i s j :
  only_iv (snd s) (snd (edge_loop minT chi2max i s j)).
Proof.
  destruct s as [md m]. unfold edge_loop.
  destruct (_ <? _); [reflexivity|]. destruct (Float32.gt _ _); [reflexivity|].
  destruct (Float32.gt _ _); reflexivity.
Qed.

Lemma collect_edges_only_iv minT eps chi2max hist m :
  only_iv m (collect_edges minT eps chi2max hist m).
Proof.
  unfold collect_edges. apply (fold_left_preserves (only_iv m)); [reflexivity|].
  intros x i Hx. eapply only_iv_trans; [exact Hx|].
  unfold edge_item, forEachInBins. destruct (_ <=? _); [reflexivity|].
  apply (fold_left_snd_preserves (only_iv x)); [reflexivity|].
  intros s j Hs. eapply only_iv_trans; [exact Hs|apply edge_loop_only_iv].
Qed.

Lemma mark_roots_only_iv minT m : only_iv m (fst (mark_roots minT m)).
Proof.
  unfold mark_roots.
  apply (fold_left_preserves (fun s : Memory * Z => only_iv m (fst s))); [reflexivity|].
  intros [x f] i Hx. cbn [fst] in Hx. eapply only_iv_trans; [exact Hx|].
  unfold mark_item. destruct (_ =? _); [|reflexivity].
  destruct (_ <=? _); reflexivity.
Qed.

Lemma propagate_only_iv m : only_iv m (propagate m).
Proof.
  unfold propagate. apply (fold_left_preserves (only_iv m)); [reflexivity|].
  intros x i Hx. eapply only_iv_trans; [exact Hx|].
  unfold propagate_item. destruct (_ <=? _); reflexivity.
Qed.

Lemma adjust_only_iv m : only_iv m (adjust m).
Proof.
  unfold adjust. apply (fold_left_preserves (only_iv m)); [reflexivity|].
  intros x i Hx. eapply only_iv_trans; [exact Hx|reflexivity].
Qed.

(** Rules for a loop that may stop: what holds when it completes, and what
    holds of the memory it stops with. *)
Lemma for_each_inv {St : Type} (Inv : St -> Prop) (body : St -> Z -> result St) l s s' :
  Inv s ->
  (forall t i t', Inv t -> body t i = Ok t' -> Inv t') ->
  for_each body l s = Ok s' -> Inv s'.
Proof.
  intros H0 Hstep. revert s H0. induction l as [|i l IH]; intros s H0 H; simpl in H.
  - injection H as <-. exact H0.
  - destruct (body s i) as [t| | |] eqn:E; simpl in H; try discriminate.
    eapply IH; [|exact H]. eapply Hstep; eauto.
Qed.

Lemma for_each_fail {St : Type} (Inv : St -> Prop) (P : Assertion -> Memory -> Prop)
  (body : St -> Z -> result St) l s a x :
  Inv s ->
  (forall t i t', Inv t -> body t i = Ok t' -> Inv t') ->
  (forall t i a x, Inv t -> body t i = AssertFailed a x -> P a x) ->
  for_each body l s = AssertFailed a x -> P a x.
Proof.
  intros H0 Hstep Hfail. revert s H0. induction l as [|i l IH]; intros s H0 H; simpl in H.
  - discriminate.
  - destruct (body s i) as [t| | |] eqn:E; simpl in H; try discriminate.
    + eapply IH; [|exact H]. eapply Hstep; eauto.
    + injection H as <- <-. eapply Hfail; eauto.
Qed.

Lemma fill_hist_item_inputs zv m0 t i t' :
  inputs (fst t) = inputs m0 -> fill_hist_item zv t i = Ok t' ->
  inputs (fst t') = inputs m0.
Proof.
  destruct t as [m h]. cbn [fst]. intros H Ht. unfold fill_hist_item in Ht.
  destruct (negb (i <? MAXTRACKS zv)); [discriminate|].
  destruct (quantize (zt m i)); [|discriminate].
  destruct (negb _); [discriminate|]. injection Ht as <-. exact H.
Qed.

Lemma fill_hist_item_fail zv m0 t i a x :
  inputs (fst t) = inputs m0 -> fill_hist_item zv t i = AssertFailed a x ->
  inputs x = inputs m0 /\ (a = MaxTracksAssert \/ a = KeyRangeAssert).
Proof.
  destruct t as [m h]. cbn [fst]. intros H Ht. unfold fill_hist_item in Ht.
  destruct (negb (i <? MAXTRACKS zv)); [injection Ht as <- <-; auto|].
  destruct (quantize (zt m i)); [|discriminate].
  destruct (negb _); [|discriminate]. injection Ht as <- <-. auto.
Qed.

Lemma compress_item_only_iv fuel m i m' : compress_item fuel m i = Ok m' -> only_iv m m'.
Proof.
  unfold compress_item. destruct (walk _ _ _); [|discriminate].
  intros H. injection H as <-. reflexivity.
Qed.

Lemma compress_only_iv fuel m m' : compress fuel m = Ok m' -> only_iv m m'.
Proof.
  unfold compress. apply (for_each_inv (only_iv m)); [reflexivity|].
  intros t i t' Ht Hb. eapply only_iv_trans; [exact Ht|]. eapply compress_item_only_iv; eauto.
Qed.

Lemma compress_no_assert fuel m a x : compress fuel m <> AssertFailed a x.
Proof.
  unfold compress. intros H.
  apply (for_each_fail (fun _ => True) (fun _ _ => False)) in H; auto.
  intros t i a' x' _ Hb. unfold compress_item in Hb.
  destruct (walk _ _ _); discriminate.
Qed.

(** ** The kernel as a chain of phases *)

Lemma cluster_inv zv minT eps errmax chi2max fuel m0 m' :
  clusterTracksDBSCAN zv minT eps errmax chi2max fuel m0 = Ok m' ->
  exists m1 hist m4 m6 f,
    build_index zv m0 = Ok (m1, hist) /\
    compress fuel (seed minT eps hist
                     (count_neighbours eps hist (Float32.mul errmax errmax) m1)) = Ok m4 /\
    mark_roots minT (collect_edges minT eps chi2max hist m4) = (m6, f) /\
    f < MAXVTX zv /\
    m' = set_nv (adjust (propagate m6)) f.
Proof.
  intros H. unfold clusterTracksDBSCAN in H.
  apply bind_Ok_inv in H. destruct H as ([m1 hist] & Hb & H).
  apply bind_Ok_inv in H. destruct H as (m5 & Hl & H).
  unfold link in Hl. cbn [fst snd] in Hl.
  apply bind_Ok_inv in Hl. destruct Hl as (m4 & Hc & Hl). injection Hl as <-.
  unfold relabel in H.
  destruct (mark_roots minT (collect_edges minT eps chi2max hist m4)) as [m6 f] eqn:Hm.
  apply assert_Ok_inv in H. destruct H as [Hf H]. injection H as <-.
  apply Z.ltb_lt in Hf.
  exists m1, hist, m4, m6, f. auto.
Qed.

(** The invariants the phases establish in turn. *)
Lemma link_structure zv minT eps errmax chi2max fuel m0 m1 hist m4 :
  0 <= ntrks m0 <= INT32_MAX ->
  build_index zv m0 = Ok (m1, hist) ->
  compress fuel (seed minT eps hist
                   (count_neighbours eps hist (Float32.mul errmax errmax) m1)) = Ok m4 ->
  let m2 := count_neighbours eps hist (Float32.mul errmax errmax) m1 in
  let m3 := seed minT eps hist m2 in
  let m5 := collect_edges minT eps chi2max hist m4 in
  prepared m2 hist /\ seeded minT eps hist m2 m3 /\ forest minT m3 /\
  compressed_upto minT m3 (ntrks m3) m4 /\ prepared m4 hist /\
  edged minT eps chi2max hist m4 m5 /\ flat minT m5 /\
  only_iv m2 m5 /\ ntrks m2 = ntrks m0.
Proof.
  intros Hn Hb Hc m2 m3 m5.
  destruct (build_index_spec zv m0 m1 hist Hn Hb) as ((En1 & _) & Hlo & _ & Hp1).
  pose proof (count_neighbours_only_nn eps hist (Float32.mul errmax errmax) m1) as F2.
  fold m2 in F2.
  pose proof (only_nn_proj _ _ F2) as (En2 & _ & _ & _ & Eiv2 & _).
  assert (Hp2 : prepared m2 hist) by (eapply prepared_only_nn; eauto).
  assert (Hself : forall k, 0 <= k < ntrks m2 -> iv m2 k = k).
  { intros k Hk. rewrite Eiv2. apply Hlo. lia. }
  pose proof (seed_spec minT eps hist m2 Hp2 Hself) as Hs. fold m3 in Hs.
  pose proof (seeded_forest _ _ _ _ _ Hp2 Hs) as Hf.
  pose proof (seed_only_iv minT eps hist m2) as F3. fold m3 in F3.
  assert (Hp3 : prepared m3 hist) by (eapply prepared_only_iv; eauto).
  assert (Hn3 : 0 <= ntrks m3) by (destruct Hp3 as [? _]; lia).
  pose proof (compress_sound minT fuel m3 m4 Hn3 Hf Hc) as Hcu.
  pose proof (compress_only_iv _ _ _ Hc) as F4.
  assert (Hp4 : prepared m4 hist) by (eapply prepared_only_iv; eauto).
  pose proof (collect_edges_spec minT eps chi2max hist m4 Hp4) as He. fold m5 in He.
  pose proof (edged_flat _ _ _ _ _ _ _ Hp4 Hcu He) as Hfl.
  pose proof (collect_edges_only_iv minT eps chi2max hist m4) as F5. fold m5 in F5.
  split; [exact Hp2|]. split; [exact Hs|]. split; [exact Hf|].
  split; [exact Hcu|]. split; [exact Hp4|]. split; [exact He|]. split; [exact Hfl|].
  split; [|lia].
  eapply only_iv_trans; [exact F3|]. eapply only_iv_trans; [exact F4|exact F5].
Qed.

Lemma relabel_structure minT m5 m6 f :
  0 <= ntrks m5 <= Hist.capacity ->
  flat minT m5 ->
  mark_roots minT m5 = (m6, f) ->
  let m' := set_nv (adjust (propagate m6)) f in
  only_iv m5 (adjust (propagate m6)) /\ 0 <= f <= ntrks m5 /\
  labelled minT m' f /\ nvFinal m' = f /\ nvIntermediate m' = f.
Proof.
  intros Hn Hfl Hm m'.
  destruct (mark_roots_spec minT m5 m6 f Hn Hm) as (F6 & Hf & _ & Hmk).
  destruct (propagate_spec minT m5 m6 f (proj1 Hn) Hfl F6 Hmk) as (F7 & _ & Hcd).
  pose proof (only_iv_proj _ _ F6) as (En6 & _).
  pose proof (only_iv_proj _ _ F7) as (En7 & _).
  assert (Hn7 : 0 <= ntrks (propagate m6)) by lia.
  assert (Hfc : 0 <= f <= Hist.capacity) by lia.
  destruct (adjust_spec minT (propagate m6) f Hn7 Hfc Hcd) as (F8 & _ & Hlab).
  split; [eapply only_iv_trans; [exact F6|]; eapply only_iv_trans; eauto|].
  split; [exact Hf|]. split; [exact Hlab|]. split; reflexivity.
Qed.

Lemma cluster_structure zv minT eps errmax chi2max fuel m0 m' :
  0 <= ntrks m0 <= INT32_MAX ->
  clusterTracksDBSCAN zv minT eps errmax chi2max fuel m0 = Ok m' ->
  exists m1 hist,
    build_index zv m0 = Ok (m1, hist) /\
    ntrks m' = ntrks m0 /\
    nn m' = nn (count_neighbours eps hist (Float32.mul errmax errmax) m1) /\
    labelled minT m' (nvFinal m') /\
    0 <= nvFinal m' < MAXVTX zv /\ nvFinal m' <= ntrks m0 /\
    nvIntermediate m' = nvFinal m'.
Proof.
  intros Hn H. apply cluster_inv in H.
  destruct H as (m1 & hist & m4 & m6 & f & Hb & Hc & Hm & Hf & ->).
  exists m1, hist. split; [exact Hb|].
  destruct (link_structure zv minT eps errmax chi2max fuel m0 m1 hist m4 Hn Hb Hc)
    as (Hp2 & _ & _ & _ & _ & _ & Hfl & F5 & En2).
  pose proof (only_iv_proj _ _ F5) as (En5 & _ & _ & _ & Enn5 & _).
  assert (Hn5 : 0 <= ntrks (collect_edges minT eps chi2max hist m4) <= Hist.capacity).
  { rewrite En5. destruct Hp2 as [? _]. lia. }
  destruct (relabel_structure minT _ m6 f Hn5 Hfl Hm) as (F8 & Hfr & Hlab & Ef & Ei).
  pose proof (only_iv_proj _ _ F8) as (En8 & _ & _ & _ & Enn8 & _).
  cbn [ntrks nn nvFinal nvIntermediate set_nv].
  split; [congruence|]. split; [congruence|].
  split; [exact Hlab|]. split; [lia|]. split; [lia|reflexivity].
Qed.

(** ** Which runs complete, and which assertion stops the others *)


Lemma build_index_intro zv m0 m h :
  to_int32 (ntrks m0) <= Hist.capacity ->
  fill_hist zv m0 Hist.zero = Ok (m, h) ->
  Hist.size (Hist.finalize h) = ntrks m ->
  build_index zv m0 = Ok (m, fill_slots m (Hist.finalize h)).
Proof.
  intros Hc Hf Hs. unfold build_index.
  rewrite assert_pass by (now apply Z.leb_le).
  rewrite Hf. unfold bind.
  rewrite assert_pass by (now apply Z.eqb_eq).
  reflexivity.
Qed.


(** The capacity assertion is the only one that can fail with that tag. *)
Lemma build_index_fail zv m0 a x :
  build_index zv m0 = AssertFailed a x ->
  inputs x = inputs m0 /\
  (a = CapacityAssert -> x = m0 /\ Hist.capacity < to_int32 (ntrks m0)).
Proof.
  unfold build_index. intros H.
  apply assert_fail_inv in H. destruct H as [(Hc & -> & ->)|(Hc & H)].
  { apply Z.leb_gt in Hc. split; [reflexivity|]. intros _. split; [reflexivity|exact Hc]. }
  apply bind_fail_inv in H. destruct H as [Hf|([m h] & Hf & H)].
  - unfold fill_hist in Hf.
    apply (for_each_fail (fun t => inputs (fst t) = inputs m0)
             (fun a x => inputs x = inputs m0 /\
                         (a = MaxTracksAssert \/ a = KeyRangeAssert))) in Hf; auto.
    * destruct Hf as [Hi [->| ->]]; split; auto; discriminate.
    * intros t i t'. apply fill_hist_item_inputs.
    * intros t i b y. apply fill_hist_item_fail.
  - assert (Hi : inputs m = inputs m0).
    { unfold fill_hist in Hf.
      apply (for_each_inv (fun t => inputs (fst t) = inputs m0)) in Hf; auto.
      intros t i t'. apply fill_hist_item_inputs. }
    apply assert_fail_inv in H. destruct H as [(_ & -> & ->)|(_ & H)]; [|discriminate].
    split; [exact Hi|discriminate].
Qed.

Lemma cluster_fail zv minT eps errmax chi2max fuel m0 a x :
  clusterTracksDBSCAN zv minT eps errmax chi2max fuel m0 = AssertFailed a x ->
  inputs x = inputs m0 /\
  (a = CapacityAssert -> x = m0 /\ Hist.capacity < to_int32 (ntrks m0)).
Proof.
  unfold clusterTracksDBSCAN. intros H.
  apply bind_fail_inv in H. destruct H as [Hb|([m1 hist] & Hb & H)].
  { eapply build_index_fail; eauto. }
  assert (Hi1 : inputs m1 = inputs m0).
  { apply build_index_inv in Hb. destruct Hb as (_ & h & Hf & _ & _).
    unfold fill_hist in Hf.
    apply (for_each_inv (fun t => inputs (fst t) = inputs m0)) in Hf; auto.
    intros t i t'. apply fill_hist_item_inputs. }
  cbn [fst snd] in H.
  apply bind_fail_inv in H. destruct H as [Hl|(m5 & Hl & H)].
  { unfold link in Hl. apply bind_fail_inv in Hl.
    destruct Hl as [Hc|(m4 & _ & Hl)]; [|discriminate].
    now destruct (compress_no_assert _ _ _ _ Hc). }
  unfold link in Hl. apply bind_Ok_inv in Hl. destruct Hl as (m4 & Hc & Hl).
  injection Hl as <-.
  unfold relabel in H.
  destruct (mark_roots minT (collect_edges minT eps chi2max hist m4)) as [m6 f] eqn:Hm.
  apply assert_fail_inv in H. destruct H as [(_ & -> & ->)|(_ & H)]; [|discriminate].
  split; [|discriminate].
  pose proof (mark_roots_only_iv minT (collect_edges minT eps chi2max hist m4)) as F6.
  rewrite Hm in F6. cbn [fst] in F6.
  rewrite (only_iv_inputs _ _ F6).
  rewrite (only_iv_inputs _ _ (collect_edges_only_iv _ _ _ _ _)).
  rewrite (only_iv_inputs _ _ (compress_only_iv _ _ _ Hc)).
  rewrite (only_iv_inputs _ _ (seed_only_iv _ _ _ _)).
  rewrite (only_nn_inputs _ _ (count_neighbours_only_nn _ _ _ _)).
  exact Hi1.
Qed.

Lemma cluster_intro zv minT eps errmax chi2max fuel m0 m1 hist m4 m6 f :
  build_index zv m0 = Ok (m1, hist) ->
  compress fuel (seed minT eps hist
                   (count_neighbours eps hist (Float32.mul errmax errmax) m1)) = Ok m4 ->
  mark_roots minT (collect_edges minT eps chi2max hist m4) = (m6, f) ->
  clusterTracksDBSCAN zv minT eps errmax chi2max fuel m0 =
  if negb (f <? MAXVTX zv) then AssertFailed MaxVtxAssert m6
  else Ok (set_nv (adjust (propagate m6)) f).
Proof.
  intros Hb Hc Hm.
  unfold clusterTracksDBSCAN. rewrite Hb. cbn [bind fst snd].
  unfold link. rewrite Hc. cbn [bind].
  unfold relabel. rewrite Hm. reflexivity.
Qed.


(** ** More fuel and larger limits change nothing in a run that
    completes *)

Lemma for_each_mono {St : Type} (body body' : St -> Z -> result St) l s s' :
  (forall t i t', body t i = Ok t' -> body' t i = Ok t') ->
  for_each body l s = Ok s' -> for_each body' l s = Ok s'.
Proof.
  intros Hb. revert s. induction l as [|i l IH]; intros s H; simpl in *; [exact H|].
  destruct (body s i) as [t| | |] eqn:E; simpl in H; try discriminate.
  rewrite (Hb _ _ _ E). simpl. now apply IH.
Qed.

Lemma walk_mono fuel fuel' a p r :
  (fuel <= fuel')%nat -> walk fuel a p = Some r -> walk fuel' a p = Some r.
Proof.
  revert fuel' p. induction fuel as [|fuel IH]; intros fuel' p Hle H; [discriminate|].
  destruct fuel' as [|fuel']; [lia|]. simpl in *.
  destruct (negb (p =? a p)); [|exact H]. apply IH; [lia|exact H].
Qed.

Lemma compress_mono fuel fuel' m m' :
  (fuel <= fuel')%nat -> compress fuel m = Ok m' -> compress fuel' m = Ok m'.
Proof.
  intros Hle. unfold compress. apply for_each_mono.
  intros t i t'. unfold compress_item.
  destruct (walk fuel (iv t) (iv t i)) as [r|] eqn:E; [|discriminate].
  now rewrite (walk_mono _ _ _ _ _ Hle E).
Qed.

Lemma fill_hist_mono zv zv' m s :
  MAXTRACKS zv <= MAXTRACKS zv' ->
  fill_hist zv m Hist.zero = Ok s -> fill_hist zv' m Hist.zero = Ok s.
Proof.
  intros Hle. unfold fill_hist. apply for_each_mono.
  intros [t h] i t'. unfold fill_hist_item.
  destruct (Z.ltb_spec i (MAXTRACKS zv)) as [Hi|]; cbn [negb]; [|discriminate].
  destruct (Z.ltb_spec i (MAXTRACKS zv')) as [_|]; [|lia]. cbn [negb]. auto.
Qed.

Lemma cluster_mono zv zv' minT eps errmax chi2max fuel fuel' m m' :
  MAXTRACKS zv <= MAXTRACKS zv' -> MAXVTX zv <= MAXVTX zv' -> (fuel <= fuel')%nat ->
  clusterTracksDBSCAN zv minT eps errmax chi2max fuel m = Ok m' ->
  clusterTracksDBSCAN zv' minT eps errmax chi2max fuel' m = Ok m'.
Proof.
  intros Ht Hv Hf H. apply cluster_inv in H.
  destruct H as (m1 & hist & m4 & m6 & f & Hb & Hc & Hm & Hlt & ->).
  apply build_index_inv in Hb. destruct Hb as (Hcap & h & Hfh & Hs & ->).
  pose proof (build_index_intro zv' m m1 h Hcap (fill_hist_mono _ _ _ _ Ht Hfh) Hs) as Hb'.
  rewrite (cluster_intro zv' minT eps errmax chi2max fuel' m m1 _ m4 m6 f Hb'
             (compress_mono _ _ _ _ Hf Hc) Hm).
  destruct (Z.ltb_spec f (MAXVTX zv')); [reflexivity|lia].
Qed.

(** * The claims *)

Import Examples.

(** C1. After the kernel returns, every item below the item count carries
    either a dense cluster id in [0, clusterCount) or the noise value 9997
    (which is -(-9998) - 1), and the cluster count written to [nvFinal]
    lies in [0, MAXVTX). *)
Theorem final_labels_in_range zv minT eps errmax chi2max fuel m m' :
  0 <= ntrks m <= INT32_MAX ->
  clusterTracksDBSCAN zv minT eps errmax chi2max fuel m = Ok m' ->
  (forall i, 0 <= i < ntrks m -> 0 <= iv m' i < nvFinal m' \/ iv m' i = 9997) /\
  0 <= nvFinal m' < MAXVTX zv /\ nvIntermediate m' = nvFinal m'.
Proof.
  intros Hn H.
  destruct (cluster_structure _ _ _ _ _ _ _ _ Hn H)
    as (m1 & hist & _ & En & _ & Hlab & Hf & _ & Ei).
  split; [|auto].
  intros i Hi. rewrite <- En in Hi.
  destruct (Hlab i Hi) as [Hid|[_ Hnoise]]; auto.
Qed.

Lemma final_labels_in_range_witness :
  exists m',
    clusterTracksDBSCAN zv 2 f_0_05 f_1 f_9 5 scenario5 = Ok m' /\
    (forall i, 0 <= i < 5 -> 0 <= iv m' i < nvFinal m' \/ iv m' i = 9997) /\
    0 <= nvFinal m' < 1024 /\ nvIntermediate m' = nvFinal m'.
Proof.
  destruct (clusterTracksDBSCAN zv 2 f_0_05 f_1 f_9 5 scenario5) as [m'| | |] eqn:H;
    try (vm_compute in H; discriminate).
  exists m'. split; [reflexivity|].
  apply (final_labels_in_range zv 2 f_0_05 f_1 f_9 5 scenario5 m'); [|exact H].
  vm_compute. split; discriminate.
Defined.

(** C2. An item whose neighbour count, as the counting phase leaves it,
    reaches [minT] ends with a cluster id in [0, clusterCount) and never
    with the noise value.  The neighbour counts are not written after the
    counting phase; the noise value 9997 is not an id as long as [MAXVTX]
    does not exceed 9998. *)
Theorem core_items_get_cluster zv minT eps errmax chi2max fuel m m' :
  0 <= ntrks m <= INT32_MAX ->
  MAXVTX zv <= 9998 ->
  clusterTracksDBSCAN zv minT eps errmax chi2max fuel m = Ok m' ->
  exists m1 hist,
    build_index zv m = Ok (m1, hist) /\
    nn m' = nn (count_neighbours eps hist (Float32.mul errmax errmax) m1) /\
    forall i, 0 <= i < ntrks m -> minT <= nn m' i ->
              0 <= iv m' i < nvFinal m' /\ iv m' i <> 9997.
Proof.
  intros Hn Hv H.
  destruct (cluster_structure _ _ _ _ _ _ _ _ Hn H)
    as (m1 & hist & Hb & En & Enn & Hlab & Hf & _ & Ei).
  exists m1, hist. split; [exact Hb|]. split; [exact Enn|].
  intros i Hi Hc. rewrite <- En in Hi.
  destruct (Hlab i Hi) as [Hid|[Hnc _]]; [|lia].
  split; [exact Hid|lia].
Qed.

Lemma core_items_get_cluster_witness :
  exists m' m1 hist,
    clusterTracksDBSCAN zv 2 f_0_05 f_1 f_9 5 scenario5 = Ok m' /\
    build_index zv scenario5 = Ok (m1, hist) /\
    nn m' = nn (count_neighbours f_0_05 hist (Float32.mul f_1 f_1) m1) /\
    forall i, 0 <= i < 5 -> 2 <= nn m' i -> 0 <= iv m' i < nvFinal m' /\ iv m' i <> 9997.
Proof.
  destruct (clusterTracksDBSCAN zv 2 f_0_05 f_1 f_9 5 scenario5) as [m'| | |] eqn:H;
    try (vm_compute in H; discriminate).
  destruct (core_items_get_cluster zv 2 f_0_05 f_1 f_9 5 scenario5 m') as (m1 & hist & R);
    [vm_compute; split; discriminate|vm_compute; discriminate|exact H|].
  exists m', m1, hist. split; [reflexivity|exact R].
Defined.

(** C10. The kernel never writes the positions [zt], the variances
    [ezt2] or the item count: whether the run completes or stops at an
    assertion, the memory it leaves holds them as they were. *)
Theorem inputs_unchanged zv minT eps errmax chi2max fuel m :
  match clusterTracksDBSCAN zv minT eps errmax chi2max fuel m with
  | Ok m' | AssertFailed _ m' => ntrks m' = ntrks m /\ zt m' = zt m /\ ezt2 m' = ezt2 m
  | Undefined | OutOfFuel => True
  end.
Proof.
  destruct (clusterTracksDBSCAN zv minT eps errmax chi2max fuel m) as [m'|a x| |] eqn:H;
    [| |exact I|exact I].
  - assert (Hi : inputs m' = inputs m).
    { apply cluster_inv in H.
      destruct H as (m1 & hist & m4 & m6 & f & Hb & Hc & Hm & _ & ->).
      pose proof (mark_roots_only_iv minT (collect_edges minT eps chi2max hist m4)) as F6.
      rewrite Hm in F6. cbn [fst] in F6.
      change (inputs (set_nv (adjust (propagate m6)) f)) with (inputs (adjust (propagate m6))).
      rewrite (only_iv_inputs _ _ (adjust_only_iv _)).
      rewrite (only_iv_inputs _ _ (propagate_only_iv _)).
      rewrite (only_iv_inputs _ _ F6).
      rewrite (only_iv_inputs _ _ (collect_edges_only_iv _ _ _ _ _)).
      rewrite (only_iv_inputs _ _ (compress_only_iv _ _ _ Hc)).
      rewrite (only_iv_inputs _ _ (seed_only_iv _ _ _ _)).
      rewrite (only_nn_inputs _ _ (count_neighbours_only_nn _ _ _ _)).
      apply build_index_inv in Hb. destruct Hb as (_ & h & Hf & _ & _).
      unfold fill_hist in Hf.
      apply (for_each_inv (fun t => inputs (fst t) = inputs m)) in Hf; auto.
      intros t i t'. apply fill_hist_item_inputs. }
    unfold inputs in Hi. injection Hi as -> -> ->. auto.
  - apply cluster_fail in H. destruct H as [Hi _].
    unfold inputs in Hi. injection Hi as -> -> ->. auto.
Qed.

Lemma seeded_state zv minT eps errmax m m1 hist :
  0 <= ntrks m <= INT32_MAX ->
  build_index zv m = Ok (m1, hist) ->
  let m2 := count_neighbours eps hist (Float32.mul errmax errmax) m1 in
  let m3 := seed minT eps hist m2 in
  prepared m2 hist /\ seeded minT eps hist m2 m3 /\ forest minT m3 /\
  only_iv m2 m3 /\ only_nn m1 m2 /\ inputs m3 = inputs m.
Proof.
  intros Hn Hb m2 m3.
  destruct (build_index_spec zv m m1 hist Hn Hb) as ((En1 & Ez1 & Ee1 & _) & Hlo & _ & Hp1).
  pose proof (count_neighbours_only_nn eps hist (Float32.mul errmax errmax) m1) as F2.
  fold m2 in F2.
  pose proof (only_nn_proj _ _ F2) as (En2 & _ & _ & _ & Eiv2 & _).
  assert (Hp2 : prepared m2 hist) by (eapply prepared_only_nn; eauto).
  assert (Hself : forall k, 0 <= k < ntrks m2 -> iv m2 k = k).
  { intros k Hk. rewrite Eiv2. apply Hlo. lia. }
  pose proof (seed_spec minT eps hist m2 Hp2 Hself) as Hs. fold m3 in Hs.
  pose proof (seed_only_iv minT eps hist m2) as F3. fold m3 in F3.
  split; [exact Hp2|]. split; [exact Hs|].
  split; [eapply seeded_forest; eauto|]. split; [exact F3|]. split; [exact F2|].
  rewrite (only_iv_inputs _ _ F3), (only_nn_inputs _ _ F2).
  unfold inputs. now rewrite En1, Ez1, Ee1.
Qed.

(** C5. Right after the consolidation phase every pointer is a fixed
    point, [iv[iv[i]] == iv[i]] for every item, and a second run of the
    phase on that state completes and leaves every pointer, and everything
    else, as it is. *)
Theorem compression_fixed_point zv minT eps errmax fuel m m1 hist m4 :
  0 <= ntrks m <= INT32_MAX ->
  build_index zv m = Ok (m1, hist) ->
  compress fuel (seed minT eps hist
                   (count_neighbours eps hist (Float32.mul errmax errmax) m1)) = Ok m4 ->
  (forall i, 0 <= i < ntrks m -> iv m4 (iv m4 i) = iv m4 i) /\
  (forall fuel', (0 < fuel')%nat ->
     exists m5, compress fuel' m4 = Ok m5 /\ only_iv m4 m5 /\ forall k, iv m5 k = iv m4 k).
Proof.
  intros Hn Hb Hc.
  destruct (seeded_state zv minT eps errmax m m1 hist Hn Hb) as (Hp2 & _ & Hf & F3 & F2 & Hi).
  set (m3 := seed minT eps hist
               (count_neighbours eps hist (Float32.mul errmax errmax) m1)) in *.
  assert (En3 : ntrks m3 = ntrks m) by (unfold inputs in Hi; congruence).
  assert (Hn3 : 0 <= ntrks m3) by lia.
  pose proof (compress_sound minT fuel m3 m4 Hn3 Hf Hc) as (F4 & _ & _ & Hdone).
  pose proof (only_iv_proj _ _ F4) as (En4 & _).
  assert (Hflat : forall i, 0 <= i < ntrks m -> iv m4 (iv m4 i) = iv m4 i).
  { intros i Hi'. apply Hdone. lia. }
  split; [exact Hflat|].
  intros fuel' Hfuel. apply compress_again; [lia|exact Hfuel|].
  intros k Hk. apply Hflat. lia.
Qed.

Lemma compression_fixed_point_witness :
  exists m1 hist m4,
    build_index zv scenario5 = Ok (m1, hist) /\
    compress 5 (seed 2 f_0_05 hist
                  (count_neighbours f_0_05 hist (Float32.mul f_1 f_1) m1)) = Ok m4 /\
    (forall i, 0 <= i < 5 -> iv m4 (iv m4 i) = iv m4 i) /\
    (forall fuel', (0 < fuel')%nat ->
       exists m5, compress fuel' m4 = Ok m5 /\ only_iv m4 m5 /\ forall k, iv m5 k = iv m4 k).
Proof.
  destruct (build_index zv scenario5) as [[m1 hist]| | |] eqn:Hb;
    try (vm_compute in Hb; discriminate).
  destruct (compress 5 (seed 2 f_0_05 hist
                          (count_neighbours f_0_05 hist (Float32.mul f_1 f_1) m1)))
    as [m4| | |] eqn:Hc.
  - exists m1, hist, m4. split; [reflexivity|]. split; [exact Hc|].
    apply (compression_fixed_point zv 2 f_0_05 f_1 5 scenario5 m1 hist m4);
      [vm_compute; split; discriminate|exact Hb|exact Hc].
  - exfalso. vm_compute in Hb. injection Hb as <- <-. vm_compute in Hc. discriminate.
  - exfalso. vm_compute in Hb. injection Hb as <- <-. vm_compute in Hc. discriminate.
  - exfalso. vm_compute in Hb. injection Hb as <- <-. vm_compute in Hc. discriminate.
Defined.

(** C9. Every pointer the seeding phase sets leads to an item at a
    strictly smaller position, so the walk [while (m != iv[m]) m = iv[m]]
    started at any item's pointer returns, within one unit of fuel per
    item, a self-pointing root whose position is not greater than the
    item's; and the whole consolidation phase, which rewrites the pointers
    in place, completes. *)
Theorem seeding_walk_terminates zv minT eps errmax fuel m m1 hist :
  0 <= ntrks m <= INT32_MAX ->
  build_index zv m = Ok (m1, hist) ->
  ntrks m <= Z.of_nat fuel ->
  let m3 := seed minT eps hist
              (count_neighbours eps hist (Float32.mul errmax errmax) m1) in
  (forall i, 0 <= i < ntrks m -> iv m3 i <> i ->
     Float32.lt (zt m (iv m3 i)) (zt m i) = true) /\
  (forall i, 0 <= i < ntrks m ->
     exists r, walk fuel (iv m3) (iv m3 i) = Some r /\ iv m3 r = r /\
               Float32.le (zt m r) (zt m i) = true) /\
  (exists m4, compress fuel m3 = Ok m4).
Proof.
  intros Hn Hb Hfuel m3.
  destruct (seeded_state zv minT eps errmax m m1 hist Hn Hb) as (Hp2 & _ & Hf & F3 & F2 & Hi).
  fold m3 in Hf, F3, Hi.
  assert (En3 : ntrks m3 = ntrks m) by (unfold inputs in Hi; congruence).
  assert (Ez3 : zt m3 = zt m) by (unfold inputs in Hi; congruence).
  assert (Hfin : forall k, 0 <= k < ntrks m -> is_finite (zt m k) = true).
  { intros k Hk. rewrite <- Ez3.
    pose proof (prepared_only_iv _ _ _ F3 Hp2) as (_ & Hfin & _). apply Hfin. lia. }
  split; [|split].
  - intros i Hi' Hne. rewrite <- En3 in Hi'.
    destruct (Hf i Hi') as [E|(_ & Hlt & _)]; [contradiction|]. now rewrite <- Ez3.
  - intros i Hi'. assert (Hi3 : 0 <= i < ntrks m3) by lia.
    pose proof (forest_pointer_range minT m3 i Hf Hi3) as Hp.
    destruct (walk_total minT m3 Hf fuel (iv m3 i) Hp) as [r Hw].
    { pose proof (rank_bound m3 (iv m3 i) Hp). lia. }
    exists r. split; [exact Hw|].
    destruct (walk_sound minT m3 Hf fuel _ _ Hp Hw) as (Hr & Hroot & Hrel).
    split; [exact Hroot|]. rewrite <- Ez3.
    destruct (Hf i Hi3) as [E|(_ & Hlt & _)].
    + rewrite E in Hrel. destruct Hrel as [->|(Hlt' & _)]; [|now apply lt_le].
      apply le_refl. apply is_finite_not_nan. rewrite Ez3. now apply Hfin.
    + destruct Hrel as [->|(Hlt' & _)]; [now apply lt_le|].
      apply lt_le. eapply lt_trans; eauto.
  - destruct (compress_total minT fuel m3) as (m4 & Hc & _); [lia|exact Hf|lia|].
    eauto.
Qed.

Lemma seeding_walk_terminates_witness :
  exists m1 hist,
    build_index zv scenario5 = Ok (m1, hist) /\
    let m3 := seed 2 f_0_05 hist
                (count_neighbours f_0_05 hist (Float32.mul f_1 f_1) m1) in
    (forall i, 0 <= i < 5 -> iv m3 i <> i ->
       Float32.lt (zt scenario5 (iv m3 i)) (zt scenario5 i) = true) /\
    (forall i, 0 <= i < 5 ->
       exists r, walk 5 (iv m3) (iv m3 i) = Some r /\ iv m3 r = r /\
                 Float32.le (zt scenario5 r) (zt scenario5 i) = true) /\
    (exists m4, compress 5 m3 = Ok m4).
Proof.
  destruct (build_index zv scenario5) as [[m1 hist]| | |] eqn:Hb;
    try (vm_compute in Hb; discriminate).
  exists m1, hist. split; [reflexivity|].
  apply (seeding_walk_terminates zv 2 f_0_05 f_1 5 scenario5 m1 hist);
    [vm_compute; split; discriminate|exact Hb|vm_compute; discriminate].
Defined.






(** ** The tests of the lambdas, as inequalities *)


Lemma gt_false_le a b :
  Float32.is_nan a = false -> Float32.is_nan b = false ->
  (Float32.gt a b = false <-> Float32.le a b = true).
Proof. intros Ha Hb. split; [now apply not_gt_le|apply le_not_gt]. Qed.

Lemma seed_candidate_qualifies minT eps m i j :
  Float32.is_nan eps = false ->
  is_finite (zt m i) = true -> is_finite (zt m j) = true ->
  (seed_candidate minT eps m i j <-> seed_qualifies minT eps m i j).
Proof.
  intros He Hi Hj. unfold seed_candidate, seed_qualifies.
  rewrite (gt_false_le _ _ (dist_not_nan m i j Hi Hj) He). tauto.
Qed.




Lemma seed_choice_adjacent minT eps m i l p :
  Float32.is_nan eps = false ->
  (forall k, 0 <= k < ntrks m -> is_finite (zt m k) = true) ->
  0 <= i < ntrks m ->
  (forall j, In j l <-> visited m i j) ->
  seed_choice minT eps m i l p ->
  adjacent_seed_pointer minT eps m i p.
Proof.
  intros He Hfin Hi Hl [(-> & Hno)|(Hp & Hc & Hmin)].
  - left. split; [reflexivity|]. intros j Hv Hq.
    apply (Hno j); [now apply Hl|].
    apply seed_candidate_qualifies; auto. apply Hfin. now destruct Hv.
  - right. apply Hl in Hp. split; [exact Hp|]. split.
    + apply seed_candidate_qualifies in Hc; auto. apply Hfin. now destruct Hp.
    + intros j Hv Hq. apply Hmin; [now apply Hl|].
      apply seed_candidate_qualifies; auto. apply Hfin. now destruct Hv.
Qed.

(** Two pointers that both follow the rule sit at the same position. *)
Lemma adjacent_seed_pointer_position minT eps m i p q :
  is_finite (zt m i) = true ->
  adjacent_seed_pointer minT eps m i p -> adjacent_seed_pointer minT eps m i q ->
  Float32.le (zt m p) (zt m q) = true.
Proof.
  intros Hfi [(-> & Hno)|(Hp & Hcp & Hminp)] [(-> & Hno')|(Hq & Hcq & Hminq)].
  - apply le_refl. now apply is_finite_not_nan.
  - now destruct (Hno q Hq).
  - now destruct (Hno' p Hp).
  - now apply Hminp.
Qed.

(** C3, as amended.  In the seeding phase the pointer of a core item [i]
    becomes a core item of smallest position among the core items [j] of
    the buckets within one of [i]'s bucket that have [zt[j] < zt[i]] and
    [|zt[i] - zt[j]| <= eps], and stays [i] when there is none.  In
    whatever order the query yields these items, the lambda leaves a
    pointer that follows the same rule and sits at the same position, and
    the same pointer when a single qualifying item has that smallest
    position.  The statement is for an [eps] that is not a NaN. *)
Theorem seed_pointer_adjacent zv minT eps errmax m m1 hist :
  0 <= ntrks m <= INT32_MAX ->
  Float32.is_nan eps = false ->
  build_index zv m = Ok (m1, hist) ->
  let m2 := count_neighbours eps hist (Float32.mul errmax errmax) m1 in
  let m3 := seed minT eps hist m2 in
  forall i, 0 <= i < ntrks m -> minT <= nn m2 i ->
    adjacent_seed_pointer minT eps m2 i (iv m3 i) /\
    forall l, Permutation l (Hist.query hist (izt m2 i) 1) ->
      let p := iv (snd (fold_left (seed_loop minT eps i) l (zt m2 i, m2))) i in
      adjacent_seed_pointer minT eps m2 i p /\
      Float32.le (zt m2 p) (zt m2 (iv m3 i)) = true /\
      Float32.le (zt m2 (iv m3 i)) (zt m2 p) = true /\
      ((forall j, visited m2 i j -> seed_qualifies minT eps m2 i j ->
                  Float32.le (zt m2 j) (zt m2 (iv m3 i)) = true -> j = iv m3 i) ->
       p = iv m3 i).
Proof.
  intros Hn He Hb m2 m3 i Hi Hc.
  destruct (seeded_state zv minT eps errmax m m1 hist Hn Hb)
    as (Hp2 & Hs & _ & _ & F2 & Hin).
  fold m2 in Hp2, Hs, F2. fold m3 in Hs, Hin.
  destruct Hp2 as (Hcap & Hfin & Hq).
  assert (En2 : ntrks m2 = ntrks m).
  { pose proof (only_iv_proj _ _ (seed_only_iv minT eps hist m2)) as (E & _).
    unfold inputs in Hin. injection Hin as E1 _ _.
    transitivity (ntrks m3); [symmetry; exact E|exact E1]. }
  assert (Hi2 : 0 <= i < ntrks m2) by lia.
  destruct Hs as (_ & _ & Hitems). destruct (Hitems i Hi2) as [_ Hch].
  assert (Hk : adjacent_seed_pointer minT eps m2 i (iv m3 i)).
  { eapply seed_choice_adjacent; eauto. }
  split; [exact Hk|].
  intros l Hperm p.
  assert (Hl : forall j, In j l <-> visited m2 i j).
  { intros j. rewrite <- (Hq i j Hi2). split; apply Permutation_in; auto.
    now apply Permutation_sym. }
  assert (Hpl : adjacent_seed_pointer minT eps m2 i p).
  { destruct (fold_left (seed_loop minT eps i) l (zt m2 i, m2)) as [mz m'] eqn:E.
    destruct (seed_loop_spec minT eps m2 i l (capacity_int32 _ Hcap) (Hfin i Hi2))
      with (mz := mz) (m' := m') as (_ & _ & Hcase); [|exact E|].
    { intros j Hj. apply Hl in Hj. destruct Hj as [Hj _]. auto. }
    assert (Hself : iv m2 i = i).
    { pose proof (only_nn_proj _ _ F2) as (_ & _ & _ & _ & Eiv & _). rewrite Eiv.
      destruct (build_index_spec zv m m1 hist Hn Hb) as (_ & Hlo & _). apply Hlo. lia. }
    subst p. cbn [snd].
    eapply seed_choice_adjacent; eauto.
    destruct Hcase as [(_ & Eiv & Hno)|(_ & Hin' & Hcand & Hmin)].
    - left. split; [congruence|exact Hno].
    - right. auto. }
  split; [exact Hpl|].
  assert (Hle : Float32.le (zt m2 p) (zt m2 (iv m3 i)) = true)
    by (eapply adjacent_seed_pointer_position; eauto).
  split; [exact Hle|].
  split; [eapply adjacent_seed_pointer_position; eauto|].
  intros Huniq.
  destruct Hpl as [(Ep & Hno)|(Hvp & Hqp & _)].
  - destruct Hk as [(E0 & _)|(Hv0 & Hq0 & _)]; [congruence|].
    now destruct (Hno _ Hv0).
  - now apply Huniq.
Qed.

Lemma seed_pointer_adjacent_witness :
  exists m1 hist,
    build_index zv ties3 = Ok (m1, hist) /\
    let m2 := count_neighbours f_0_05 hist (Float32.mul f_1 f_1) m1 in
    let m3 := seed 2 f_0_05 hist m2 in
    forall i, 0 <= i < 3 -> 2 <= nn m2 i ->
      adjacent_seed_pointer 2 f_0_05 m2 i (iv m3 i) /\
      forall l, Permutation l (Hist.query hist (izt m2 i) 1) ->
        let p := iv (snd (fold_left (seed_loop 2 f_0_05 i) l (zt m2 i, m2))) i in
        adjacent_seed_pointer 2 f_0_05 m2 i p /\
        Float32.le (zt m2 p) (zt m2 (iv m3 i)) = true /\
        Float32.le (zt m2 (iv m3 i)) (zt m2 p) = true /\
        ((forall j, visited m2 i j -> seed_qualifies 2 f_0_05 m2 i j ->
                    Float32.le (zt m2 j) (zt m2 (iv m3 i)) = true -> j = iv m3 i) ->
         p = iv m3 i).
Proof.
  destruct (build_index zv ties3) as [[m1 hist]| | |] eqn:Hb;
    try (vm_compute in Hb; discriminate).
  exists m1, hist. split; [reflexivity|].
  apply (seed_pointer_adjacent zv 2 f_0_05 f_1 ties3 m1 hist);
    [vm_compute; split; discriminate|reflexivity|exact Hb].
Defined.

(** C3 as stated fails twice.  With [eps = 0.5] the core item 3 of
    [groups6] keeps its own pointer although the core items 0, 1 and 2, at
    smaller positions and closer than [eps], lie in buckets the query does
    not visit.  And in [ties3] the core items 0 and 1 share the smallest
    position below item 2: visiting them in the order 0, 1, 2 instead of
    the query's 2, 1, 0 leaves another pointer. *)
Lemma seed_pointer_counterexample :
  (exists m1 hist,
     build_index zv groups6 = Ok (m1, hist) /\
     let m2 := count_neighbours f_0_5 hist (Float32.mul f_1 f_1) m1 in
     2 <= nn m2 3 /\
     ~ spec_seed_pointer 2 f_0_5 m2 3 (iv (seed 2 f_0_5 hist m2) 3)) /\
  (exists m1 hist,
     build_index zv ties3 = Ok (m1, hist) /\
     let m2 := count_neighbours f_0_05 hist (Float32.mul f_1 f_1) m1 in
     2 <= nn m2 2 /\
     exists l, Permutation l (Hist.query hist (izt m2 2) 1) /\
       iv (snd (fold_left (seed_loop 2 f_0_05 2) l (zt m2 2, m2))) 2
       <> iv (seed 2 f_0_05 hist m2) 2).
Proof.
  split.
  - destruct (build_index zv groups6) as [[m1 hist]| | |] eqn:Hb;
      try (vm_compute in Hb; discriminate).
    vm_compute in Hb. injection Hb as <- <-.
    eexists. eexists. split; [reflexivity|]. cbv zeta.
    split; [vm_compute; discriminate|].
    intros [(_ & Hno)|(_ & (_ & Hlt & _) & _)].
    + apply (Hno 0); [vm_compute; split; [discriminate|reflexivity]|].
      split; [vm_compute; discriminate|]. split; vm_compute; reflexivity.
    + vm_compute in Hlt. discriminate.
  - destruct (build_index zv ties3) as [[m1 hist]| | |] eqn:Hb;
      try (vm_compute in Hb; discriminate).
    vm_compute in Hb. injection Hb as <- <-.
    eexists. eexists. split; [reflexivity|]. cbv zeta.
    split; [vm_compute; discriminate|].
    exists [0; 1; 2]. split.
    + apply (Permutation_rev [0; 1; 2]).
    + vm_compute. discriminate.
Qed.

(** ** The noise value *)


Lemma adjust_value m :
  0 <= ntrks m ->
  forall k, 0 <= k < ntrks m -> iv (adjust m) k = to_int32 (- iv m k - 1).
Proof.
  intros Hn. unfold adjust.
  apply (uniform_loop_inv
           (fun i t => (forall k, ~ 0 <= k < i -> iv t k = iv m k) /\
                       (forall k, 0 <= k < i -> iv t k = to_int32 (- iv m k - 1))));
    [exact Hn| |].
  - split; [auto|]. intros k Hk. lia.
  - intros i t Hi (Hout & Hin). unfold adjust_item. rewrite (Hout i) by lia.
    split; intros k Hk; cbn [iv set_iv].
    + rewrite upd_other by lia. apply Hout. lia.
    + destruct (Z.eq_dec k i) as [->|Hne]; [now rewrite upd_same|].
      rewrite upd_other by exact Hne. apply Hin. lia.
Qed.





(** C6, as amended.  On the five items at 0.0, 0.01, 0.02, 5.0 and 5.01,
    all of variance 0.0001, with [eps = 0.05], [minT = 2], [errmax = 1]
    and [chi2max = 9], the kernel finds one cluster, the items 0, 1 and 2
    with id 0; the items 3 and 4 have one neighbour each, are not core
    items and end as noise; the cluster count is 1.  This holds whatever
    the arrays the kernel writes held before, for every [MAXTRACKS >= 5],
    [MAXVTX >= 2] and fuel of at least 5. *)
Theorem scenario5_result zv' fuel m0 :
  5 <= MAXTRACKS zv' -> 2 <= MAXVTX zv' -> (5 <= fuel)%nat ->
  exists m',
    clusterTracksDBSCAN zv' 2 f_0_05 f_1 f_9 fuel (memory_over positions5 f_0_0001 m0)
    = Ok m' /\
    map (nn m') (uniform_elements 5) = [2; 2; 2; 1; 1] /\
    map (iv m') (uniform_elements 5) = [0; 0; 0; 9997; 9997] /\
    nvFinal m' = 1 /\ nvIntermediate m' = 1.
Proof.
  intros Ht Hv Hf.
  destruct (clusterTracksDBSCAN (mkzVertex 5 2) 2 f_0_05 f_1 f_9 5
              (memory_over positions5 f_0_0001 m0))
    as [m'| | |] eqn:H; try (vm_compute in H; discriminate).
  exists m'. split.
  - apply (cluster_mono (mkzVertex 5 2) zv' 2 f_0_05 f_1 f_9 5 fuel); auto.
  - vm_compute in H. injection H as <-. repeat split.
Qed.

Lemma scenario5_result_witness :
  exists m',
    clusterTracksDBSCAN zv 2 f_0_05 f_1 f_9 5 (memory_over positions5 f_0_0001 scenario5)
    = Ok m' /\
    map (nn m') (uniform_elements 5) = [2; 2; 2; 1; 1] /\
    map (iv m') (uniform_elements 5) = [0; 0; 0; 9997; 9997] /\
    nvFinal m' = 1 /\ nvIntermediate m' = 1.
Proof.
  apply (scenario5_result zv 5%nat scenario5);
    [vm_compute; discriminate|vm_compute; discriminate|lia].
Defined.

(** C6 as stated fails: the run on the five items does not end with two
    clusters. *)
Lemma scenario5_counterexample :
  ~ exists m',
      clusterTracksDBSCAN zv 2 f_0_05 f_1 f_9 5 scenario5 = Ok m' /\
      nvFinal m' = 2 /\
      iv m' 0 = iv m' 1 /\ iv m' 1 = iv m' 2 /\ iv m' 3 = iv m' 4 /\
      iv m' 0 <> iv m' 3 /\ 0 <= iv m' 3 < 2.
Proof.
  intros (m' & H & Hn & _). vm_compute in H. injection H as <-.
  vm_compute in Hn. discriminate.
Qed.

(** C7, as amended.  In the index-build phase the key stored for item [i]
    is [clamp(int(zt[i] * 10.), -128, 127) - INT8_MIN], where the
    conversion to [int] drops the fractional part (it rounds toward zero,
    not to the nearest integer); and the counter of a bucket ends as the
    number of items with that key, one increment per item. *)
Theorem bucket_key_truncates zv m m1 h :
  0 <= ntrks m <= INT32_MAX ->
  fill_hist zv m Hist.zero = Ok (m1, h) ->
  (forall i, 0 <= i < ntrks m ->
     exists iz,
       Float64.to_int (Float64.mul (Float64.of_float (zt m i)) Float64.ten) = Some iz /\
       izt m1 i = clamp iz INT8_MIN INT8_MAX - INT8_MIN) /\
  (forall b, Hist.off h b =
             Z.of_nat (length (filter (fun k => izt m1 k =? b)
                                      (uniform_elements (ntrks m))))).
Proof.
  intros Hn Hf. apply fill_hist_spec in Hf; [|exact Hn].
  destruct Hf as (_ & Hlo & _ & Hoff & _).
  split.
  - intros i Hi. destruct (Hlo i Hi) as (Hq & Ek & _).
    destruct (quantize (zt m i)) as [iz|] eqn:E; [|congruence].
    exists iz. split; [exact E|]. rewrite Ek. now apply bucket_of_quantize.
  - intros b. rewrite Hoff. unfold count_in_bucket. f_equal. f_equal.
    apply filter_ext_in. intros k Hk. apply In_uniform_elements in Hk.
    destruct (Hlo k Hk) as (_ & -> & _). reflexivity.
Qed.

Lemma bucket_key_truncates_witness :
  exists m1 h,
    fill_hist zv single Hist.zero = Ok (m1, h) /\
    (forall i, 0 <= i < 1 ->
       exists iz,
         Float64.to_int (Float64.mul (Float64.of_float (zt single i)) Float64.ten)
         = Some iz /\
         izt m1 i = clamp iz INT8_MIN INT8_MAX - INT8_MIN) /\
    (forall b, Hist.off h b =
               Z.of_nat (length (filter (fun k => izt m1 k =? b) (uniform_elements 1)))).
Proof.
  destruct (fill_hist zv single Hist.zero) as [[m1 h]| | |] eqn:Hf;
    try (vm_compute in Hf; discriminate).
  exists m1, h. split; [reflexivity|].
  apply (bucket_key_truncates zv single m1 h); [vm_compute; split; discriminate|exact Hf].
Defined.

(** C7 as stated fails: for the position 0.06 the formula with [round]
    gives the key 129, and the kernel stores 128. *)
Lemma bucket_key_counterexample :
  exists m1 h,
    fill_hist zv single Hist.zero = Ok (m1, h) /\
    spec_bucketIndex (zt single 0) INT8_MIN INT8_MAX = Some 129 /\
    izt m1 0 = 128 /\
    Some (izt m1 0) <> spec_bucketIndex (zt single 0) INT8_MIN INT8_MAX.
Proof.
  eexists. eexists. split; [vm_compute; reflexivity|].
  split; [vm_compute; reflexivity|]. split; [vm_compute; reflexivity|].
  vm_compute. discriminate.
Qed.

(** * Further properties of the kernel *)

(** ** Every item is visited once *)

Lemma uniform_elements_nodup n : NoDup (uniform_elements n).
Proof.
  unfold uniform_elements.
  generalize (Z.to_nat n) as k. intros k. generalize 0%nat as s. 
  induction k as [|k IH]; intros s; simpl; constructor.
  - rewrite in_map_iff. intros (x & Hx & Hin). apply in_seq in Hin. lia.
  - apply IH.
Qed.

Lemma flat_map_nodup {A B : Type} (f : A -> list B) l :
  NoDup l ->
  (forall x, In x l -> NoDup (f x)) ->
  (forall x y z, In x l -> In y l -> In z (f x) -> In z (f y) -> x = y) ->
  NoDup (flat_map f l).
Proof.
  induction l as [|a l IH]; intros Hl Hf Hd; simpl; [constructor|].
  inversion Hl as [|a' l' Ha Hl']; subst.
  assert (Hrest : NoDup (flat_map f l)).
  { apply IH; auto.
    - intros x Hx. apply Hf. now right.
    - intros x y z Hx Hy. apply Hd; now right. }
  assert (Hhead : NoDup (f a)) by (apply Hf; now left).
  revert Hhead. generalize (Hd a) as Ha'. generalize (f a) as la.
  induction la as [|b la IHa]; intros Ha' Hhead; simpl; [exact Hrest|].
  inversion Hhead as [|b' la' Hb Hla]; subst.
  constructor.
  - rewrite in_app_iff. intros [Hin|Hin]; [contradiction|].
    apply in_flat_map in Hin. destruct Hin as (y & Hy & Hby).
    apply Ha. rewrite (Ha' y b); auto; [now left|now right|now left].
  - apply IHa; auto. intros y z Hx Hy Hz Hz'. apply (Ha' y z); auto. now right.
Qed.

Lemma range_nodup key n : NoDup (Hist.range key n).
Proof.
  unfold Hist.range.
  generalize (Z.max 0 (key - n)) as bs.
  generalize (Z.min (Hist.nbins - 1) (key + n)) as be. intros be bs.
  pose proof (uniform_elements_nodup (be - bs + 1)) as H.
  induction H as [|x l Hx Hl IH]; simpl; constructor; auto.
  rewrite in_map_iff. intros (y & Hy & Hin). assert (y = x) by lia. subst. contradiction.
Qed.

Lemma fill_slots_nodup m hist0 :
  0 <= ntrks m <= INT32_MAX ->
  (forall b, Hist.bins hist0 b = []) ->
  forall b, NoDup (Hist.bins (fill_slots m hist0) b).
Proof.
  intros Hn H0. unfold fill_slots.
  assert (H : (fun i h => (forall b j, In j (Hist.bins h b) -> 0 <= j < i) /\
                          forall b, NoDup (Hist.bins h b))
              (ntrks m)
              (fold_left (fun h i => Hist.fill h (izt m i) (to_uint32 i))
                         (uniform_elements (ntrks m)) hist0)).
  { apply uniform_loop_inv.
    - lia.
    - split; intros b; rewrite H0; [intros j []|constructor].
    - intros i h Hi [Hin Hnd].
      rewrite to_uint32_small by (unfold INT32_MAX in Hn; lia).
      split; intros b; cbn [Hist.fill Hist.bins]; unfold upd;
        destruct (Z.eqb_spec b (izt m i)) as [->|Hne].
      + intros j [<-|Hj]; [lia|]. apply Hin in Hj. lia.
      + intros j Hj. apply Hin in Hj. lia.
      + constructor; [|apply Hnd]. intros Hj. apply Hin in Hj. lia.
      + apply Hnd. }
  apply H.
Qed.

Lemma build_index_nodup zv m0 m1 hist :
  0 <= ntrks m0 <= INT32_MAX ->
  build_index zv m0 = Ok (m1, hist) ->
  forall key n, NoDup (Hist.query hist key n).
Proof.
  intros Hn Hb key n.
  pose proof (build_index_spec zv m0 m1 hist Hn Hb) as ((En & _) & _).
  apply build_index_inv in Hb. destruct Hb as (_ & h & Hf & _ & ->).
  apply fill_hist_spec in Hf; [|exact Hn].
  destruct Hf as (_ & _ & _ & _ & _ & Hbins).
  assert (H0 : forall b, Hist.bins (Hist.finalize h) b = []).
  { intros b. change (Hist.bins (Hist.finalize h) b) with (Hist.bins h b). now rewrite Hbins. }
  assert (Hn1 : 0 <= ntrks m1 <= INT32_MAX) by lia.
  unfold Hist.query. apply flat_map_nodup.
  - apply range_nodup.
  - intros b _. apply fill_slots_nodup; auto.
  - intros x y z _ _ Hx Hy.
    apply (fill_slots_spec m1 _ Hn1 H0) in Hx. apply (fill_slots_spec m1 _ Hn1 H0) in Hy.
    destruct Hx as [_ <-]. destruct Hy as [_ <-]. reflexivity.
Qed.

(** ** The neighbour counts *)

Lemma uniform_elements_length n : 0 <= n -> Z.of_nat (length (uniform_elements n)) = n.
Proof. intros Hn. unfold uniform_elements. rewrite length_map, length_seq. lia. Qed.

Lemma filter_length_nodup {A : Type} (f g : A -> bool) l1 l2 :
  NoDup l1 -> NoDup l2 ->
  (forall x, (In x l1 /\ f x = true) <-> (In x l2 /\ g x = true)) ->
  length (filter f l1) = length (filter g l2).
Proof.
  intros H1 H2 H. apply Permutation_length. apply NoDup_Permutation.
  - now apply NoDup_filter.
  - now apply NoDup_filter.
  - intros x. rewrite !filter_In. apply H.
Qed.

Lemma neighbours_frame eps m m' i :
  ntrks m' = ntrks m -> zt m' = zt m -> izt m' = izt m ->
  neighbours eps m' i = neighbours eps m i.
Proof.
  intros En Ez Ei. unfold neighbours, is_neighbour, adjacent, dist.
  now rewrite En, Ez, Ei.
Qed.

Lemma count_loop_fold eps i l :
  forall m,
    INT32_MIN <= nn m i -> nn m i + Z.of_nat (length l) <= INT32_MAX ->
    only_nn m (fold_left (count_loop eps i) l m) /\
    (forall k, k <> i -> nn (fold_left (count_loop eps i) l m) k = nn m k) /\
    nn (fold_left (count_loop eps i) l m) i =
    nn m i + Z.of_nat (length (filter (fun j => negb (i =? j) &&
                                                negb (Float32.gt (dist m i j) eps)) l)).
Proof.
  induction l as [|j l IH]; intros m Hlo Hhi.
  - cbn [fold_left filter length]. split; [reflexivity|]. split; [auto|]. simpl. lia.
  - cbn [fold_left]. cbn [length] in Hhi.
    assert (Hstep : only_nn m (count_loop eps i m j) /\
                    (forall k, k <> i -> nn (count_loop eps i m j) k = nn m k) /\
                    nn (count_loop eps i m j) i =
                    nn m i + (if negb (i =? j) && negb (Float32.gt (dist m i j) eps)
                              then 1 else 0)).
    { split; [apply count_loop_only_nn|].
      unfold count_loop. fold (dist m i j).
      destruct (i =? j); cbn [negb andb]; [split; [auto|lia]|].
      destruct (Float32.gt (dist m i j) eps); cbn [negb]; [split; [auto|lia]|].
      cbn [nn set_nn]. split.
      - intros k Hk. now rewrite upd_other.
      - rewrite upd_same. apply to_int32_small. lia. }
    destruct Hstep as (F & Hoth & Hval).
    pose proof (only_nn_proj _ _ F) as (_ & Ez & _).
    destruct (IH (count_loop eps i m j)) as (F' & Hoth' & Hval').
    + rewrite Hval. destruct (negb (i =? j) && negb (Float32.gt (dist m i j) eps)); lia.
    + rewrite Hval. destruct (negb (i =? j) && negb (Float32.gt (dist m i j) eps)); lia.
    + split; [eapply only_nn_trans; eauto|]. split.
      * intros k Hk. rewrite Hoth' by exact Hk. now apply Hoth.
      * rewrite Hval', Hval. unfold dist. rewrite Ez. cbn [filter]. fold (dist m i j).
        destruct (negb (i =? j) && negb (Float32.gt (dist m i j) eps)); cbn [length]; lia.
Qed.

Lemma query_length m hist i :
  prepared m hist -> 0 <= i < ntrks m -> NoDup (Hist.query hist (izt m i) 1) ->
  Z.of_nat (length (Hist.query hist (izt m i) 1)) <= ntrks m.
Proof.
  intros (Hn & _ & Hq) Hi Hnd.
  rewrite <- (uniform_elements_length (ntrks m)) by lia.
  apply inj_le. apply NoDup_incl_length; [exact Hnd|].
  intros j Hj. apply In_uniform_elements. apply (Hq i j Hi) in Hj. apply Hj.
Qed.

Lemma count_item_value eps hist er2mx m i :
  prepared m hist -> 0 <= i < ntrks m -> NoDup (Hist.query hist (izt m i) 1) ->
  nn m i = 0 ->
  (forall k, k <> i -> nn (count_item eps hist er2mx m i) k = nn m k) /\
  nn (count_item eps hist er2mx m i) i =
  (if Float32.gt (ezt2 m i) er2mx then 0 else neighbours eps m i).
Proof.
  intros Hp Hi Hnd H0. unfold count_item.
  destruct (Float32.gt (ezt2 m i) er2mx); [auto|].
  unfold forEachInBins.
  pose proof (query_length m hist i Hp Hi Hnd) as Hlen.
  destruct Hp as (Hn & _ & Hq).
  destruct (count_loop_fold eps i (Hist.query hist (izt m i) 1) m) as (_ & Hoth & Hval).
  - rewrite H0. unfold INT32_MIN. lia.
  - rewrite H0. unfold INT32_MAX, Hist.capacity in *. lia.
  - split; [exact Hoth|]. rewrite Hval, H0, Z.add_0_l. unfold neighbours. f_equal.
    apply filter_length_nodup; [exact Hnd|apply uniform_elements_nodup|].
    intros j. rewrite (Hq i j Hi), In_uniform_elements. unfold visited, is_neighbour, adjacent.
    rewrite !andb_true_iff, Z.leb_le. tauto.
Qed.

(** The counts the counting phase leaves, over a memory whose counts were
    reset by the loop of lines 78-88. *)
Lemma count_neighbours_value eps hist er2mx m :
  prepared m hist ->
  (forall i, 0 <= i < ntrks m -> NoDup (Hist.query hist (izt m i) 1)) ->
  (forall i, 0 <= i < ntrks m -> nn m i = 0) ->
  (forall i, 0 <= i < ntrks m ->
     nn (count_neighbours eps hist er2mx m) i =
     (if Float32.gt (ezt2 m i) er2mx then 0 else neighbours eps m i)) /\
  (forall k, ~ 0 <= k < ntrks m -> nn (count_neighbours eps hist er2mx m) k = nn m k).
Proof.
  intros Hp Hnd H0. unfold count_neighbours.
  assert (Hn : 0 <= ntrks m) by (destruct Hp as [? _]; lia).
  assert (H : (fun i t =>
                 only_nn m t /\
                 (forall k, 0 <= k < i ->
                    nn t k = if Float32.gt (ezt2 m k) er2mx then 0 else neighbours eps m k) /\
                 (forall k, ~ 0 <= k < i -> nn t k = nn m k))
              (ntrks m)
              (fold_left (count_item eps hist er2mx) (uniform_elements (ntrks m)) m)).
  { apply uniform_loop_inv; [exact Hn| |].
    - split; [reflexivity|]. split; [intros k Hk; lia|auto].
    - intros i t Hi (F & Hin & Hout).
      pose proof (only_nn_proj _ _ F) as (En & Ez & Ee & Ei & _).
      assert (Hpt : prepared t hist) by (eapply prepared_only_nn; eauto).
      destruct (count_item_value eps hist er2mx t i Hpt) as (Hoth & Hval).
      + lia.
      + rewrite Ei. apply Hnd. exact Hi.
      + rewrite Hout by lia. apply H0. exact Hi.
      + split; [eapply only_nn_trans; [exact F|apply count_item_only_nn]|]. split.
        * intros k Hk. destruct (Z.eq_dec k i) as [->|Hne].
          -- rewrite Hval, Ee. now rewrite (neighbours_frame eps m t i En Ez Ei).
          -- rewrite Hoth by exact Hne. apply Hin. lia.
        * intros k Hk. rewrite Hoth by lia. apply Hout. lia. }
  destruct H as (_ & Hin & Hout). split; assumption.
Qed.

Lemma neighbours_bound eps m i : 0 <= i < ntrks m -> 0 <= neighbours eps m i < ntrks m.
Proof.
  intros Hi. unfold neighbours. split; [lia|].
  rewrite <- (uniform_elements_length (ntrks m)) at 2 by lia.
  apply inj_lt.
  assert (E : length (uniform_elements (ntrks m)) =
              length (filter (fun _ : Z => true) (uniform_elements (ntrks m)))).
  { clear. induction (uniform_elements (ntrks m)); simpl; auto. }
  rewrite E.
  apply filter_length_lt with (y := i); auto.
  - now apply In_uniform_elements.
  - unfold is_neighbour. rewrite Z.eqb_refl. cbn. now rewrite andb_false_r.
Qed.

(** ** Roots of the seeding forest *)

Lemma walk_det fuel fuel' a p r r' :
  walk fuel a p = Some r -> walk fuel' a p = Some r' -> r = r'.
Proof.
  intros H H'.
  apply (walk_mono _ (Nat.max fuel fuel')) in H; [|lia].
  apply (walk_mono _ (Nat.max fuel fuel')) in H'; [|lia].
  congruence.
Qed.

Lemma walk_fixed fuel a : forall p r, walk fuel a p = Some r -> a r = r.
Proof.
  induction fuel as [|fuel IH]; intros p r H; [discriminate|].
  simpl in H. destruct (Z.eqb_spec p (a p)) as [E|Hne]; simpl in H.
  - injection H as <-. auto.
  - eapply IH; eauto.
Qed.

Lemma walk_of_root fuel a p r : a p = p -> walk fuel a p = Some r -> r = p.
Proof.
  intros E H. destruct fuel as [|fuel]; [discriminate|].
  simpl in H. rewrite E, Z.eqb_refl in H. simpl in H. congruence.
Qed.

Lemma walk_root_1 a p : a p = p -> walk 1 a p = Some p.
Proof. intros E. simpl. now rewrite E, Z.eqb_refl. Qed.

Lemma walk_step fuel a p : a p <> p -> walk (S fuel) a p = walk fuel a (a p).
Proof.
  intros H. simpl. destruct (Z.eqb_spec p (a p)) as [E|_]; [congruence|reflexivity].
Qed.

(** One step of the consolidation keeps the root every walk arrives at. *)
Lemma compress_item_reach fuel m i m' :
  compress_item fuel m i = Ok m' ->
  forall f p r, walk f (iv m) p = Some r -> exists f', walk f' (iv m') p = Some r.
Proof.
  unfold compress_item. destruct (walk fuel (iv m) (iv m i)) as [q|] eqn:Hw; [|discriminate].
  intros H. injection H as <-. cbn [iv set_iv].
  induction f as [|f IH]; intros p r H; [discriminate|].
  destruct (Z.eq_dec (iv m p) p) as [E|Hne].
  - apply (walk_of_root _ _ _ _ E) in H. subst r.
    exists 1%nat. apply walk_root_1.
    destruct (Z.eq_dec p i) as [->|Hpi].
    + rewrite upd_same. rewrite E in Hw. apply (walk_of_root _ _ _ _ E Hw).
    + now rewrite upd_other.
  - rewrite walk_step in H by exact Hne.
    destruct (Z.eq_dec p i) as [->|Hpi].
    + assert (r = q) by (eapply walk_det; eauto). subst r.
      pose proof (walk_fixed _ _ _ _ Hw) as Hq.
      assert (Hqi : q <> i) by congruence.
      exists 2%nat. rewrite walk_step by (rewrite upd_same; congruence).
      rewrite upd_same. apply walk_root_1. now rewrite upd_other.
    + destruct (IH _ _ H) as (f' & Hf').
      exists (S f'). rewrite walk_step by (rewrite upd_other; auto).
      now rewrite upd_other.
Qed.

Lemma compress_reach fuel m m' :
  compress fuel m = Ok m' ->
  forall f p r, walk f (iv m) p = Some r -> exists f', walk f' (iv m') p = Some r.
Proof.
  intros H. unfold compress in H.
  refine (for_each_inv
            (fun t => forall f p r, walk f (iv m) p = Some r ->
                                    exists f', walk f' (iv t) p = Some r) _ _ _ _ _ _ H).
  - intros f p r Hw. now exists f.
  - intros t i t' Inv Hb f p r Hw.
    destruct (Inv f p r Hw) as (f1 & Hf1).
    eapply compress_item_reach; eauto.
Qed.

(** The consolidated pointer of an item is the root of its chain of
    seeding pointers. *)
Lemma compress_root minT fuel m m' :
  0 <= ntrks m -> forest minT m -> compress fuel m = Ok m' ->
  forall k, 0 <= k < ntrks m -> exists f, walk f (iv m) k = Some (iv m' k).
Proof.
  intros Hn Hf Hc k Hk.
  destruct (walk_total minT m Hf (S (rank m k)) k Hk) as (r & Hr); [lia|].
  destruct (compress_reach _ _ _ Hc _ _ _ Hr) as (f' & Hf').
  pose proof (compress_sound minT fuel m m' Hn Hf Hc) as (_ & _ & _ & Hfix).
  destruct (Hfix k Hk) as (_ & Hroot).
  assert (H2 : walk 2 (iv m') k = Some (iv m' k)).
  { destruct (Z.eq_dec (iv m' k) k) as [E|Hne].
    - simpl. rewrite E, Z.eqb_refl. simpl. reflexivity.
    - rewrite walk_step by exact Hne. now apply walk_root_1. }
  assert (r = iv m' k) by (eapply walk_det; eauto). subst r.
  eexists; eauto.
Qed.

Lemma compress_keeps_root minT fuel m m' k :
  0 <= ntrks m -> forest minT m -> compress fuel m = Ok m' ->
  0 <= k < ntrks m -> iv m k = k -> iv m' k = k.
Proof.
  intros Hn Hf Hc Hk E.
  destruct (compress_root minT fuel m m' Hn Hf Hc k Hk) as (f & Hw).
  now apply (walk_of_root _ _ _ _ E Hw).
Qed.

Lemma compress_parent minT fuel m m' k :
  0 <= ntrks m -> forest minT m -> compress fuel m = Ok m' ->
  0 <= k < ntrks m -> iv m' (iv m k) = iv m' k.
Proof.
  intros Hn Hf Hc Hk.
  destruct (Z.eq_dec (iv m k) k) as [E|Hne]; [now rewrite E|].
  destruct (compress_root minT fuel m m' Hn Hf Hc k Hk) as (f & Hw).
  destruct f as [|f]; [discriminate|]. rewrite walk_step in Hw by exact Hne.
  pose proof (forest_pointer_range minT m k Hf Hk) as Hp.
  destruct (compress_root minT fuel m m' Hn Hf Hc _ Hp) as (f' & Hw').
  eapply walk_det; eauto.
Qed.

Lemma compress_moves minT fuel m m' k :
  0 <= ntrks m -> forest minT m -> compress fuel m = Ok m' ->
  0 <= k < ntrks m -> iv m k <> k -> iv m' k <> k.
Proof.
  intros Hn Hf Hc Hk Hne E.
  destruct (compress_root minT fuel m m' Hn Hf Hc k Hk) as (f & Hw).
  destruct f as [|f]; [discriminate|]. rewrite walk_step in Hw by exact Hne.
  rewrite E in Hw.
  destruct (Hf k Hk) as [E'|(Hp & Hlt & _)]; [contradiction|].
  destruct (walk_sound minT m Hf _ _ _ Hp Hw) as (_ & _ & [E'|(Hlt' & _)]).
  - congruence.
  - pose proof (lt_trans _ _ _ Hlt Hlt') as H. rewrite lt_irrefl in H. discriminate.
Qed.

(** The root of a core item lies at a position that is not larger. *)
Lemma compress_root_position minT fuel m m' k :
  0 <= ntrks m -> forest minT m -> compress fuel m = Ok m' ->
  (forall i, 0 <= i < ntrks m -> is_finite (zt m i) = true) ->
  0 <= k < ntrks m -> Float32.le (zt m (iv m' k)) (zt m k) = true.
Proof.
  intros Hn Hf Hc Hfin Hk.
  destruct (compress_root minT fuel m m' Hn Hf Hc k Hk) as (f & Hw).
  destruct (walk_sound minT m Hf _ _ _ Hk Hw) as (_ & _ & [->|(Hlt & _)]).
  - apply le_refl. apply is_finite_not_nan. now apply Hfin.
  - now apply lt_le.
Qed.

(** ** The ids of the roots *)

(** The marking loop hands the ids [0 .. f-1] to the core roots, one
    each. *)
Lemma mark_roots_ids minT m0 m f :
  0 <= ntrks m0 <= Hist.capacity ->
  mark_roots minT m0 = (m, f) ->
  f = Z.of_nat (length (filter (fun k => (iv m0 k =? k) && (minT <=? nn m0 k))
                               (uniform_elements (ntrks m0)))) /\
  (forall c, 0 <= c < f ->
     exists k, 0 <= k < ntrks m0 /\ iv m0 k = k /\ minT <= nn m0 k /\ iv m k = - (c + 1)) /\
  (forall k k', 0 <= k < ntrks m0 -> 0 <= k' < ntrks m0 ->
     iv m0 k = k -> minT <= nn m0 k -> iv m0 k' = k' -> minT <= nn m0 k' ->
     iv m k = iv m k' -> k = k').
Proof.
  intros Hn Hm. unfold mark_roots in Hm.
  pose proof (uniform_loop_inv
    (fun i (s : Memory * Z) =>
       only_iv m0 (fst s) /\ 0 <= snd s <= i /\
       (forall k, ~ 0 <= k < i -> iv (fst s) k = iv m0 k) /\
       snd s = Z.of_nat (length (filter (fun k => (iv m0 k =? k) && (minT <=? nn m0 k))
                                        (uniform_elements i))) /\
       (forall c, 0 <= c < snd s ->
          exists k, 0 <= k < i /\ iv m0 k = k /\ minT <= nn m0 k /\
                    iv (fst s) k = - (c + 1)) /\
       (forall k, 0 <= k < i -> iv m0 k = k -> minT <= nn m0 k ->
          exists c, 0 <= c < snd s /\ iv (fst s) k = - (c + 1)) /\
       (forall k k', 0 <= k < i -> 0 <= k' < i ->
          iv m0 k = k -> minT <= nn m0 k -> iv m0 k' = k' -> minT <= nn m0 k' ->
          iv (fst s) k = iv (fst s) k' -> k = k'))
    (mark_item minT) (ntrks m0) (m0, 0) (proj1 Hn)) as H.
  rewrite Hm in H. cbn [fst snd] in H.
  assert (Hall : only_iv m0 m /\ 0 <= f <= ntrks m0 /\
       (forall k, ~ 0 <= k < ntrks m0 -> iv m k = iv m0 k) /\
       f = Z.of_nat (length (filter (fun k => (iv m0 k =? k) && (minT <=? nn m0 k))
                                    (uniform_elements (ntrks m0)))) /\
       (forall c, 0 <= c < f ->
          exists k, 0 <= k < ntrks m0 /\ iv m0 k = k /\ minT <= nn m0 k /\
                    iv m k = - (c + 1)) /\
       (forall k, 0 <= k < ntrks m0 -> iv m0 k = k -> minT <= nn m0 k ->
          exists c, 0 <= c < f /\ iv m k = - (c + 1)) /\
       (forall k k', 0 <= k < ntrks m0 -> 0 <= k' < ntrks m0 ->
          iv m0 k = k -> minT <= nn m0 k -> iv m0 k' = k' -> minT <= nn m0 k' ->
          iv m k = iv m k' -> k = k')).
  { apply H; clear H Hm.
    - split; [reflexivity|]. split; [lia|]. split; [auto|]. split; [reflexivity|].
      split; [intros c Hc; lia|]. split; intros; lia.
    - intros i [t g] Hi (F & Hg & Hout & Hcnt & Hsur & Hcode & Hinj). cbn [fst snd] in *.
      pose proof (only_iv_proj _ _ F) as (_ & _ & _ & _ & Enn & _).
      rewrite (filter_uniform_succ _ i) by lia.
      unfold mark_item. rewrite Enn.
      rewrite (Hout i) by lia.
      rewrite to_int32_small by (unfold INT32_MIN, INT32_MAX, Hist.capacity in *; lia).
      destruct (Z.eqb_spec (iv m0 i) i) as [Eroot|Hnr].
      + destruct (Z.leb_spec minT (nn m0 i)) as [Hc|Hnc].
        * unfold atomicInc.
          destruct (Z.leb_spec 4294967295 g) as [Hbig|_];
            [unfold Hist.capacity in Hn; lia|].
          cbn [fst snd andb].
          rewrite to_uint32_neg by (unfold Hist.capacity in Hn; lia).
          assert (Hold : forall k, 0 <= k < i -> iv (set_iv t i (- (g + 1))) k = iv t k).
          { intros k Hk. cbn [iv set_iv]. apply upd_other. lia. }
          assert (Hnew : iv (set_iv t i (- (g + 1))) i = - (g + 1)).
          { cbn [iv set_iv]. apply upd_same. }
          split; [eapply only_iv_trans; [exact F|apply only_iv_set_iv]|].
          split; [lia|]. split; [|split; [lia|split; [|split]]].
          -- intros k Hk. cbn [iv set_iv]. rewrite upd_other by lia. apply Hout. lia.
          -- intros c Hc'. destruct (Z.eq_dec c g) as [->|Hne].
             ++ exists i. split; [lia|]. auto.
             ++ destruct (Hsur c) as (k & Hk & H1 & H2 & H3); [lia|].
                exists k. split; [lia|]. rewrite Hold by exact Hk. auto.
          -- intros k Hk H1 H2. destruct (Z.eq_dec k i) as [->|Hne].
             ++ exists g. split; [lia|exact Hnew].
             ++ destruct (Hcode k) as (c & Hc' & E); [lia|auto|auto|].
                exists c. split; [lia|]. rewrite Hold by lia. exact E.
          -- intros k k' Hk Hk' H1 H2 H1' H2' E.
             destruct (Z.eq_dec k i) as [->|Hne]; destruct (Z.eq_dec k' i) as [->|Hne'];
               [reflexivity| | |].
             ++ exfalso. rewrite Hnew, Hold in E by lia.
                destruct (Hcode k') as (c & Hc' & E'); [lia|auto|auto|]. lia.
             ++ exfalso. rewrite Hnew, Hold in E by lia.
                destruct (Hcode k) as (c & Hc' & E'); [lia|auto|auto|]. lia.
             ++ rewrite !Hold in E by lia. apply Hinj; auto; lia.
        * cbn [fst snd andb].
          assert (Hold : forall k, 0 <= k < i -> iv (set_iv t i (-9998)) k = iv t k).
          { intros k Hk. cbn [iv set_iv]. apply upd_other. lia. }
          split; [eapply only_iv_trans; [exact F|apply only_iv_set_iv]|].
          split; [lia|]. split; [|split; [lia|split; [|split]]].
          -- intros k Hk. cbn [iv set_iv]. rewrite upd_other by lia. apply Hout. lia.
          -- intros c Hc'. destruct (Hsur c Hc') as (k & Hk & H1 & H2 & H3).
             exists k. split; [lia|]. rewrite Hold by exact Hk. auto.
          -- intros k Hk H1 H2. assert (k <> i) by (intros ->; lia).
             destruct (Hcode k) as (c & Hc' & E); [lia|auto|auto|].
             exists c. split; [lia|]. rewrite Hold by lia. exact E.
          -- intros k k' Hk Hk' H1 H2 H1' H2' E.
             assert (k <> i) by (intros ->; lia). assert (k' <> i) by (intros ->; lia).
             rewrite !Hold in E by lia. apply Hinj; auto; lia.
      + cbn [fst snd andb].
        split; [exact F|]. split; [lia|]. split; [|split; [lia|split; [|split]]].
        * intros k Hk. apply Hout. lia.
        * intros c Hc'. destruct (Hsur c Hc') as (k & Hk & R). exists k. split; [lia|exact R].
        * intros k Hk H1 H2. assert (k <> i) by (intros ->; contradiction).
          apply Hcode; auto; lia.
        * intros k k' Hk Hk' H1 H2 H1' H2' E.
          assert (k <> i) by (intros ->; contradiction).
          assert (k' <> i) by (intros ->; contradiction).
          apply Hinj; auto; lia. }
  destruct Hall as (_ & _ & _ & Hcnt & Hsur & _ & Hinj).
  split; [exact Hcnt|]. split; [exact Hsur|exact Hinj].
Qed.

(** What the propagation loop writes, over pointers whose targets carry
    a negative code. *)
Lemma propagate_value m :
  0 <= ntrks m ->
  (forall k, 0 <= k < ntrks m -> 0 <= iv m k -> iv m (iv m k) < 0) ->
  forall k, 0 <= k < ntrks m ->
    iv (propagate m) k = if 0 <=? iv m k then iv m (iv m k) else iv m k.
Proof.
  intros Hn Htgt. unfold propagate.
  assert (H : (fun i t =>
                 (forall k, ~ 0 <= k < i -> iv t k = iv m k) /\
                 (forall k, iv m k < 0 -> iv t k = iv m k) /\
                 (forall k, 0 <= k < i ->
                    iv t k = if 0 <=? iv m k then iv m (iv m k) else iv m k))
              (ntrks m) (fold_left propagate_item (uniform_elements (ntrks m)) m)).
  { apply uniform_loop_inv; [exact Hn| |].
    - split; [auto|]. split; [auto|]. intros k Hk. lia.
    - intros i t Hi (Hout & Hneg & Hin). unfold propagate_item. rewrite (Hout i) by lia.
      destruct (Z.leb_spec 0 (iv m i)) as [Hpos|Hlt].
      + rewrite (Hneg (iv m i)) by (apply Htgt; auto).
        split; [|split]; intros k Hk; cbn [iv set_iv].
        * rewrite upd_other by lia. apply Hout. lia.
        * destruct (Z.eq_dec k i) as [->|Hne]; [lia|].
          rewrite upd_other by exact Hne. now apply Hneg.
        * destruct (Z.eq_dec k i) as [->|Hne].
          -- rewrite upd_same. destruct (Z.leb_spec 0 (iv m i)); [reflexivity|lia].
          -- rewrite upd_other by exact Hne. apply Hin. lia.
      + split; [|split]; [intros k Hk; apply Hout; lia|exact Hneg|].
        intros k Hk. destruct (Z.eq_dec k i) as [->|Hne].
        * rewrite (Hout i) by lia. destruct (Z.leb_spec 0 (iv m i)); [lia|reflexivity].
        * apply Hin. lia. }
  apply H.
Qed.

(** The final label of an item is read off the code of its root. *)
Lemma final_label minT m5 m6 f :
  0 <= ntrks m5 <= Hist.capacity ->
  flat minT m5 ->
  mark_roots minT m5 = (m6, f) ->
  forall k, 0 <= k < ntrks m5 ->
    iv (adjust (propagate m6)) k = - iv m6 (iv m5 k) - 1.
Proof.
  intros Hn Hfl Hm k Hk.
  destruct (mark_roots_spec minT m5 m6 f Hn Hm) as (F6 & Hf & _ & Hmk).
  pose proof (only_iv_proj _ _ F6) as (En6 & _).
  pose proof (only_iv_proj _ _ (propagate_only_iv m6)) as (En7 & _).
  assert (Hroot : forall r, 0 <= r < ntrks m5 -> iv m5 r = r ->
                            - Hist.capacity - 1 <= iv m6 r < 0).
  { intros r Hr E. unfold Hist.capacity in *.
    destruct (Hmk r Hr) as [(_ & _ & id & Hid & ->)|[(_ & _ & ->)|(Hne & _)]];
      [lia|lia|contradiction]. }
  assert (Htgt : forall j, 0 <= j < ntrks m6 -> 0 <= iv m6 j -> iv m6 (iv m6 j) < 0).
  { intros j Hj Hpos. rewrite En6 in Hj.
    destruct (Hfl j Hj) as (Hr & Hrr & _).
    destruct (Hmk j Hj) as [(_ & _ & id & Hid & E)|[(_ & _ & E)|(Hne & E)]]; [lia|lia|].
    rewrite E. apply Hroot; auto. }
  rewrite adjust_value by lia.
  rewrite propagate_value by (auto; lia).
  destruct (Hfl k Hk) as (Hr & Hrr & _).
  pose proof (Hroot _ Hr Hrr) as Hcode.
  assert (E : (if 0 <=? iv m6 k then iv m6 (iv m6 k) else iv m6 k) = iv m6 (iv m5 k)).
  { destruct (Hmk k Hk) as [(Es & _ & id & Hid & E)|[(Es & _ & E)|(Hne & E)]].
    - rewrite Es. rewrite E. destruct (Z.leb_spec 0 (- (id + 1))); [lia|reflexivity].
    - rewrite Es. rewrite E. reflexivity.
    - rewrite E. destruct (Z.leb_spec 0 (iv m5 k)); [reflexivity|lia]. }
  rewrite E. apply to_int32_small. unfold INT32_MIN, INT32_MAX, Hist.capacity in *. lia.
Qed.

(** ** A completed run, phase by phase *)

(** The states a completed run goes through, with what each phase
    establishes and what the final memory shares with them. *)
Lemma cluster_trace zv minT eps errmax chi2max fuel m0 m' :
  0 <= ntrks m0 <= INT32_MAX ->
  clusterTracksDBSCAN zv minT eps errmax chi2max fuel m0 = Ok m' ->
  exists m1 hist m4 m6 f,
    let m2 := count_neighbours eps hist (Float32.mul errmax errmax) m1 in
    let m3 := seed minT eps hist m2 in
    let m5 := collect_edges minT eps chi2max hist m4 in
    (build_index zv m0 = Ok (m1, hist) /\ compress fuel m3 = Ok m4 /\
     mark_roots minT m5 = (m6, f) /\ f < MAXVTX zv /\
     m' = set_nv (adjust (propagate m6)) f) /\
    (0 <= ntrks m0 <= Hist.capacity /\ ntrks m2 = ntrks m0 /\ zt m2 = zt m0 /\
     ezt2 m2 = ezt2 m0) /\
    (prepared m2 hist /\ seeded minT eps hist m2 m3 /\ forest minT m3 /\
     compressed_upto minT m3 (ntrks m3) m4 /\ prepared m4 hist /\
     edged minT eps chi2max hist m4 m5 /\ flat minT m5) /\
    (only_iv m2 m3 /\ only_iv m2 m4 /\ only_iv m2 m5 /\
     only_iv m2 (adjust (propagate m6))).
Proof.
  intros Hn H. apply cluster_inv in H.
  destruct H as (m1 & hist & m4 & m6 & f & Hb & Hc & Hm & Hf & ->).
  exists m1, hist, m4, m6, f. intros m2 m3 m5.
  destruct (link_structure zv minT eps errmax chi2max fuel m0 m1 hist m4 Hn Hb Hc)
    as (Hp2 & Hs & Hfo & Hcu & Hp4 & He & Hfl & F5 & En2).
  fold m2 in Hp2, Hs, Hfo, Hcu, He, Hfl, F5, En2. fold m3 in Hs, Hfo, Hcu.
  fold m5 in He, Hfl, F5.
  destruct (build_index_spec zv m0 m1 hist Hn Hb) as ((_ & Ez1 & Ee1 & _) & _).
  pose proof (only_nn_proj _ _ (count_neighbours_only_nn eps hist (Float32.mul errmax errmax) m1))
    as (_ & Ez2 & Ee2 & _).
  fold m2 in Ez2, Ee2.
  pose proof (seed_only_iv minT eps hist m2) as F3. fold m3 in F3.
  pose proof (compress_only_iv _ _ _ Hc) as F4.
  pose proof (only_iv_proj _ _ F5) as (En5 & _).
  assert (Hcap : 0 <= ntrks m0 <= Hist.capacity).
  { destruct Hp2 as [? _]. lia. }
  assert (Hn5 : 0 <= ntrks m5 <= Hist.capacity) by lia.
  destruct (relabel_structure minT m5 m6 f Hn5 Hfl Hm) as (F8 & _).
  split; [split; [exact Hb|]; split; [exact Hc|]; split; [exact Hm|];
          split; [exact Hf|reflexivity]|].
  split; [split; [exact Hcap|]; split; [exact En2|]; split; congruence|].
  split; [split; [exact Hp2|]; split; [exact Hs|]; split; [exact Hfo|];
          split; [exact Hcu|]; split; [exact Hp4|]; split; [exact He|exact Hfl]|].
  split; [exact F3|]. split; [exact (only_iv_trans _ _ _ F3 F4)|]. split; [exact F5|].
  exact (only_iv_trans _ _ _ F5 F8).
Qed.

(** What the vocabulary reads is what the phases leave alone. *)
Lemma visited_frame m m' i j : only_iv m m' -> (visited m' i j <-> visited m i j).
Proof.
  intros F. apply only_iv_proj in F. destruct F as (En & _ & _ & Ei & _).
  unfold visited. now rewrite En, Ei.
Qed.

Lemma seed_candidate_frame minT eps m m' i j :
  only_iv m m' -> (seed_candidate minT eps m' i j <-> seed_candidate minT eps m i j).
Proof.
  intros F. apply only_iv_proj in F. destruct F as (_ & Ez & _ & _ & Enn & _).
  unfold seed_candidate, dist. now rewrite Ez, Enn.
Qed.

Lemma is_root_frame minT eps m m' i :
  only_iv m m' -> is_root minT eps m' i = is_root minT eps m i.
Proof.
  intros F. apply only_iv_proj in F. destruct F as (En & Ez & _ & Ei & Enn & _).
  unfold is_root, is_seed_candidate, adjacent, dist. now rewrite En, Ez, Ei, Enn.
Qed.

Lemma roots_frame minT eps m m' : only_iv m m' -> roots minT eps m' = roots minT eps m.
Proof.
  intros F. unfold roots. rewrite (proj1 (only_iv_proj _ _ F)).
  apply filter_ext. intros i. now apply is_root_frame.
Qed.

Lemma only_iv_sym m m' : only_iv m m' -> only_iv m' m.
Proof. unfold only_iv. congruence. Qed.

(** A seeding candidate in the buckets around an item, as a boolean. *)
Lemma is_seed_candidate_spec minT eps m i j :
  is_seed_candidate minT eps m i j = true <->
  Z.abs (izt m i - izt m j) <= 1 /\ seed_candidate minT eps m i j.
Proof.
  unfold is_seed_candidate, seed_candidate, adjacent, Float32.lt.
  rewrite !andb_true_iff, Z.leb_le, Z.leb_le, negb_true_iff. tauto.
Qed.

Lemma is_root_spec minT eps m i :
  is_root minT eps m i = true <->
  minT <= nn m i /\ forall j, visited m i j -> ~ seed_candidate minT eps m i j.
Proof.
  unfold is_root. rewrite andb_true_iff, Z.leb_le, negb_true_iff.
  split; intros [Hc H]; (split; [exact Hc|]).
  - intros j [Hj Ha] Hcand.
    assert (Hex : existsb (is_seed_candidate minT eps m i) (uniform_elements (ntrks m)) = true).
    { apply existsb_exists. exists j. split; [now apply In_uniform_elements|].
      apply is_seed_candidate_spec. auto. }
    congruence.
  - destruct (existsb _ _) eqn:E; [|reflexivity]. exfalso.
    apply existsb_exists in E. destruct E as (j & Hj & Hcand).
    apply In_uniform_elements in Hj. apply is_seed_candidate_spec in Hcand.
    destruct Hcand as [Ha Hcand]. apply (H j); [split; auto|exact Hcand].
Qed.

(** After seeding, the core items that still point at themselves are the
    roots. *)
Lemma seeded_root minT eps hist m2 m3 i :
  prepared m2 hist -> seeded minT eps hist m2 m3 -> 0 <= i < ntrks m2 ->
  (is_root minT eps m2 i = true <-> minT <= nn m2 i /\ iv m3 i = i).
Proof.
  intros (_ & _ & Hq) (_ & _ & Hs) Hi. rewrite is_root_spec.
  destruct (Hs i Hi) as (_ & Hcore).
  split; intros [Hc H]; (split; [exact Hc|]).
  - destruct (Hcore Hc) as [[E _]|(Hin & Hcand & _)]; [exact E|].
    exfalso. apply (H (iv m3 i)); [now apply (Hq i)|exact Hcand].
  - intros j Hj Hcand.
    destruct (Hcore Hc) as [[_ Hnone]|(_ & (_ & Hlt & _) & _)].
    + apply (Hnone j); [now apply (Hq i)|exact Hcand].
    + rewrite H, lt_irrefl in Hlt. discriminate.
Qed.

(** ** Roots, ids and labels of a completed run *)

Lemma run_root minT eps chi2max fuel hist m2 m3 m4 m5 :
  prepared m2 hist -> seeded minT eps hist m2 m3 -> forest minT m3 ->
  compress fuel m3 = Ok m4 -> edged minT eps chi2max hist m4 m5 ->
  only_iv m2 m3 -> only_iv m2 m4 -> only_iv m2 m5 ->
  forall k, 0 <= k < ntrks m2 ->
    (is_root minT eps m2 k = true <-> minT <= nn m5 k /\ iv m5 k = k).
Proof.
  intros Hp Hs Hfo Hc He F3 F4 F5 k Hk.
  pose proof (only_iv_proj _ _ F3) as (En3 & _).
  pose proof (only_iv_proj _ _ F4) as (En4 & _ & _ & _ & Enn4 & _).
  pose proof (only_iv_proj _ _ F5) as (En5 & _ & _ & _ & Enn5 & _).
  assert (Hn3 : 0 <= ntrks m3) by (destruct Hp as [? _]; lia).
  assert (Hk3 : 0 <= k < ntrks m3) by lia.
  rewrite (seeded_root minT eps hist m2 m3 k Hp Hs Hk). rewrite Enn5.
  destruct He as (_ & _ & He). destruct (He k) as [Hcore _]; [lia|].
  rewrite Enn4 in Hcore.
  split; intros [Hc' E]; (split; [exact Hc'|]).
  - rewrite (Hcore Hc'). eapply compress_keeps_root; eauto.
  - destruct (Z.eq_dec (iv m3 k) k) as [E3|Hne]; [exact E3|]. exfalso.
    rewrite (Hcore Hc') in E. revert E. eapply compress_moves; eauto.
Qed.

Lemma is_root_range minT eps m i : In i (roots minT eps m) -> 0 <= i < ntrks m.
Proof. unfold roots. rewrite filter_In, In_uniform_elements. tauto. Qed.

Lemma bool_eq_iff (a b : bool) : (a = true <-> b = true) -> a = b.
Proof. destruct a, b; intros [H1 H2]; try reflexivity; [symmetry; now apply H1|now apply H2]. Qed.

(** X1. The number of neighbours: once the kernel returns, [nn[i]] is 0 for
    an item whose variance exceeds [errmax * errmax] and otherwise the
    number of the other items of the buckets within one of [i]'s bucket
    that are not farther than [eps]; it is below the item count, so the
    increments of line 112 never wrap. *)
Theorem neighbour_count_exact zv minT eps errmax chi2max fuel m m' :
  0 <= ntrks m <= INT32_MAX ->
  clusterTracksDBSCAN zv minT eps errmax chi2max fuel m = Ok m' ->
  forall i, 0 <= i < ntrks m ->
    nn m' i = (if Float32.gt (ezt2 m i) (Float32.mul errmax errmax)
               then 0 else neighbours eps m' i) /\
    0 <= nn m' i < ntrks m.
Proof.
  intros Hn H i Hi.
  destruct (cluster_trace _ _ _ _ _ _ _ _ Hn H)
    as (m1 & hist & m4 & m6 & f & (Hb & _ & _ & _ & ->) & _ & _ & (_ & _ & _ & F8)).
  destruct (build_index_spec zv m m1 hist Hn Hb) as ((En1 & Ez1 & Ee1 & _) & Hlo & _ & Hp1).
  pose proof (build_index_nodup zv m m1 hist Hn Hb) as Hnd.
  destruct (count_neighbours_value eps hist (Float32.mul errmax errmax) m1 Hp1)
    as (Hval & _).
  { intros k _. apply Hnd. }
  { intros k Hk. apply Hlo. lia. }
  pose proof (only_nn_proj _ _ (count_neighbours_only_nn eps hist (Float32.mul errmax errmax) m1))
    as (En2 & Ez2 & _ & Ei2 & _).
  pose proof (only_iv_proj _ _ F8) as (En8 & Ez8 & _ & Ei8 & Enn8 & _).
  cbn [nn set_nv]. rewrite Enn8.
  assert (E : neighbours eps (set_nv (adjust (propagate m6)) f) i = neighbours eps m1 i).
  { change (neighbours eps (set_nv (adjust (propagate m6)) f) i)
      with (neighbours eps (adjust (propagate m6)) i).
    apply neighbours_frame; congruence. }
  rewrite E, Hval by lia. rewrite Ee1. split; [reflexivity|].
  destruct (Float32.gt (ezt2 m i) (Float32.mul errmax errmax)); [lia|].
  rewrite <- En1. apply neighbours_bound. lia.
Qed.

Lemma neighbour_count_exact_witness :
  exists m',
    clusterTracksDBSCAN zv 2 f_0_05 f_1 f_9 5 scenario5 = Ok m' /\
    forall i, 0 <= i < 5 ->
      nn m' i = (if Float32.gt (ezt2 scenario5 i) (Float32.mul f_1 f_1)
                 then 0 else neighbours f_0_05 m' i) /\
      0 <= nn m' i < 5.
Proof.
  destruct (clusterTracksDBSCAN zv 2 f_0_05 f_1 f_9 5 scenario5) as [m'| | |] eqn:H;
    try (vm_compute in H; discriminate).
  exists m'. split; [reflexivity|].
  apply (neighbour_count_exact zv 2 f_0_05 f_1 f_9 5 scenario5 m'); [|exact H].
  vm_compute. split; discriminate.
Defined.

(** X2. The number of clusters: [nvFinal] is the number of roots, the core
    items that have no core item at a strictly smaller position, not
    farther than [eps], in the buckets within one of their own. *)
Theorem cluster_count_exact zv minT eps errmax chi2max fuel m m' :
  0 <= ntrks m <= INT32_MAX ->
  clusterTracksDBSCAN zv minT eps errmax chi2max fuel m = Ok m' ->
  nvFinal m' = Z.of_nat (length (roots minT eps m')).
Proof.
  intros Hn H.
  destruct (cluster_trace _ _ _ _ _ _ _ _ Hn H)
    as (m1 & hist & m4 & m6 & f & (Hb & Hc & Hm & _ & ->) & (Hcap & En2 & _) &
        (Hp2 & Hs & Hfo & _ & _ & He & _) & (F3 & F4 & F5 & F8)).
  pose proof (only_iv_proj _ _ F5) as (En5 & _).
  assert (Hn5 : 0 <= ntrks (collect_edges minT eps chi2max hist m4) <= Hist.capacity) by lia.
  destruct (mark_roots_ids minT _ m6 f Hn5 Hm) as (Hcnt & _).
  change (roots minT eps (set_nv (adjust (propagate m6)) f))
    with (roots minT eps (adjust (propagate m6))).
  change (nvFinal (set_nv (adjust (propagate m6)) f)) with f.
  rewrite Hcnt. f_equal. f_equal.
  rewrite (roots_frame minT eps _ _ F8). unfold roots. rewrite En5.
  apply filter_ext_in. intros k Hk. apply In_uniform_elements in Hk.
  apply bool_eq_iff.
  rewrite (run_root minT eps chi2max fuel hist _ _ m4 _ Hp2 Hs Hfo Hc He F3 F4 F5 k Hk).
  rewrite andb_true_iff, Z.eqb_eq, Z.leb_le. tauto.
Qed.

Lemma cluster_count_exact_witness :
  exists m',
    clusterTracksDBSCAN zv 2 f_0_05 f_1 f_9 5 scenario5 = Ok m' /\
    nvFinal m' = Z.of_nat (length (roots 2 f_0_05 m')).
Proof.
  destruct (clusterTracksDBSCAN zv 2 f_0_05 f_1 f_9 5 scenario5) as [m'| | |] eqn:H;
    try (vm_compute in H; discriminate).
  exists m'. split; [reflexivity|].
  apply (cluster_count_exact zv 2 f_0_05 f_1 f_9 5 scenario5 m'); [|exact H].
  vm_compute. split; discriminate.
Defined.

(** The pieces of [cluster_trace], under fixed names. *)
Ltac open_trace Hn H :=
  destruct (cluster_trace _ _ _ _ _ _ _ _ Hn H)
    as (m1 & hist & m4 & m6 & f & (Hb & Hc & Hm & Hf & ->) & (Hcap & En2 & Ez2 & Ee2) &
        (Hp2 & Hs & Hfo & Hcu & Hp4 & He & Hfl) & (F3 & F4 & F5 & F8));
  match type of Hm with
  | mark_roots _ ?x = _ => set (m5 := x) in *
  end;
  match type of Hc with
  | compress _ ?x = _ => set (m3 := x) in *
  end;
  match type of Hp2 with
  | prepared ?x _ => set (m2 := x) in *
  end.

Lemma run_label minT m5 m6 f k :
  0 <= ntrks m5 <= Hist.capacity -> flat minT m5 -> mark_roots minT m5 = (m6, f) ->
  0 <= k < ntrks m5 ->
  iv (set_nv (adjust (propagate m6)) f) k = - iv m6 (iv m5 k) - 1.
Proof. intros Hn Hfl Hm Hk. now apply (final_label minT m5 m6 f). Qed.

(** The code the marking loop leaves on a root. *)
Lemma root_code minT m5 m6 f r :
  0 <= ntrks m5 <= Hist.capacity -> mark_roots minT m5 = (m6, f) ->
  0 <= r < ntrks m5 -> iv m5 r = r ->
  (minT <= nn m5 r /\ exists c, 0 <= c < f /\ iv m6 r = - (c + 1)) \/
  (nn m5 r < minT /\ iv m6 r = -9998).
Proof.
  intros Hn Hm Hr E.
  destruct (mark_roots_spec minT m5 m6 f Hn Hm) as (_ & _ & _ & Hmk).
  destruct (Hmk r Hr) as [(_ & Hc & id & Hid & Ev)|[(_ & Hnc & Ev)|(Hne & _)]].
  - left. split; [exact Hc|]. now exists id.
  - right. auto.
  - contradiction.
Qed.

(** X3. The ids and the roots correspond one to one: every id below
    [nvFinal] is the final label of a root, and two different roots end
    with different labels. *)
Theorem ids_one_to_one zv minT eps errmax chi2max fuel m m' :
  0 <= ntrks m <= INT32_MAX ->
  clusterTracksDBSCAN zv minT eps errmax chi2max fuel m = Ok m' ->
  (forall c, 0 <= c < nvFinal m' -> exists r, In r (roots minT eps m') /\ iv m' r = c) /\
  (forall r r', In r (roots minT eps m') -> In r' (roots minT eps m') ->
                iv m' r = iv m' r' -> r = r').
Proof.
  intros Hn H. open_trace Hn H.
  pose proof (only_iv_proj _ _ F5) as (En5 & _).
  assert (Hn5 : 0 <= ntrks m5 <= Hist.capacity) by lia.
  destruct (mark_roots_ids minT m5 m6 f Hn5 Hm) as (_ & Hsur & Hinj).
  assert (Hroots : forall r, In r (roots minT eps (set_nv (adjust (propagate m6)) f)) <->
                             0 <= r < ntrks m5 /\ minT <= nn m5 r /\ iv m5 r = r).
  { intros r.
    change (roots minT eps (set_nv (adjust (propagate m6)) f))
      with (roots minT eps (adjust (propagate m6))).
    rewrite (roots_frame minT eps _ _ F8). unfold roots.
    rewrite filter_In, In_uniform_elements, En5. split.
    - intros [Hr Hroot]. split; [exact Hr|].
      now apply (run_root minT eps chi2max fuel hist m2 m3 m4 m5).
    - intros [Hr Hroot]. split; [exact Hr|].
      now apply (run_root minT eps chi2max fuel hist m2 m3 m4 m5). }
  split.
  - intros c Hc'. change (nvFinal (set_nv (adjust (propagate m6)) f)) with f in Hc'.
    destruct (Hsur c Hc') as (k & Hk & Eroot & Hcore & Ecode).
    exists k. split; [apply Hroots; auto|].
    rewrite (run_label minT m5 m6 f k Hn5 Hfl Hm Hk), Eroot, Ecode. lia.
  - intros r r' Hr Hr' E.
    apply Hroots in Hr. apply Hroots in Hr'.
    destruct Hr as (Hr & Hcr & Er). destruct Hr' as (Hr' & Hcr' & Er').
    rewrite (run_label minT m5 m6 f r Hn5 Hfl Hm Hr) in E.
    rewrite (run_label minT m5 m6 f r' Hn5 Hfl Hm Hr') in E.
    rewrite Er, Er' in E.
    apply Hinj; auto. lia.
Qed.

Lemma ids_one_to_one_witness :
  exists m',
    clusterTracksDBSCAN zv 2 f_0_05 f_1 f_9 3 ties3 = Ok m' /\
    (forall c, 0 <= c < nvFinal m' -> exists r, In r (roots 2 f_0_05 m') /\ iv m' r = c) /\
    (forall r r', In r (roots 2 f_0_05 m') -> In r' (roots 2 f_0_05 m') ->
                  iv m' r = iv m' r' -> r = r').
Proof.
  destruct (clusterTracksDBSCAN zv 2 f_0_05 f_1 f_9 3 ties3) as [m'| | |] eqn:H;
    try (vm_compute in H; discriminate).
  exists m'. split; [reflexivity|].
  apply (ids_one_to_one zv 2 f_0_05 f_1 f_9 3 ties3 m'); [|exact H].
  vm_compute. split; discriminate.
Defined.

(** X4. Every item that does not end as noise carries the label of a
    root, and the root of a core item lies at a position that is not
    larger than the item's. *)
Theorem label_of_root zv minT eps errmax chi2max fuel m m' :
  0 <= ntrks m <= INT32_MAX ->
  clusterTracksDBSCAN zv minT eps errmax chi2max fuel m = Ok m' ->
  forall i, 0 <= i < ntrks m -> iv m' i <> 9997 ->
    exists r, In r (roots minT eps m') /\ iv m' r = iv m' i /\
              (minT <= nn m' i -> Float32.le (zt m r) (zt m i) = true).
Proof.
  intros Hn H i Hi Hlab. open_trace Hn H.
  pose proof (only_iv_proj _ _ F3) as (En3 & Ez3 & _).
  pose proof (only_iv_proj _ _ F4) as (En4 & _ & _ & _ & Enn4 & _).
  pose proof (only_iv_proj _ _ F5) as (En5 & _ & _ & _ & Enn5 & _).
  pose proof (only_iv_proj _ _ F8) as (En8 & _ & _ & _ & Enn8 & _).
  assert (Hn5 : 0 <= ntrks m5 <= Hist.capacity) by lia.
  assert (Hi5 : 0 <= i < ntrks m5) by lia.
  rewrite (run_label minT m5 m6 f i Hn5 Hfl Hm Hi5) in Hlab.
  destruct (Hfl i Hi5) as (Hr & Hrr & _).
  exists (iv m5 i).
  destruct (root_code minT m5 m6 f (iv m5 i) Hn5 Hm Hr Hrr)
    as [(Hcr & _)|(_ & Ecode)]; [|rewrite Ecode in Hlab; lia].
  split; [|split].
  - change (roots minT eps (set_nv (adjust (propagate m6)) f))
      with (roots minT eps (adjust (propagate m6))).
    rewrite (roots_frame minT eps _ _ F8). unfold roots.
    rewrite filter_In, In_uniform_elements. split; [lia|].
    apply (run_root minT eps chi2max fuel hist m2 m3 m4 m5); auto. lia.
  - rewrite (run_label minT m5 m6 f _ Hn5 Hfl Hm Hr).
    rewrite (run_label minT m5 m6 f i Hn5 Hfl Hm Hi5). now rewrite Hrr.
  - change (nn (set_nv (adjust (propagate m6)) f) i) with (nn (adjust (propagate m6)) i).
    rewrite Enn8. intros Hci.
    destruct He as (_ & _ & He). destruct (He i) as [Hcore _]; [lia|].
    rewrite Hcore by (rewrite Enn4; exact Hci).
    rewrite <- Ez2, <- Ez3.
    assert (Hn3 : 0 <= ntrks m3) by lia.
    apply (compress_root_position minT fuel m3 m4 i Hn3 Hfo Hc); [|lia].
    intros k Hk. rewrite Ez3. destruct Hp2 as (_ & Hfin & _). apply Hfin. lia.
Qed.

Lemma label_of_root_witness :
  exists m',
    clusterTracksDBSCAN zv 2 f_0_05 f_1 f_9 5 scenario5 = Ok m' /\
    forall i, 0 <= i < 5 -> iv m' i <> 9997 ->
      exists r, In r (roots 2 f_0_05 m') /\ iv m' r = iv m' i /\
                (2 <= nn m' i -> Float32.le (zt scenario5 r) (zt scenario5 i) = true).
Proof.
  destruct (clusterTracksDBSCAN zv 2 f_0_05 f_1 f_9 5 scenario5) as [m'| | |] eqn:H;
    try (vm_compute in H; discriminate).
  exists m'. split; [reflexivity|].
  apply (label_of_root zv 2 f_0_05 f_1 f_9 5 scenario5 m'); [|exact H].
  vm_compute. split; discriminate.
Defined.

(** ** Members of a cluster *)

(** The vocabulary of the statements, read on the final memory. *)
Lemma final_visited m2 m8 f i j :
  only_iv m2 m8 -> (visited (set_nv m8 f) i j <-> visited m2 i j).
Proof. intros F. apply (visited_frame m2 m8 i j F). Qed.

Lemma final_seed_candidate minT eps m2 m8 f i j :
  only_iv m2 m8 ->
  (seed_candidate minT eps (set_nv m8 f) i j <-> seed_candidate minT eps m2 i j).
Proof. intros F. apply (seed_candidate_frame minT eps m2 m8 i j F). Qed.

Lemma final_edge_candidate minT eps chi2max m2 m8 f i j :
  only_iv m2 m8 ->
  (edge_candidate minT eps chi2max (set_nv m8 f) i j <->
   edge_candidate minT eps chi2max m2 i j).
Proof. intros F. apply (edge_candidate_frame minT eps chi2max m2 m8 i j F). Qed.

(** X5. A core item that is not a root ends with the label of the core
    item the seeding loop chose for it: one at the smallest position
    among the core items at a strictly smaller position, not farther than
    [eps], in the buckets within one of its own. *)
Theorem core_label_from_parent zv minT eps errmax chi2max fuel m m' :
  0 <= ntrks m <= INT32_MAX ->
  clusterTracksDBSCAN zv minT eps errmax chi2max fuel m = Ok m' ->
  forall i, 0 <= i < ntrks m -> minT <= nn m' i ->
    In i (roots minT eps m') \/
    exists j, visited m' i j /\ seed_candidate minT eps m' i j /\
              (forall j', visited m' i j' -> seed_candidate minT eps m' i j' ->
                          Float32.le (zt m' j) (zt m' j') = true) /\
              iv m' i = iv m' j.
Proof.
  intros Hn H i Hi Hci. open_trace Hn H.
  pose proof (only_iv_proj _ _ F3) as (En3 & _).
  pose proof (only_iv_proj _ _ F4) as (En4 & _ & _ & _ & Enn4 & _).
  pose proof (only_iv_proj _ _ F5) as (En5 & _ & _ & _ & Enn5 & _).
  pose proof (only_iv_proj _ _ F8) as (En8 & Ez8 & _ & _ & Enn8 & _).
  change (nn (set_nv (adjust (propagate m6)) f) i) with (nn (adjust (propagate m6)) i) in Hci.
  rewrite Enn8 in Hci.
  assert (Hn5 : 0 <= ntrks m5 <= Hist.capacity) by lia.
  assert (Hi2 : 0 <= i < ntrks m2) by lia.
  destruct (is_root minT eps m2 i) eqn:Eroot.
  - left.
    change (roots minT eps (set_nv (adjust (propagate m6)) f))
      with (roots minT eps (adjust (propagate m6))).
    rewrite (roots_frame minT eps _ _ F8). unfold roots.
    rewrite filter_In, In_uniform_elements. auto.
  - right.
    destruct Hp2 as (_ & _ & Hq).
    destruct Hs as (_ & _ & Hs'). destruct (Hs' i Hi2) as (_ & Hcore).
    destruct (Hcore Hci) as [[E Hnone]|(Hin & Hcand & Hmin)].
    + exfalso. assert (is_root minT eps m2 i = true); [|congruence].
      apply is_root_spec. split; [exact Hci|].
      intros j Hj. apply Hnone. now apply (Hq i).
    + exists (iv m3 i).
      apply (Hq i _ Hi2) in Hin.
      split; [apply (proj2 (final_visited m2 _ f i _ F8)); exact Hin|].
      split; [apply (proj2 (final_seed_candidate minT eps m2 _ f i _ F8)); exact Hcand|].
      split.
      * intros j' Hj' Hc'.
        apply (proj1 (final_visited m2 _ f i _ F8)) in Hj'.
        apply (proj1 (final_seed_candidate minT eps m2 _ f i _ F8)) in Hc'.
        change (zt (set_nv (adjust (propagate m6)) f)) with (zt (adjust (propagate m6))).
        rewrite Ez8. apply Hmin; [apply (Hq i _ Hi2); exact Hj'|exact Hc'].
      * destruct Hin as [Hp _]. destruct Hcand as (Hcp & _).
        rewrite (run_label minT m5 m6 f i Hn5 Hfl Hm) by lia.
        rewrite (run_label minT m5 m6 f _ Hn5 Hfl Hm) by lia.
        destruct He as (_ & _ & He).
        destruct (He i) as [Hci5 _]; [lia|].
        destruct (He (iv m3 i)) as [Hcp5 _]; [lia|].
        rewrite Hci5 by (rewrite Enn4; exact Hci).
        rewrite Hcp5 by (rewrite Enn4; exact Hcp).
        assert (Hn3 : 0 <= ntrks m3) by lia.
        rewrite (compress_parent minT fuel m3 m4 i Hn3 Hfo Hc) by lia.
        reflexivity.
Qed.

Lemma core_label_from_parent_witness :
  exists m',
    clusterTracksDBSCAN zv 2 f_0_05 f_1 f_9 5 scenario5 = Ok m' /\
    forall i, 0 <= i < 5 -> 2 <= nn m' i ->
      In i (roots 2 f_0_05 m') \/
      exists j, visited m' i j /\ seed_candidate 2 f_0_05 m' i j /\
                (forall j', visited m' i j' -> seed_candidate 2 f_0_05 m' i j' ->
                            Float32.le (zt m' j) (zt m' j') = true) /\
                iv m' i = iv m' j.
Proof.
  destruct (clusterTracksDBSCAN zv 2 f_0_05 f_1 f_9 5 scenario5) as [m'| | |] eqn:H;
    try (vm_compute in H; discriminate).
  exists m'. split; [reflexivity|].
  apply (core_label_from_parent zv 2 f_0_05 f_1 f_9 5 scenario5 m'); [|exact H].
  vm_compute. split; discriminate.
Defined.

(** What the edge phase does with an item that is not a core item: it
    stays a root of its own, or it takes the root of a nearest
    candidate, a core root different from the item. *)
Lemma edge_cases minT eps chi2max hist m3 m4 m5 i :
  prepared m4 hist -> compressed_upto minT m3 (ntrks m3) m4 ->
  edged minT eps chi2max hist m4 m5 -> flat minT m5 ->
  0 <= i < ntrks m4 -> nn m4 i < minT ->
  (iv m5 i = i /\ forall j, visited m4 i j -> ~ edge_candidate minT eps chi2max m4 i j) \/
  (iv m5 i <> i /\
   exists j, visited m4 i j /\ edge_candidate minT eps chi2max m4 i j /\
     (forall j', visited m4 i j' -> edge_candidate minT eps chi2max m4 i j' ->
                 Float32.le (dist m4 i j) (dist m4 i j') = true) /\
     iv m5 i = iv m5 j).
Proof.
  intros Hp4 Hcu He Hfl Hi Hnc.
  pose proof (compressed_flat minT m3 m4 Hcu) as Hfl4.
  destruct Hp4 as (_ & _ & Hq).
  destruct He as (F5 & _ & He).
  pose proof (only_iv_proj _ _ F5) as (En5 & _ & _ & _ & Enn5 & _).
  destruct (He i Hi) as (_ & Hedge).
  destruct (Hedge Hnc) as [[E Hnone]|(j & Hin & Hcand & E & Hmin)].
  - left. split.
    + rewrite E. apply (flat_noncore_self minT m3 m4 i Hcu Hi Hnc).
    + intros j Hj. apply Hnone. now apply (Hq i).
  - right.
    apply (Hq i _ Hi) in Hin.
    destruct Hin as [Hj Ha]. destruct Hcand as (Hcj & Hrest).
    destruct (He j Hj) as (Hcore & _).
    destruct (Hfl4 j Hj) as (Hr & Hrr & _ & Hcr).
    split.
    + intros Eself. rewrite E in Eself. specialize (Hcr Hcj). rewrite Eself in Hcr. lia.
    + exists j. split; [split; auto|]. split; [split; auto|]. split.
      * intros j' Hj' Hc'. apply Hmin; [now apply (Hq i)|exact Hc'].
      * rewrite E. symmetry. now apply Hcore.
Qed.

(** X6. An item that is not a core item and has a candidate ends with
    the label of a nearest one: a core item of the buckets within one of
    its own, not farther than [eps] and within the chi-square budget,
    such that no other candidate is nearer.  The label is a cluster
    id. *)
Theorem edge_label_from_nearest zv minT eps errmax chi2max fuel m m' :
  0 <= ntrks m <= INT32_MAX ->
  clusterTracksDBSCAN zv minT eps errmax chi2max fuel m = Ok m' ->
  forall i, 0 <= i < ntrks m -> nn m' i < minT ->
    (exists j, visited m' i j /\ edge_candidate minT eps chi2max m' i j) ->
    exists j, visited m' i j /\ edge_candidate minT eps chi2max m' i j /\
      (forall j', visited m' i j' -> edge_candidate minT eps chi2max m' i j' ->
                  Float32.le (dist m' i j) (dist m' i j') = true) /\
      iv m' i = iv m' j /\ 0 <= iv m' i < nvFinal m'.
Proof.
  intros Hn H i Hi Hnc (j0 & Hv0 & Hc0). open_trace Hn H.
  pose proof (only_iv_proj _ _ F4) as (En4 & Ez4 & _ & _ & Enn4 & _).
  pose proof (only_iv_proj _ _ F5) as (En5 & _ & _ & _ & Enn5 & _).
  pose proof (only_iv_proj _ _ F8) as (En8 & Ez8 & _ & _ & Enn8 & _).
  pose proof (only_iv_proj _ _ F3) as (En3 & _).
  change (nn (set_nv (adjust (propagate m6)) f) i) with (nn (adjust (propagate m6)) i) in Hnc.
  rewrite Enn8 in Hnc.
  assert (Hn5 : 0 <= ntrks m5 <= Hist.capacity) by lia.
  assert (F48 : only_iv m4 (adjust (propagate m6))).
  { eapply only_iv_trans; [apply only_iv_sym; exact F4|exact F8]. }
  assert (Hi4 : 0 <= i < ntrks m4) by lia.
  assert (Hnc4 : nn m4 i < minT) by (rewrite Enn4; exact Hnc).
  destruct (edge_cases minT eps chi2max hist m3 m4 m5 i Hp4 Hcu He Hfl Hi4 Hnc4)
    as [[_ Hnone]|(Hne & j & Hv & Hcand & Hmin & E)].
  - exfalso. apply (Hnone j0).
    + apply (proj1 (final_visited m4 _ f i _ F48)); exact Hv0.
    + apply (proj1 (final_edge_candidate minT eps chi2max m4 _ f i _ F48)); exact Hc0.
  - exists j.
    split; [apply (proj2 (final_visited m4 _ f i _ F48)); exact Hv|].
    split; [apply (proj2 (final_edge_candidate minT eps chi2max m4 _ f i _ F48)); exact Hcand|].
    split; [|split].
    + intros j' Hj' Hc'.
      apply (proj1 (final_visited m4 _ f i _ F48)) in Hj'.
      apply (proj1 (final_edge_candidate minT eps chi2max m4 _ f i _ F48)) in Hc'.
      change (dist (set_nv (adjust (propagate m6)) f)) with (dist (adjust (propagate m6))).
      unfold dist. rewrite Ez8, <- Ez4. apply Hmin; assumption.
    + destruct Hv as [Hj _].
      rewrite (run_label minT m5 m6 f i Hn5 Hfl Hm) by lia.
      rewrite (run_label minT m5 m6 f j Hn5 Hfl Hm) by lia.
      now rewrite E.
    + rewrite (run_label minT m5 m6 f i Hn5 Hfl Hm) by lia.
      change (nvFinal (set_nv (adjust (propagate m6)) f)) with f.
      destruct (Hfl i) as (Hr & Hrr & Hcr & _); [lia|].
      specialize (Hcr Hne).
      destruct (root_code minT m5 m6 f (iv m5 i) Hn5 Hm Hr Hrr)
        as [(_ & c & Hc' & ->)|(Hncr & _)]; lia.
Qed.

Lemma edge_label_from_nearest_witness :
  exists m',
    clusterTracksDBSCAN zv 2 f_0_05 f_1 f_9 4 edge4 = Ok m' /\
    nn m' 3 < 2 /\
    exists j, visited m' 3 j /\ edge_candidate 2 f_0_05 f_9 m' 3 j /\
      (forall j', visited m' 3 j' -> edge_candidate 2 f_0_05 f_9 m' 3 j' ->
                  Float32.le (dist m' 3 j) (dist m' 3 j') = true) /\
      iv m' 3 = iv m' j /\ 0 <= iv m' 3 < nvFinal m'.
Proof.
  destruct (clusterTracksDBSCAN zv 2 f_0_05 f_1 f_9 4 edge4) as [m'| | |] eqn:H;
    try (vm_compute in H; discriminate).
  assert (Hnn : nn m' 3 < 2).
  { vm_compute in H. injection H as <-. vm_compute. reflexivity. }
  exists m'. split; [reflexivity|]. split; [exact Hnn|].
  apply (edge_label_from_nearest zv 2 f_0_05 f_1 f_9 4 edge4 m').
  - vm_compute. split; discriminate.
  - exact H.
  - vm_compute. split; [discriminate|reflexivity].
  - exact Hnn.
  - exists 2. vm_compute in H. injection H as <-. vm_compute.
    repeat split; try discriminate; reflexivity.
Defined.

(** ** Noise, and the slots beyond the item count *)

(** X7. As long as [MAXVTX] does not exceed 9998, the items that end with
    the noise value 9997 are exactly the items that are not core items
    and have no candidate: no core item of the buckets within one of
    their own that is not farther than [eps] and within the chi-square
    budget. *)
Theorem noise_iff zv minT eps errmax chi2max fuel m m' :
  0 <= ntrks m <= INT32_MAX ->
  MAXVTX zv <= 9998 ->
  clusterTracksDBSCAN zv minT eps errmax chi2max fuel m = Ok m' ->
  forall i, 0 <= i < ntrks m ->
    (iv m' i = 9997 <->
     nn m' i < minT /\
     forall j, visited m' i j -> ~ edge_candidate minT eps chi2max m' i j).
Proof.
  intros Hn Hv H i Hi. open_trace Hn H.
  pose proof (only_iv_proj _ _ F3) as (En3 & _).
  pose proof (only_iv_proj _ _ F4) as (En4 & Ez4 & _ & _ & Enn4 & _).
  pose proof (only_iv_proj _ _ F5) as (En5 & _ & _ & _ & Enn5 & _).
  pose proof (only_iv_proj _ _ F8) as (En8 & Ez8 & _ & _ & Enn8 & _).
  change (nn (set_nv (adjust (propagate m6)) f) i) with (nn (adjust (propagate m6)) i).
  rewrite Enn8.
  assert (Hn5 : 0 <= ntrks m5 <= Hist.capacity) by lia.
  assert (F48 : only_iv m4 (adjust (propagate m6))).
  { eapply only_iv_trans; [apply only_iv_sym; exact F4|exact F8]. }
  assert (Hi4 : 0 <= i < ntrks m4) by lia.
  assert (Hi5 : 0 <= i < ntrks m5) by lia.
  rewrite (run_label minT m5 m6 f i Hn5 Hfl Hm Hi5).
  destruct (Hfl i Hi5) as (Hr & Hrr & Hcr & Hcc).
  split.
  - intros Hlab.
    destruct (root_code minT m5 m6 f (iv m5 i) Hn5 Hm Hr Hrr)
      as [(_ & c & Hc' & Ecode)|(Hncr & _)]; [rewrite Ecode in Hlab; lia|].
    assert (Eself : iv m5 i = i).
    { destruct (Z.eq_dec (iv m5 i) i) as [E|Hne]; [exact E|]. specialize (Hcr Hne). lia. }
    rewrite Eself, Enn5 in Hncr. split; [exact Hncr|].
    assert (Hnc4 : nn m4 i < minT) by (rewrite Enn4; exact Hncr).
    intros j Hj Hcand.
    apply (proj1 (final_visited m4 _ f i _ F48)) in Hj.
    apply (proj1 (final_edge_candidate minT eps chi2max m4 _ f i _ F48)) in Hcand.
    destruct (edge_cases minT eps chi2max hist m3 m4 m5 i Hp4 Hcu He Hfl Hi4 Hnc4)
      as [[_ Hnone]|(Hne & _)]; [|contradiction].
    exact (Hnone j Hj Hcand).
  - intros [Hnc Hnone].
    assert (Hnc4 : nn m4 i < minT) by (rewrite Enn4; exact Hnc).
    destruct (edge_cases minT eps chi2max hist m3 m4 m5 i Hp4 Hcu He Hfl Hi4 Hnc4)
      as [[Eself _]|(_ & j & Hj & Hcand & _)].
    + rewrite Eself.
      destruct (root_code minT m5 m6 f i Hn5 Hm Hi5 Eself) as [(Hc' & _)|(_ & ->)]; [|lia].
      rewrite Enn5 in Hc'. lia.
    + exfalso. apply (Hnone j).
      * apply (proj2 (final_visited m4 _ f i _ F48)); exact Hj.
      * apply (proj2 (final_edge_candidate minT eps chi2max m4 _ f i _ F48)); exact Hcand.
Qed.

Lemma noise_iff_witness :
  exists m',
    clusterTracksDBSCAN zv 2 f_0_05 f_1 f_9 5 scenario5 = Ok m' /\
    forall i, 0 <= i < 5 ->
      (iv m' i = 9997 <->
       nn m' i < 2 /\ forall j, visited m' i j -> ~ edge_candidate 2 f_0_05 f_9 m' i j).
Proof.
  destruct (clusterTracksDBSCAN zv 2 f_0_05 f_1 f_9 5 scenario5) as [m'| | |] eqn:H;
    try (vm_compute in H; discriminate).
  exists m'. split; [reflexivity|].
  apply (noise_iff zv 2 f_0_05 f_1 f_9 5 scenario5 m'); [| |exact H].
  - vm_compute. split; discriminate.
  - vm_compute. discriminate.
Defined.

(** X8. The kernel writes [izt], [nn] and [iv] at the indices below the
    item count only. *)
Theorem writes_below_count zv minT eps errmax chi2max fuel m m' :
  0 <= ntrks m <= INT32_MAX ->
  clusterTracksDBSCAN zv minT eps errmax chi2max fuel m = Ok m' ->
  forall k, ~ 0 <= k < ntrks m ->
    izt m' k = izt m k /\ nn m' k = nn m k /\ iv m' k = iv m k.
Proof.
  intros Hn H k Hk. open_trace Hn H.
  destruct (build_index_spec zv m m1 hist Hn Hb) as ((En1 & _) & Hlo & Hhi & Hp1).
  destruct (Hhi k Hk) as (Ei1 & Ev1 & Enn1).
  pose proof (build_index_nodup zv m m1 hist Hn Hb) as Hnd.
  destruct (count_neighbours_value eps hist (Float32.mul errmax errmax) m1 Hp1)
    as (_ & Hout2).
  { intros j _. apply Hnd. }
  { intros j Hj. apply Hlo. lia. }
  fold m2 in Hout2.
  pose proof (only_nn_proj _ _ (count_neighbours_only_nn eps hist (Float32.mul errmax errmax) m1))
    as (_ & _ & _ & Ei2 & Ev2 & _).
  fold m2 in Ei2, Ev2.
  pose proof (only_iv_proj _ _ F3) as (En3 & _).
  pose proof (only_iv_proj _ _ F4) as (En4 & _).
  pose proof (only_iv_proj _ _ F5) as (En5 & _).
  pose proof (only_iv_proj _ _ F8) as (En8 & _ & _ & Ei8 & Enn8 & _).
  assert (Hn5 : 0 <= ntrks m5 <= Hist.capacity) by lia.
  destruct Hs as (_ & Hout3 & _).
  destruct Hcu as (_ & _ & Hout4 & _).
  destruct He as (_ & Hout5 & _).
  destruct (mark_roots_spec minT m5 m6 f Hn5 Hm) as (F6 & Hf6 & Hout6 & Hmk).
  pose proof (only_iv_proj _ _ F6) as (En6 & _).
  destruct (propagate_spec minT m5 m6 f (proj1 Hn5) Hfl F6 Hmk) as (F7 & Hout7 & Hcd).
  pose proof (only_iv_proj _ _ F7) as (En7 & _).
  destruct (adjust_spec minT (propagate m6) f) as (_ & Hout8 & _); [lia|lia|exact Hcd|].
  change (izt (set_nv (adjust (propagate m6)) f)) with (izt (adjust (propagate m6))).
  change (nn (set_nv (adjust (propagate m6)) f)) with (nn (adjust (propagate m6))).
  change (iv (set_nv (adjust (propagate m6)) f)) with (iv (adjust (propagate m6))).
  rewrite Ei8, Enn8, Ei2.
  split; [exact Ei1|]. split; [rewrite Hout2 by lia; exact Enn1|].
  rewrite Hout8 by lia. rewrite Hout7 by lia. rewrite Hout6 by lia.
  rewrite Hout5 by lia. rewrite Hout4 by lia. rewrite Hout3 by lia.
  rewrite Ev2. exact Ev1.
Qed.

Lemma writes_below_count_witness :
  exists m',
    clusterTracksDBSCAN zv 2 f_0_05 f_1 f_9 5 scenario5 = Ok m' /\
    forall k, ~ 0 <= k < 5 ->
      izt m' k = izt scenario5 k /\ nn m' k = nn scenario5 k /\ iv m' k = iv scenario5 k.
Proof.
  destruct (clusterTracksDBSCAN zv 2 f_0_05 f_1 f_9 5 scenario5) as [m'| | |] eqn:H;
    try (vm_compute in H; discriminate).
  exists m'. split; [reflexivity|].
  apply (writes_below_count zv 2 f_0_05 f_1 f_9 5 scenario5 m'); [|exact H].
  vm_compute. split; discriminate.
Defined.

(** X9. With no item the kernel completes whatever the fuel, reports no
    cluster and leaves every array as it was; it needs [MAXVTX] to be
    positive for the assertion of line 234. *)
Theorem empty_input zv minT eps errmax chi2max fuel m :
  ntrks m = 0 -> 0 < MAXVTX zv ->
  clusterTracksDBSCAN zv minT eps errmax chi2max fuel m = Ok (set_nv m 0).
Proof.
  intros E Hv.
  assert (Hf : fill_hist zv m Hist.zero = Ok (m, Hist.zero)).
  { unfold fill_hist. rewrite E. reflexivity. }
  assert (Hb : build_index zv m = Ok (m, fill_slots m (Hist.finalize Hist.zero))).
  { apply build_index_intro; [rewrite E; vm_compute; discriminate|exact Hf|].
    rewrite size_finalize, E. apply sum_upto_zero. }
  set (hist := fill_slots m (Hist.finalize Hist.zero)) in *.
  assert (E2 : count_neighbours eps hist (Float32.mul errmax errmax) m = m).
  { unfold count_neighbours. rewrite E. reflexivity. }
  assert (E3 : seed minT eps hist m = m).
  { unfold seed. rewrite E. reflexivity. }
  assert (Hc : compress fuel (seed minT eps hist
                                (count_neighbours eps hist (Float32.mul errmax errmax) m))
               = Ok m).
  { rewrite E2, E3. unfold compress. rewrite E. reflexivity. }
  assert (E5 : collect_edges minT eps chi2max hist m = m).
  { unfold collect_edges. rewrite E. reflexivity. }
  assert (Hm : mark_roots minT (collect_edges minT eps chi2max hist m) = (m, 0)).
  { rewrite E5. unfold mark_roots. rewrite E. reflexivity. }
  rewrite (cluster_intro zv minT eps errmax chi2max fuel m m hist m m 0 Hb Hc Hm).
  destruct (Z.ltb_spec 0 (MAXVTX zv)) as [_|]; [|lia]. cbn [negb].
  assert (E7 : propagate m = m) by (unfold propagate; rewrite E; reflexivity).
  assert (E8 : adjust m = m) by (unfold adjust; rewrite E; reflexivity).
  now rewrite E7, E8.
Qed.

Lemma empty_input_witness :
  clusterTracksDBSCAN zv 2 f_0_05 f_1 f_9 0 (memory [] f_1) = Ok (set_nv (memory [] f_1) 0).
Proof.
  apply (empty_input zv 2 f_0_05 f_1 f_9 0 (memory [] f_1)); [reflexivity|].
  vm_compute. reflexivity.
Defined.

(** ** Why a run stops *)

Lemma assert_stops_inv {A : Type} (c : bool) a m (r x : result A) :
  (if negb c then AssertFailed a m else r) = x ->
  (c = false /\ x = AssertFailed a m) \/ (c = true /\ r = x).
Proof. destruct c; simpl; intros <-; auto. Qed.

Lemma bind_Undefined_inv {A B : Type} (r : result A) (k : A -> result B) :
  bind r k = Undefined -> r = Undefined \/ exists v, r = Ok v /\ k v = Undefined.
Proof. destruct r as [v| | |]; simpl; intros H; try discriminate; eauto. Qed.

Lemma bind_OutOfFuel_inv {A B : Type} (r : result A) (k : A -> result B) :
  bind r k = OutOfFuel -> r = OutOfFuel \/ exists v, r = Ok v /\ k v = OutOfFuel.
Proof. destruct r as [v| | |]; simpl; intros H; try discriminate; eauto. Qed.

(** A loop that stops does so in one of its iterations. *)
Lemma for_each_stops {St : Type} (Inv : St -> Prop) (body : St -> Z -> result St) l s r :
  Inv s ->
  (forall t i t', Inv t -> body t i = Ok t' -> Inv t') ->
  for_each body l s = r -> (forall s', r <> Ok s') ->
  exists t i, Inv t /\ In i l /\ body t i = r.
Proof.
  intros H0 Hstep. revert s H0. induction l as [|i l IH]; intros s H0 H Hr; simpl in H.
  - now destruct (Hr s).
  - destruct (body s i) as [t| | |] eqn:E; simpl in H.
    + destruct (IH t) as (t1 & i1 & Ht1 & Hi1 & Hb1); [eapply Hstep; eauto|exact H|exact Hr|].
      exists t1, i1. split; [exact Ht1|]. split; [now right|exact Hb1].
    + exists s, i. split; [exact H0|]. split; [now left|congruence].
    + exists s, i. split; [exact H0|]. split; [now left|congruence].
    + exists s, i. split; [exact H0|]. split; [now left|congruence].
Qed.

(** The ways an iteration of the loop of lines 78-88 stops. *)
Lemma fill_hist_item_stops zv t i r :
  fill_hist_item zv t i = r -> (forall s', r <> Ok s') ->
  (r = AssertFailed MaxTracksAssert (fst t) /\ MAXTRACKS zv <= i) \/
  (r = Undefined /\ quantize (zt (fst t) i) = None).
Proof.
  destruct t as [m h]. cbn [fst]. unfold fill_hist_item. intros H Hr.
  destruct (Z.ltb_spec i (MAXTRACKS zv)) as [Hlt|Hge]; cbn [negb] in H; [|left; auto].
  destruct (quantize (zt m i)) as [iz|] eqn:E; [|right; auto].
  exfalso.
  pose proof (clamp_range iz INT8_MIN INT8_MAX) as Hc. unfold INT8_MIN, INT8_MAX in *.
  destruct (Z.leb_spec 0 (clamp iz (-128) 127 - -128)); [|lia].
  destruct (Z.ltb_spec (clamp iz (-128) 127 - -128) 256); [|lia].
  cbn [andb negb] in H. eapply Hr. symmetry. exact H.
Qed.

Lemma fill_hist_stops zv m0 r :
  0 <= ntrks m0 ->
  fill_hist zv m0 Hist.zero = r -> (forall s', r <> Ok s') ->
  (exists x, r = AssertFailed MaxTracksAssert x /\ MAXTRACKS zv < ntrks m0) \/
  (r = Undefined /\ exists i, 0 <= i < ntrks m0 /\ quantize (zt m0 i) = None).
Proof.
  intros Hn H Hr. unfold fill_hist in H.
  destruct (for_each_stops (fun t => inputs (fst t) = inputs m0) (fill_hist_item zv)
              (uniform_elements (ntrks m0)) (m0, Hist.zero) r eq_refl
              (fun t i t' => fill_hist_item_inputs zv m0 t i t') H Hr)
    as (t & i & Ht & Hi & Hb).
  apply In_uniform_elements in Hi.
  destruct (fill_hist_item_stops zv t i r Hb Hr) as [[-> Hge]|[-> Hq]].
  - left. eexists. split; [reflexivity|lia].
  - right. split; [reflexivity|]. exists i. split; [exact Hi|].
    unfold inputs in Ht. injection Ht as _ Ez _. now rewrite <- Ez.
Qed.

Lemma build_index_above zv m0 :
  Hist.capacity < to_int32 (ntrks m0) ->
  build_index zv m0 = AssertFailed CapacityAssert m0.
Proof.
  intros Hc. unfold build_index. apply Z.leb_gt in Hc. rewrite Hc. reflexivity.
Qed.

Lemma build_index_fill_stops zv m0 r :
  to_int32 (ntrks m0) <= Hist.capacity ->
  fill_hist zv m0 Hist.zero = r -> (forall s', r <> Ok s') ->
  match r with
  | Ok _ => True
  | AssertFailed a x => build_index zv m0 = AssertFailed a x
  | Undefined => build_index zv m0 = Undefined
  | OutOfFuel => build_index zv m0 = OutOfFuel
  end.
Proof.
  intros Hc Hf Hr. unfold build_index.
  rewrite assert_pass by (now apply Z.leb_le).
  rewrite Hf. destruct r; [exact I|reflexivity|reflexivity|reflexivity].
Qed.

Lemma build_index_stops zv m0 r :
  0 <= ntrks m0 <= INT32_MAX ->
  build_index zv m0 = r -> (forall s', r <> Ok s') ->
  (r = AssertFailed CapacityAssert m0 /\ Hist.capacity < ntrks m0) \/
  (exists x, r = AssertFailed MaxTracksAssert x /\ MAXTRACKS zv < ntrks m0) \/
  (r = Undefined /\ exists i, 0 <= i < ntrks m0 /\ quantize (zt m0 i) = None).
Proof.
  intros Hn H Hr.
  assert (E32 : to_int32 (ntrks m0) = ntrks m0).
  { apply to_int32_small. unfold INT32_MIN. lia. }
  destruct (Z_lt_le_dec Hist.capacity (ntrks m0)) as [Habove|Hle].
  { left. rewrite build_index_above in H by lia. auto. }
  right.
  assert (Hc : to_int32 (ntrks m0) <= Hist.capacity) by lia.
  destruct (fill_hist zv m0 Hist.zero) as [[m1 h]|a x| |] eqn:Hf.
  - exfalso.
    pose proof (fill_hist_spec zv m0 _ Hn Hf) as ((En & _) & _ & _ & _ & Hsum & _).
    rewrite (build_index_intro zv m0 m1 h Hc Hf) in H.
    + eapply Hr. symmetry. exact H.
    + rewrite size_finalize, Hsum. now rewrite En.
  - pose proof (build_index_fill_stops zv m0 _ Hc Hf) as Hb. cbn beta iota in Hb.
    rewrite Hb in H by (intros s'; discriminate). subst r.
    destruct (fill_hist_stops zv m0 _ (proj1 Hn) Hf) as [(y & E & Hlt)|[E _]];
      [intros s'; discriminate| |discriminate].
    left. exists x. injection E as -> ->. auto.
  - pose proof (build_index_fill_stops zv m0 _ Hc Hf) as Hb. cbn beta iota in Hb.
    rewrite Hb in H by (intros s'; discriminate). subst r.
    destruct (fill_hist_stops zv m0 _ (proj1 Hn) Hf) as [(y & E & _)|[_ Hq]];
      [intros s'; discriminate|discriminate|].
    right. auto.
  - exfalso.
    destruct (fill_hist_stops zv m0 _ (proj1 Hn) Hf) as [(y & E & _)|[E _]];
      [intros s'; discriminate|discriminate|discriminate].
Qed.

Lemma compress_stops fuel m r :
  compress fuel m = r -> (forall s', r <> Ok s') -> r = OutOfFuel.
Proof.
  intros H Hr. unfold compress in H.
  destruct (for_each_stops (fun _ => True) _ _ _ _ I (fun _ _ _ _ _ => I) H Hr)
    as (t & i & _ & _ & Hb).
  unfold compress_item in Hb. destruct (walk _ _ _); [|congruence].
  now destruct (Hr (set_iv t i z)).
Qed.

(** X10. Each way the kernel stops has its cause.  An item count above
    the capacity of the index stops it at line 75, an item count above
    [MAXTRACKS] at line 79, a number of roots that is not below [MAXVTX]
    at line 234; the two assertions on the bucket key (lines 83-84) and
    the one on the size of the index (line 95) never fail; the conversion
    of line 80 is undefined only for a position that is NaN, infinite or
    ten times beyond the range of [int]; and the walk of lines 154-155
    ends within as many steps as there are items.  A run that completes
    met none of these. *)
Theorem stop_causes zv minT eps errmax chi2max fuel m :
  0 <= ntrks m <= INT32_MAX ->
  match clusterTracksDBSCAN zv minT eps errmax chi2max fuel m with
  | Ok m' =>
      ntrks m <= Hist.capacity /\
      (forall i, 0 <= i < ntrks m -> i < MAXTRACKS zv /\ quantize (zt m i) <> None) /\
      Z.of_nat (length (roots minT eps m')) < MAXVTX zv
  | AssertFailed CapacityAssert x => x = m /\ Hist.capacity < ntrks m
  | AssertFailed MaxTracksAssert _ => MAXTRACKS zv < ntrks m
  | AssertFailed KeyRangeAssert _ => False
  | AssertFailed HistSizeAssert _ => False
  | AssertFailed MaxVtxAssert x => MAXVTX zv <= Z.of_nat (length (roots minT eps x))
  | Undefined => exists i, 0 <= i < ntrks m /\ quantize (zt m i) = None
  | OutOfFuel => Z.of_nat fuel < ntrks m
  end.
Proof.
  intros Hn.
  destruct (clusterTracksDBSCAN zv minT eps errmax chi2max fuel m) as [m'|a x| |] eqn:H.
  - pose proof H as H'. open_trace Hn H'.
    destruct (build_index_spec zv m m1 hist Hn Hb) as (_ & Hlo & _).
    split; [lia|]. split.
    + intros i Hi. destruct (Hlo i Hi) as (Hq & _ & _ & _ & Hmax). auto.
    + pose proof (only_iv_proj _ _ F5) as (En5 & _).
      assert (Hn5 : 0 <= ntrks m5 <= Hist.capacity) by lia.
      destruct (mark_roots_ids minT m5 m6 f Hn5 Hm) as (Hcnt & _).
      change (roots minT eps (set_nv (adjust (propagate m6)) f))
        with (roots minT eps (adjust (propagate m6))).
      rewrite (roots_frame minT eps _ _ F8). unfold roots.
      rewrite <- En5.
      rewrite (filter_ext_in (is_root minT eps m2)
                 (fun k => (iv m5 k =? k) && (minT <=? nn m5 k))); [lia|].
      intros k Hk. apply In_uniform_elements in Hk. apply bool_eq_iff.
      rewrite (run_root minT eps chi2max fuel hist m2 m3 m4 m5 Hp2 Hs Hfo Hc He F3 F4 F5 k)
        by lia.
      rewrite andb_true_iff, Z.eqb_eq, Z.leb_le. tauto.
  - unfold clusterTracksDBSCAN in H.
    destruct (build_index zv m) as [[m1 hist]| | |] eqn:Hb.
    + cbn [bind fst snd] in H. unfold link in H.
      destruct (compress fuel _) as [m4|a' x'| |] eqn:Hc; cbn [bind] in H;
        try discriminate H; [|exfalso; exact (compress_no_assert _ _ _ _ Hc)].
      unfold relabel in H.
      destruct (mark_roots minT (collect_edges minT eps chi2max hist m4)) as [m6 f] eqn:Hm.
      apply assert_stops_inv in H. destruct H as [[Hlt H]|[_ H]]; [|discriminate].
      injection H as Ea Ex. subst a x. apply Z.ltb_ge in Hlt.
      destruct (link_structure zv minT eps errmax chi2max fuel m m1 hist m4 Hn Hb Hc)
        as (Hp2 & Hs & Hfo & _ & _ & He & _ & F5 & En2).
      pose proof (seed_only_iv minT eps hist
                    (count_neighbours eps hist (Float32.mul errmax errmax) m1)) as F3.
      pose proof (only_iv_trans _ _ _ F3 (compress_only_iv _ _ _ Hc)) as F4.
      pose proof (only_iv_proj _ _ F5) as (En5 & _).
      pose proof (mark_roots_only_iv minT (collect_edges minT eps chi2max hist m4)) as F6.
      rewrite Hm in F6. cbn [fst] in F6.
      assert (Hn5 : 0 <= ntrks (collect_edges minT eps chi2max hist m4) <= Hist.capacity).
      { destruct Hp2 as [? _]. lia. }
      destruct (mark_roots_ids minT _ m6 f Hn5 Hm) as (Hcnt & _).
      rewrite (roots_frame minT eps _ _ (only_iv_trans _ _ _ F5 F6)). unfold roots.
      rewrite <- En5.
      rewrite (filter_ext_in
                 (is_root minT eps (count_neighbours eps hist (Float32.mul errmax errmax) m1))
                 (fun k => (iv (collect_edges minT eps chi2max hist m4) k =? k) &&
                           (minT <=? nn (collect_edges minT eps chi2max hist m4) k)));
        [lia|].
      intros k Hk. apply In_uniform_elements in Hk. apply bool_eq_iff.
      rewrite (run_root minT eps chi2max fuel hist _ _ m4 _ Hp2 Hs Hfo Hc He F3 F4 F5 k)
        by lia.
      rewrite andb_true_iff, Z.eqb_eq, Z.leb_le. tauto.
    + cbn [bind] in H. injection H as Ea Ex. subst a0 m0.
      destruct (build_index_stops zv m _ Hn Hb) as [[E Hcap]|[(y & E & Hlt)|[E _]]];
        [intros s'; discriminate| | |discriminate].
      * injection E as Ea Ex. subst a x. auto.
      * injection E as Ea Ex. subst a x. exact Hlt.
    + discriminate.
    + discriminate.
  - unfold clusterTracksDBSCAN in H.
    destruct (build_index zv m) as [[m1 hist]| | |] eqn:Hb.
    + exfalso. cbn [bind fst snd] in H. unfold link in H.
      destruct (compress fuel _) as [m4|a' x'| |] eqn:Hc; cbn [bind] in H;
        try discriminate H;
        [|assert (Hs : @Undefined Memory = OutOfFuel)
            by (apply (compress_stops _ _ _ Hc); intros s'; discriminate);
          discriminate Hs].
      unfold relabel in H.
      destruct (mark_roots minT _) as [m6 f].
      apply assert_stops_inv in H. destruct H as [[_ H]|[_ H]]; discriminate.
    + discriminate.
    + destruct (build_index_stops zv m _ Hn Hb) as [[E _]|[(y & E & _)|[_ Hq]]];
        [intros s'; discriminate|discriminate|discriminate|exact Hq].
    + discriminate.
  - unfold clusterTracksDBSCAN in H.
    destruct (build_index zv m) as [[m1 hist]| | |] eqn:Hb.
    + cbn [bind fst snd] in H. unfold link in H.
      destruct (Z_lt_le_dec (Z.of_nat fuel) (ntrks m)) as [Hlt|Hge]; [exact Hlt|exfalso].
      destruct (seeded_state zv minT eps errmax m m1 hist Hn Hb)
        as (Hp2 & _ & Hfo & F3 & _).
      pose proof (only_iv_proj _ _ F3) as (En3 & _).
      destruct (build_index_spec zv m m1 hist Hn Hb) as ((En1 & _) & _).
      pose proof (only_nn_proj _ _
                    (count_neighbours_only_nn eps hist (Float32.mul errmax errmax) m1))
        as (En2 & _).
      destruct (compress_total minT fuel
                  (seed minT eps hist
                     (count_neighbours eps hist (Float32.mul errmax errmax) m1)))
        as (m4 & Hc & _); [lia|exact Hfo|lia|].
      rewrite Hc in H. cbn [bind] in H. unfold relabel in H.
      destruct (mark_roots minT _) as [m6 f].
      apply assert_stops_inv in H. destruct H as [[_ H]|[_ H]]; discriminate.
    + discriminate.
    + discriminate.
    + exfalso.
      destruct (build_index_stops zv m _ Hn Hb) as [[E _]|[(y & E & _)|[E _]]];
        [intros s'; discriminate|discriminate|discriminate|discriminate].
Qed.

Lemma stop_causes_witness :
  clusterTracksDBSCAN zv 2 f_0_05 f_1 f_9 1 (memory [S754_infinity false] f_1) = Undefined /\
  exists i, 0 <= i < 1 /\ quantize (zt (memory [S754_infinity false] f_1) i) = None.
Proof.
  pose proof (stop_causes zv 2 f_0_05 f_1 f_9 1 (memory [S754_infinity false] f_1)) as H.
  destruct (clusterTracksDBSCAN zv 2 f_0_05 f_1 f_9 1 (memory [S754_infinity false] f_1))
    as [m'|a x| |] eqn:E; try (vm_compute in E; discriminate).
  split; [reflexivity|]. apply H. vm_compute. split; discriminate.
Defined.

(** ** Consolidation in place, and the order of the visits *)

(** X11. The consolidation loop rewrites the pointers in place, so the
    walk of a later item goes through pointers that are already
    rewritten; all the same the pointer it leaves at an item is the root
    of the chain of seeding pointers that starts at the item.  An item
    the seeding left pointing at itself stays so, any other item ends
    pointing elsewhere, and an item and its seeding parent end with the
    same pointer. *)
Theorem consolidation_keeps_roots zv minT eps errmax fuel m m1 hist m4 :
  0 <= ntrks m <= INT32_MAX ->
  build_index zv m = Ok (m1, hist) ->
  let m3 := seed minT eps hist
              (count_neighbours eps hist (Float32.mul errmax errmax) m1) in
  compress fuel m3 = Ok m4 ->
  forall i, 0 <= i < ntrks m ->
    (exists n, walk n (iv m3) i = Some (iv m4 i)) /\
    (iv m3 i = i <-> iv m4 i = i) /\
    iv m4 (iv m3 i) = iv m4 i.
Proof.
  intros Hn Hb m3 Hc i Hi.
  destruct (seeded_state zv minT eps errmax m m1 hist Hn Hb) as (Hp2 & _ & Hfo & F3 & _ & Ein).
  fold m3 in Hfo, F3, Ein.
  assert (En3 : ntrks m3 = ntrks m) by (unfold inputs in Ein; congruence).
  assert (Hn3 : 0 <= ntrks m3) by lia.
  assert (Hi3 : 0 <= i < ntrks m3) by lia.
  split; [now apply (compress_root minT fuel m3 m4)|]. split; [split|].
  - now apply (compress_keeps_root minT fuel m3 m4).
  - intros E. destruct (Z.eq_dec (iv m3 i) i) as [E3|Hne]; [exact E3|].
    now destruct (compress_moves minT fuel m3 m4 i Hn3 Hfo Hc Hi3 Hne).
  - now apply (compress_parent minT fuel m3 m4).
Qed.

Lemma consolidation_keeps_roots_witness :
  exists m1 hist m4,
    build_index zv groups6 = Ok (m1, hist) /\
    let m3 := seed 2 f_0_05 hist (count_neighbours f_0_05 hist (Float32.mul f_1 f_1) m1) in
    compress 6 m3 = Ok m4 /\
    forall i, 0 <= i < 6 ->
      (exists n, walk n (iv m3) i = Some (iv m4 i)) /\
      (iv m3 i = i <-> iv m4 i = i) /\
      iv m4 (iv m3 i) = iv m4 i.
Proof.
  destruct (build_index zv groups6) as [[m1 hist]| | |] eqn:Hb;
    try (vm_compute in Hb; discriminate).
  destruct (compress 6 (seed 2 f_0_05 hist
                          (count_neighbours f_0_05 hist (Float32.mul f_1 f_1) m1)))
    as [m4| | |] eqn:Hc;
    try (vm_compute in Hb; injection Hb as <- <-; vm_compute in Hc; discriminate).
  exists m1, hist, m4. split; [reflexivity|]. split; [exact Hc|].
  apply (consolidation_keeps_roots zv 2 f_0_05 f_1 6 groups6 m1 hist m4);
    [vm_compute; split; discriminate|exact Hb|exact Hc].
Defined.

(** Two distances with each not above the other are the same value. *)
Lemma abs_le_antisym a b :
  Float32.le (Float32.abs a) (Float32.abs b) = true ->
  Float32.le (Float32.abs b) (Float32.abs a) = true ->
  Float32.abs a = Float32.abs b.
Proof.
  intros H1 H2.
  destruct (SFleb_not_nan _ _ H1) as [Na Nb].
  apply (SFleb_key _ _ Na Nb) in H1. apply (SFleb_key _ _ Nb Na) in H2.
  destruct a as [sa|sa| |sa ma ea], b as [sb|sb| |sb mb eb];
    try reflexivity; try discriminate; simpl in *; try lia.
  assert (ea = eb /\ Z.pos ma = Z.pos mb) as [-> E] by lia.
  injection E as ->. reflexivity.
Qed.

(** X12. The order in which the buckets yield their items matters to the
    edge phase only through ties.  Run over any reordering of the items
    the query yields, the lambda leaves an item that is not a core item
    unattached exactly when the kernel does, and otherwise attaches it to
    a candidate at the same distance as the one the kernel chose. *)
Theorem edge_order_ties_only zv minT eps errmax chi2max fuel m m1 hist m4 :
  0 <= ntrks m <= INT32_MAX ->
  build_index zv m = Ok (m1, hist) ->
  compress fuel (seed minT eps hist
                   (count_neighbours eps hist (Float32.mul errmax errmax) m1)) = Ok m4 ->
  forall i, 0 <= i < ntrks m -> nn m4 i < minT ->
  forall l, Permutation l (Hist.query hist (izt m4 i) 1) ->
    let m5 := collect_edges minT eps chi2max hist m4 in
    let p' := iv (snd (fold_left (edge_loop minT chi2max i) l (eps, m4))) i in
    (p' = i <-> iv m5 i = i) /\
    (iv m5 i <> i ->
     exists j j',
       visited m4 i j /\ edge_candidate minT eps chi2max m4 i j /\ iv m5 i = iv m4 j /\
       visited m4 i j' /\ edge_candidate minT eps chi2max m4 i j' /\ p' = iv m4 j' /\
       dist m4 i j' = dist m4 i j).
Proof.
  intros Hn Hb Hc i Hi Hnc l Hperm m5 p'.
  destruct (link_structure zv minT eps errmax chi2max fuel m m1 hist m4 Hn Hb Hc)
    as (Hp2 & _ & _ & Hcu & Hp4 & He & _ & _ & En2).
  fold m5 in He.
  pose proof (compress_only_iv _ _ _ Hc) as F4.
  pose proof (only_iv_proj _ _ F4) as (En4 & _).
  pose proof (only_iv_proj _ _ (seed_only_iv minT eps hist
                (count_neighbours eps hist (Float32.mul errmax errmax) m1))) as (En3 & _).
  assert (Hi4 : 0 <= i < ntrks m4) by lia.
  pose proof (compressed_flat minT _ m4 Hcu) as Hfl4.
  pose proof (flat_noncore_self minT _ m4 i Hcu Hi4 Hnc) as Eself.
  destruct Hp4 as (_ & Hfin & Hq).
  assert (Hl : forall j, In j l <-> In j (Hist.query hist (izt m4 i) 1)).
  { intros j. split; apply Permutation_in; [exact Hperm|now apply Permutation_sym]. }
  assert (Hfl : forall j, In j l -> is_finite (zt m4 j) = true).
  { intros j Hj. apply Hfin. apply Hl in Hj. apply (Hq i j Hi4) in Hj. apply Hj. }
  destruct (fold_left (edge_loop minT chi2max i) l (eps, m4)) as [d' t'] eqn:Es'.
  destruct (edge_loop_spec minT eps chi2max m4 i l Hnc (Hfin i Hi4) Hfl d' t' Es')
    as (_ & _ & Hres').
  cbn [snd] in p'.
  assert (Hroot : forall j, In j (Hist.query hist (izt m4 i) 1) ->
                            edge_candidate minT eps chi2max m4 i j -> iv m4 j <> i).
  { intros j Hj (Hcj & _) E. apply (Hq i j Hi4) in Hj. destruct Hj as [Hj _].
    destruct (Hfl4 j Hj) as (_ & _ & _ & Hcr). specialize (Hcr Hcj). rewrite E in Hcr. lia. }
  destruct He as (_ & _ & He). destruct (He i Hi4) as (_ & Hedge).
  destruct (Hedge Hnc) as [(Ep & Hnone)|(j & Hj & Hcand & Ep & Hmin)];
    destruct Hres' as [(_ & Ep' & Hnone')|(j' & Hj' & Hcand' & _ & Ep' & Hmin')].
  - split; [unfold p'; rewrite Ep, Ep'; tauto|].
    intros Hne. rewrite Ep, Eself in Hne. now destruct Hne.
  - exfalso. apply (Hnone j'); [now apply Hl|exact Hcand'].
  - exfalso. apply (Hnone' j); [now apply Hl|exact Hcand].
  - split.
    + unfold p'. rewrite Ep, Ep'. split; intros E; exfalso.
      * apply (Hroot j' (proj1 (Hl j') Hj') Hcand' E).
      * apply (Hroot j Hj Hcand E).
    + intros _. exists j, j'.
      split; [now apply (Hq i j Hi4)|]. split; [exact Hcand|]. split; [exact Ep|].
      split; [apply (Hq i j' Hi4); now apply Hl|]. split; [exact Hcand'|].
      split; [exact Ep'|].
      unfold dist. apply abs_le_antisym.
      * apply Hmin'; [now apply Hl|exact Hcand].
      * apply Hmin; [now apply Hl|exact Hcand'].
Qed.

Lemma edge_order_ties_only_witness :
  exists m1 hist m4,
    build_index zv edge4 = Ok (m1, hist) /\
    compress 4 (seed 2 f_0_05 hist
                  (count_neighbours f_0_05 hist (Float32.mul f_1 f_1) m1)) = Ok m4 /\
    nn m4 3 < 2 /\
    forall l, Permutation l (Hist.query hist (izt m4 3) 1) ->
      let m5 := collect_edges 2 f_0_05 f_9 hist m4 in
      let p' := iv (snd (fold_left (edge_loop 2 f_9 3) l (f_0_05, m4))) 3 in
      (p' = 3 <-> iv m5 3 = 3) /\
      (iv m5 3 <> 3 ->
       exists j j',
         visited m4 3 j /\ edge_candidate 2 f_0_05 f_9 m4 3 j /\ iv m5 3 = iv m4 j /\
         visited m4 3 j' /\ edge_candidate 2 f_0_05 f_9 m4 3 j' /\ p' = iv m4 j' /\
         dist m4 3 j' = dist m4 3 j).
Proof.
  destruct (build_index zv edge4) as [[m1 hist]| | |] eqn:Hb;
    try (vm_compute in Hb; discriminate).
  destruct (compress 4 (seed 2 f_0_05 hist
                          (count_neighbours f_0_05 hist (Float32.mul f_1 f_1) m1)))
    as [m4| | |] eqn:Hc;
    try (vm_compute in Hb; injection Hb as <- <-; vm_compute in Hc; discriminate).
  assert (Hnn : nn m4 3 < 2).
  { vm_compute in Hb. injection Hb as <- <-. vm_compute in Hc. injection Hc as <-.
    vm_compute. reflexivity. }
  exists m1, hist, m4. split; [reflexivity|]. split; [exact Hc|]. split; [exact Hnn|].
  apply (edge_order_ties_only zv 2 f_0_05 f_1 f_9 4 edge4 m1 hist m4).
  - vm_compute. split; discriminate.
  - exact Hb.
  - exact Hc.
  - vm_compute. split; [discriminate|reflexivity].
  - exact Hnn.
Defined.

(** ** The checks of the debug build *)

(** X13. The mini verification of the debug build never fails: neither
    after the seeding loop nor after the consolidation is there a pair of
    items pointing at each other. *)
Theorem mini_verification_passes zv minT eps errmax fuel m m1 hist :
  0 <= ntrks m <= INT32_MAX ->
  build_index zv m = Ok (m1, hist) ->
  let m3 := seed minT eps hist
              (count_neighbours eps hist (Float32.mul errmax errmax) m1) in
  mini_verification m3 = true /\
  forall m4, compress fuel m3 = Ok m4 -> mini_verification m4 = true.
Proof.
  intros Hn Hb m3.
  destruct (seeded_state zv minT eps errmax m m1 hist Hn Hb) as (Hp2 & _ & Hfo & F3 & _ & Ein).
  fold m3 in Hfo, F3, Ein.
  assert (En3 : ntrks m3 = ntrks m) by (unfold inputs in Ein; congruence).
  assert (H32 : forall i, 0 <= i < ntrks m -> to_int32 i = i).
  { intros i Hi. apply to_int32_small. unfold INT32_MIN. lia. }
  split.
  - unfold mini_verification. apply forallb_forall. intros i Hi.
    apply In_uniform_elements in Hi. unfold mini_verification_item.
    rewrite H32 by lia.
    destruct (Z.eqb_spec (iv m3 i) i) as [E|Hne]; [reflexivity|]. cbn [negb].
    destruct (Z.eqb_spec (iv m3 (iv m3 i)) i) as [E2|_]; [exfalso|reflexivity].
    destruct (Hfo i Hi) as [E|(Hp & Hlt & _)]; [contradiction|].
    destruct (Hfo _ Hp) as [E|(_ & Hlt' & _)]; [congruence|].
    rewrite E2 in Hlt'. pose proof (lt_trans _ _ _ Hlt Hlt') as Hl.
    rewrite lt_irrefl in Hl. discriminate.
  - intros m4 Hc.
    assert (Hn3 : 0 <= ntrks m3) by lia.
    pose proof (compress_sound minT fuel m3 m4 Hn3 Hfo Hc) as (F4 & _ & _ & Hfix).
    pose proof (only_iv_proj _ _ F4) as (En4 & _).
    unfold mini_verification. apply forallb_forall. intros i Hi.
    apply In_uniform_elements in Hi. unfold mini_verification_item.
    rewrite H32 by lia.
    destruct (Z.eqb_spec (iv m4 i) i) as [E|Hne]; [reflexivity|]. cbn [negb].
    destruct (Hfix i) as (_ & Hroot); [lia|]. rewrite Hroot.
    destruct (Z.eqb_spec (iv m4 i) i) as [E|_]; [contradiction|reflexivity].
Qed.

Lemma mini_verification_passes_witness :
  exists m1 hist,
    build_index zv groups6 = Ok (m1, hist) /\
    let m3 := seed 2 f_0_05 hist (count_neighbours f_0_05 hist (Float32.mul f_1 f_1) m1) in
    mini_verification m3 = true /\
    forall m4, compress 6 m3 = Ok m4 -> mini_verification m4 = true.
Proof.
  destruct (build_index zv groups6) as [[m1 hist]| | |] eqn:Hb;
    try (vm_compute in Hb; discriminate).
  exists m1, hist. split; [reflexivity|].
  apply (mini_verification_passes zv 2 f_0_05 f_1 6 groups6 m1 hist);
    [vm_compute; split; discriminate|exact Hb].
Defined.

(** Once an assertion of the split check has failed, the check stays
    failed. *)
Lemma split_loop_sticky minT eps m i l s :
  s <> Passed -> fold_left (split_loop minT eps m i) l s = s.
Proof.
  induction l as [|j l IH]; intros Hs; [reflexivity|].
  cbn [fold_left]. destruct s; [now destruct Hs| |]; cbn [split_loop]; apply IH; discriminate.
Qed.

Lemma split_item_sticky minT eps hist m l s :
  s <> Passed -> fold_left (split_item minT eps hist m) l s = s.
Proof.
  induction l as [|j l IH]; intros Hs; [reflexivity|].
  cbn [fold_left]. destruct s; [now destruct Hs| |]; cbn [split_item]; apply IH; discriminate.
Qed.

(** The lambda of the split check only ever reports a split. *)
Lemma split_loop_result minT eps m i l :
  fold_left (split_loop minT eps m i) l Passed = Passed \/
  exists a b, fold_left (split_loop minT eps m i) l Passed = ClusterSplit a b.
Proof.
  induction l as [|j l IH]; [now left|].
  cbn [fold_left]. cbn [split_loop].
  destruct (nn m j <? minT); [exact IH|].
  destruct (Float32.gt _ eps); [exact IH|].
  destruct (negb (iv m i =? iv m j)); [|exact IH].
  right. exists i, j. apply split_loop_sticky. discriminate.
Qed.

Lemma split_loop_fails minT eps m i l j :
  In j l -> minT <= nn m j -> Float32.gt (dist m i j) eps = false -> iv m i <> iv m j ->
  fold_left (split_loop minT eps m i) l Passed <> Passed.
Proof.
  intros Hj Hc Hd Hne. induction l as [|k l IH]; [destruct Hj|].
  cbn [fold_left].
  destruct (split_loop minT eps m i Passed k) eqn:E.
  - destruct Hj as [->|Hj]; [|now apply IH].
    exfalso. cbn [split_loop] in E. fold (dist m i j) in E.
    destruct (Z.ltb_spec (nn m j) minT) as [|_]; [lia|].
    rewrite Hd in E.
    destruct (Z.eqb_spec (iv m i) (iv m j)) as [|_]; [contradiction|]. discriminate.
  - rewrite split_loop_sticky by discriminate. discriminate.
  - rewrite split_loop_sticky by discriminate. discriminate.
Qed.

Lemma split_item_fails minT eps hist m l i :
  In i l -> split_item minT eps hist m Passed i <> Passed ->
  fold_left (split_item minT eps hist m) l Passed <> Passed.
Proof.
  intros Hi Hf. induction l as [|k l IH]; [destruct Hi|].
  cbn [fold_left].
  destruct (split_item minT eps hist m Passed k) eqn:E.
  - destruct Hi as [->|Hi]; [contradiction|now apply IH].
  - rewrite split_item_sticky by discriminate. discriminate.
  - rewrite split_item_sticky by discriminate. discriminate.
Qed.

(** The assertion [zt[iv[i]] <= zt[i]] of the split check holds of every
    core item. *)
Lemma split_order_holds minT eps hist m3 m4 fuel :
  0 <= ntrks m3 -> forest minT m3 -> compress fuel m3 = Ok m4 ->
  (forall i, 0 <= i < ntrks m3 -> is_finite (zt m3 i) = true) ->
  forall i, split_verification minT eps hist m4 <> OrderViolated i.
Proof.
  intros Hn Hfo Hc Hfin i0.
  pose proof (only_iv_proj _ _ (compress_only_iv _ _ _ Hc)) as (En4 & Ez4 & _).
  unfold split_verification.
  assert (H : (fun _ s => forall i, s <> OrderViolated i)
              (ntrks m4)
              (fold_left (split_item minT eps hist m4) (uniform_elements (ntrks m4)) Passed)).
  { apply uniform_loop_inv; [lia|intros i; discriminate|].
    intros i s Hi Hs. destruct s as [|k|a b]; [|now destruct (Hs k)|intros k; discriminate].
    cbn [split_item].
    destruct (nn m4 i <? minT); [intros k; discriminate|].
    rewrite Ez4.
    rewrite (compress_root_position minT fuel m3 m4 i Hn Hfo Hc Hfin) by lia.
    cbn [negb]. unfold forEachInBins.
    destruct (split_loop_result minT eps m4 i (Hist.query hist (izt m4 i) 1))
      as [->|(a & b & ->)]; intros k; discriminate. }
  apply H.
Qed.

(** X14. The first assertion of the split check, [zt[iv[i]] <= zt[i]]
    for a core item, never fails after the consolidation. *)
Theorem split_check_order_holds zv minT eps errmax fuel m m1 hist m4 :
  0 <= ntrks m <= INT32_MAX ->
  build_index zv m = Ok (m1, hist) ->
  compress fuel (seed minT eps hist
                   (count_neighbours eps hist (Float32.mul errmax errmax) m1)) = Ok m4 ->
  forall i, split_verification minT eps hist m4 <> OrderViolated i.
Proof.
  intros Hn Hb Hc.
  destruct (seeded_state zv minT eps errmax m m1 hist Hn Hb) as (Hp2 & _ & Hfo & F3 & _ & Ein).
  pose proof (only_iv_proj _ _ F3) as (En3 & Ez3 & _).
  destruct Hp2 as (Hn2 & Hfin & _).
  apply (split_order_holds minT eps hist
           (seed minT eps hist (count_neighbours eps hist (Float32.mul errmax errmax) m1))
           m4 fuel); [lia|exact Hfo|exact Hc|].
  intros i Hi. rewrite Ez3. apply Hfin. lia.
Qed.

Lemma split_check_order_holds_witness :
  exists m1 hist m4,
    build_index zv ties3 = Ok (m1, hist) /\
    compress 3 (seed 2 f_0_05 hist
                  (count_neighbours f_0_05 hist (Float32.mul f_1 f_1) m1)) = Ok m4 /\
    forall i, split_verification 2 f_0_05 hist m4 <> OrderViolated i.
Proof.
  destruct (build_index zv ties3) as [[m1 hist]| | |] eqn:Hb;
    try (vm_compute in Hb; discriminate).
  destruct (compress 3 (seed 2 f_0_05 hist
                          (count_neighbours f_0_05 hist (Float32.mul f_1 f_1) m1)))
    as [m4| | |] eqn:Hc;
    try (vm_compute in Hb; injection Hb as <- <-; vm_compute in Hc; discriminate).
  exists m1, hist, m4. split; [reflexivity|]. split; [exact Hc|].
  apply (split_check_order_holds zv 2 f_0_05 f_1 3 ties3 m1 hist m4);
    [vm_compute; split; discriminate|exact Hb|exact Hc].
Defined.

(** X15. Two different roots in adjacent buckets and not farther apart
    than [eps], as two core items at the same position are when no core
    item lies below them, end in two clusters; on such an input the
    second assertion of the split check, [iv[i] == iv[j]], fails, so the
    debug build stops where the release build completes. *)
Theorem split_check_fails_on_ties zv minT eps errmax chi2max fuel m m' :
  0 <= ntrks m <= INT32_MAX ->
  clusterTracksDBSCAN zv minT eps errmax chi2max fuel m = Ok m' ->
  forall i j, In i (roots minT eps m') -> In j (roots minT eps m') -> i <> j ->
    adjacent m' i j = true -> Float32.gt (dist m' i j) eps = false ->
    iv m' i <> iv m' j /\
    exists m1 hist m4,
      build_index zv m = Ok (m1, hist) /\
      compress fuel (seed minT eps hist
                       (count_neighbours eps hist (Float32.mul errmax errmax) m1)) = Ok m4 /\
      exists a b, split_verification minT eps hist m4 = ClusterSplit a b.
Proof.
  intros Hn H i j Hi Hj Hne Hadj Hd. open_trace Hn H.
  pose proof (only_iv_proj _ _ F3) as (En3 & Ez3 & _).
  pose proof (only_iv_proj _ _ F4) as (En4 & Ez4 & _ & Ei4 & Enn4 & _).
  pose proof (only_iv_proj _ _ F5) as (En5 & _ & _ & _ & Enn5 & _).
  pose proof (only_iv_proj _ _ F8) as (En8 & Ez8 & _ & Ei8 & Enn8 & _).
  assert (Hn5 : 0 <= ntrks m5 <= Hist.capacity) by lia.
  assert (Hn3 : 0 <= ntrks m3) by lia.
  assert (Hroots : forall r, In r (roots minT eps (set_nv (adjust (propagate m6)) f)) ->
                             0 <= r < ntrks m2 /\ minT <= nn m2 r /\ iv m3 r = r /\
                             iv m5 r = r).
  { intros r.
    change (roots minT eps (set_nv (adjust (propagate m6)) f))
      with (roots minT eps (adjust (propagate m6))).
    rewrite (roots_frame minT eps _ _ F8). unfold roots.
    rewrite filter_In, In_uniform_elements. intros [Hr Hroot].
    pose proof (proj1 (seeded_root minT eps hist m2 m3 r Hp2 Hs Hr) Hroot) as [Hc2 E3].
    pose proof (proj1 (run_root minT eps chi2max fuel hist m2 m3 m4 m5
                         Hp2 Hs Hfo Hc He F3 F4 F5 r Hr) Hroot) as [_ E5].
    auto. }
  destruct (Hroots i Hi) as (Hri & Hci & E3i & E5i).
  destruct (Hroots j Hj) as (Hrj & Hcj & E3j & E5j).
  split.
  - destruct (mark_roots_ids minT m5 m6 f Hn5 Hm) as (_ & _ & Hinj).
    rewrite (run_label minT m5 m6 f i Hn5 Hfl Hm) by lia.
    rewrite (run_label minT m5 m6 f j Hn5 Hfl Hm) by lia.
    rewrite E5i, E5j. intros E. apply Hne.
    apply Hinj; try lia; try (rewrite Enn5; assumption); assumption.
  - exists m1, hist, m4. split; [exact Hb|]. split; [exact Hc|].
    assert (E4i : iv m4 i = i) by (apply (compress_keeps_root minT fuel m3 m4); auto; lia).
    assert (E4j : iv m4 j = j) by (apply (compress_keeps_root minT fuel m3 m4); auto; lia).
    assert (Hfin : forall k, 0 <= k < ntrks m3 -> is_finite (zt m3 k) = true).
    { intros k Hk. rewrite Ez3. destruct Hp2 as (_ & Hfin & _). apply Hfin. lia. }
    assert (Hfail : split_verification minT eps hist m4 <> Passed).
    { unfold split_verification. apply split_item_fails with (i := i).
      - apply In_uniform_elements. lia.
      - cbn [split_item]. rewrite Enn4.
        destruct (Z.ltb_spec (nn m2 i) minT) as [|_]; [lia|].
        rewrite E4i. rewrite le_refl
          by (apply is_finite_not_nan; rewrite Ez4, <- Ez3; apply Hfin; lia).
        cbn [negb]. unfold forEachInBins.
        apply split_loop_fails with (j := j).
        + destruct Hp4 as (_ & _ & Hq). apply (Hq i j); [lia|].
          split; [lia|]. unfold adjacent in Hadj. apply Z.leb_le in Hadj.
          change (izt (set_nv (adjust (propagate m6)) f)) with (izt (adjust (propagate m6)))
            in Hadj.
          rewrite Ei8 in Hadj. rewrite Ei4. exact Hadj.
        + rewrite Enn4. exact Hcj.
        + change (dist (set_nv (adjust (propagate m6)) f) i j)
            with (dist (adjust (propagate m6)) i j) in Hd.
          unfold dist in *. rewrite Ez8 in Hd. rewrite Ez4. exact Hd.
        + rewrite E4i, E4j. exact Hne. }
    pose proof (split_order_holds minT eps hist m3 m4 fuel Hn3 Hfo Hc Hfin) as Hord.
    destruct (split_verification minT eps hist m4) as [|k|a b];
      [now destruct Hfail|now destruct (Hord k)|eauto].
Qed.

Lemma split_check_fails_on_ties_witness :
  exists m',
    clusterTracksDBSCAN zv 2 f_0_05 f_1 f_9 3 ties3 = Ok m' /\
    iv m' 0 <> iv m' 1 /\
    exists m1 hist m4,
      build_index zv ties3 = Ok (m1, hist) /\
      compress 3 (seed 2 f_0_05 hist
                    (count_neighbours f_0_05 hist (Float32.mul f_1 f_1) m1)) = Ok m4 /\
      exists a b, split_verification 2 f_0_05 hist m4 = ClusterSplit a b.
Proof.
  destruct (clusterTracksDBSCAN zv 2 f_0_05 f_1 f_9 3 ties3) as [m'| | |] eqn:H;
    try (vm_compute in H; discriminate).
  exists m'. split; [reflexivity|].
  apply (split_check_fails_on_ties zv 2 f_0_05 f_1 f_9 3 ties3 m').
  - vm_compute. split; discriminate.
  - exact H.
  - vm_compute in H. injection H as <-. vm_compute. auto.
  - vm_compute in H. injection H as <-. vm_compute. auto.
  - discriminate.
  - vm_compute in H. injection H as <-. vm_compute. reflexivity.
  - vm_compute in H. injection H as <-. vm_compute. reflexivity.
Defined.

(** ** Two runs side by side *)

Lemma fold_left_pair {St Tt A : Type} (f : St -> A -> St) (g : Tt -> A -> Tt) l s t :
  fold_left (fun p i => (f (fst p) i, g (snd p) i)) l (s, t) =
  (fold_left f l s, fold_left g l t).
Proof. revert s t. induction l as [|x l IH]; intros s t; simpl; [reflexivity|apply IH]. Qed.

(** Two loops over the same items keep a relation that every pair of
    iterations keeps. *)
Lemma uniform_loop_sim {St Tt : Type} (R : Z -> St -> Tt -> Prop)
  (f : St -> Z -> St) (g : Tt -> Z -> Tt) n s t :
  0 <= n ->
  R 0 s t ->
  (forall i u v, 0 <= i < n -> R i u v -> R (i + 1) (f u i) (g v i)) ->
  R n (fold_left f (uniform_elements n) s) (fold_left g (uniform_elements n) t).
Proof.
  intros Hn H0 Hstep.
  pose proof (uniform_loop_inv (fun i p => R i (fst p) (snd p))
                (fun p i => (f (fst p) i, g (snd p) i)) n (s, t) Hn H0) as H.
  rewrite fold_left_pair in H. apply H.
  intros i [u v] Hi Huv. cbn [fst snd] in *. now apply Hstep.
Qed.

Lemma list_loop_sim {St Tt : Type} (R : St -> Tt -> Prop)
  (f : St -> Z -> St) (g : Tt -> Z -> Tt) l s t :
  R s t ->
  (forall j u v, In j l -> R u v -> R (f u j) (g v j)) ->
  R (fold_left f l s) (fold_left g l t).
Proof.
  revert s t. induction l as [|x l IH]; intros s t H0 Hstep; simpl; [exact H0|].
  apply IH.
  - apply Hstep; [now left|exact H0].
  - intros j u v Hj. apply Hstep. now right.
Qed.

Lemma for_each_app {St : Type} (body : St -> Z -> result St) l1 l2 t :
  for_each body (l1 ++ l2) t = bind (for_each body l1 t) (for_each body l2).
Proof.
  revert t. induction l1 as [|x l1 IH]; intros t; simpl; [reflexivity|].
  destruct (body t x); simpl; auto.
Qed.

Lemma uniform_for_each_sim {St Tt : Type} (R : Z -> St -> Tt -> Prop)
  (f : St -> Z -> result St) (g : Tt -> Z -> result Tt) n s t s' :
  0 <= n ->
  R 0 s t ->
  (forall i u v u', 0 <= i < n -> R i u v -> f u i = Ok u' ->
                    exists v', g v i = Ok v' /\ R (i + 1) u' v') ->
  for_each f (uniform_elements n) s = Ok s' ->
  exists t', for_each g (uniform_elements n) t = Ok t' /\ R n s' t'.
Proof.
  intros Hn H0 Hstep.
  assert (G : forall k : nat, Z.of_nat k <= n -> forall r,
            for_each f (uniform_elements (Z.of_nat k)) s = Ok r ->
            exists r', for_each g (uniform_elements (Z.of_nat k)) t = Ok r' /\
                       R (Z.of_nat k) r r').
  { induction k as [|k IH]; intros Hk r Hr.
    - simpl in Hr. injection Hr as <-. exists t. split; [reflexivity|exact H0].
    - replace (Z.of_nat (S k)) with (Z.of_nat k + 1) in * by lia.
      rewrite uniform_elements_succ, for_each_app in Hr by lia.
      destruct (for_each f (uniform_elements (Z.of_nat k)) s) as [u| | |] eqn:Hu;
        simpl in Hr; try discriminate.
      destruct (f u (Z.of_nat k)) as [u'| | |] eqn:Hb; simpl in Hr; try discriminate.
      injection Hr as <-.
      destruct (IH ltac:(lia) u eq_refl) as (v & Hv & Ruv).
      destruct (Hstep (Z.of_nat k) u v u' ltac:(lia) Ruv Hb) as (v' & Hg & Ruv').
      exists v'. rewrite uniform_elements_succ, for_each_app, Hv by lia. simpl.
      rewrite Hg. simpl. split; [reflexivity|exact Ruv']. }
  intros Hr. specialize (G (Z.to_nat n)). rewrite Z2Nat.id in G by lia.
  apply G; [lia|exact Hr].
Qed.

(** *** Memories that agree *)

Lemma agree_ntrks m m' : agree m m' -> ntrks m' = ntrks m.
Proof. intros [[E _] _]. exact E. Qed.

Lemma agree_at m m' k :
  agree m m' -> 0 <= k < ntrks m ->
  zt m' k = zt m k /\ ezt2 m' k = ezt2 m k /\
  izt m' k = izt m k /\ nn m' k = nn m k /\ iv m' k = iv m k.
Proof.
  intros [[_ Hin] Hout] Hk. destruct (Hin k Hk) as [Ez Ee].
  destruct (Hout k Hk) as (Ei & Enn & Ev). auto.
Qed.

Lemma agree_set_iv m m' i x : agree m m' -> agree (set_iv m i x) (set_iv m' i x).
Proof.
  intros [[En Hin] Hout]. split; [split; [exact En|exact Hin]|].
  intros k Hk. destruct (Hout k Hk) as (Ei & Enn & Ev).
  cbn [izt nn iv set_iv]. split; [exact Ei|]. split; [exact Enn|].
  unfold upd. destruct (k =? i); [reflexivity|exact Ev].
Qed.

Lemma agree_set_nn m m' i x : agree m m' -> agree (set_nn m i x) (set_nn m' i x).
Proof.
  intros [[En Hin] Hout]. split; [split; [exact En|exact Hin]|].
  intros k Hk. destruct (Hout k Hk) as (Ei & Enn & Ev).
  cbn [izt nn iv set_nn]. split; [exact Ei|]. split; [|exact Ev].
  unfold upd. destruct (k =? i); [reflexivity|exact Enn].
Qed.

Lemma agree_frame m1 m2 m1' m2' :
  agree m1 m1' -> only_iv m1 m2 -> only_iv m1' m2' ->
  (forall k, 0 <= k < ntrks m1 -> iv m2' k = iv m2 k) ->
  agree m2 m2'.
Proof.
  intros [[En Hin] Hout] F F' Hv.
  pose proof (only_iv_proj _ _ F) as (En2 & Ez2 & Ee2 & Ei2 & Enn2 & _).
  pose proof (only_iv_proj _ _ F') as (En2' & Ez2' & Ee2' & Ei2' & Enn2' & _).
  split; [split; [congruence|]|].
  - intros k Hk. rewrite Ez2, Ez2', Ee2, Ee2'. apply Hin. lia.
  - intros k Hk. rewrite Ei2, Ei2', Enn2, Enn2'.
    destruct (Hout k) as (Ei & Enn & _); [lia|]. split; [exact Ei|]. split; [exact Enn|].
    apply Hv. lia.
Qed.

(** *** The phases, side by side *)

Lemma count_loop_sim eps i u v j :
  agree u v -> 0 <= i < ntrks u -> 0 <= j < ntrks u ->
  agree (count_loop eps i u j) (count_loop eps i v j).
Proof.
  intros Ha Hi Hj.
  destruct (agree_at u v i Ha Hi) as (Ezi & _ & _ & Enni & _).
  destruct (agree_at u v j Ha Hj) as (Ezj & _).
  unfold count_loop. rewrite Ezi, Ezj, Enni.
  destruct (i =? j); [exact Ha|].
  destruct (Float32.gt _ eps); [exact Ha|]. now apply agree_set_nn.
Qed.

Lemma count_neighbours_sim eps hist hist' er2mx m m' :
  prepared m hist -> agree m m' ->
  (forall key n, Hist.query hist' key n = Hist.query hist key n) ->
  agree (count_neighbours eps hist er2mx m) (count_neighbours eps hist' er2mx m').
Proof.
  intros Hp Ha Hq. unfold count_neighbours. rewrite (agree_ntrks _ _ Ha).
  assert (Hn : 0 <= ntrks m) by (destruct Hp as [? _]; lia).
  apply (proj2 (A := only_nn m (fold_left (count_item eps hist er2mx)
                                   (uniform_elements (ntrks m)) m))).
  apply (uniform_loop_sim (fun _ u v => only_nn m u /\ agree u v)); [exact Hn| |].
  - split; [reflexivity|exact Ha].
  - intros i u v Hi [F Huv].
    pose proof (only_nn_proj _ _ F) as (En & _).
    split; [eapply only_nn_trans; [exact F|apply count_item_only_nn]|].
    assert (Hpu : prepared u hist) by (eapply prepared_only_nn; eauto).
    destruct (agree_at u v i Huv) as (_ & Ee & Ei & _); [lia|].
    unfold count_item, forEachInBins. rewrite Ee, Ei, Hq.
    destruct (Float32.gt (ezt2 u i) er2mx); [exact Huv|].
    apply (proj2 (A := only_nn u (fold_left (count_loop eps i)
                                    (Hist.query hist (izt u i) 1) u))).
    apply (list_loop_sim (fun u1 v1 => only_nn u u1 /\ agree u1 v1)
             (count_loop eps i) (count_loop eps i) (Hist.query hist (izt u i) 1) u v).
    + split; [reflexivity|exact Huv].
    + intros j u1 v1 Hj [F1 H1].
      pose proof (only_nn_proj _ _ F1) as (En1 & _).
      split; [eapply only_nn_trans; [exact F1|apply count_loop_only_nn]|].
      destruct Hpu as (_ & _ & Hqu). apply (Hqu i j) in Hj; [|lia]. destruct Hj as [Hj _].
      apply count_loop_sim; [exact H1|lia|lia].
Qed.

(** The items a query yields are items. *)
Lemma build_index_query_range zv m0 m1 hist :
  0 <= ntrks m0 <= INT32_MAX ->
  build_index zv m0 = Ok (m1, hist) ->
  forall key n j, In j (Hist.query hist key n) -> 0 <= j < ntrks m0.
Proof.
  intros Hn Hb key n j Hj.
  pose proof (build_index_spec zv m0 m1 hist Hn Hb) as ((En & _) & _).
  apply build_index_inv in Hb. destruct Hb as (_ & h & Hf & _ & ->).
  apply fill_hist_spec in Hf; [|exact Hn].
  destruct Hf as (_ & _ & _ & _ & _ & Hbins).
  assert (H0 : forall b, Hist.bins (Hist.finalize h) b = []).
  { intros b. change (Hist.bins (Hist.finalize h) b) with (Hist.bins h b). now rewrite Hbins. }
  assert (Hn1 : 0 <= ntrks m1 <= INT32_MAX) by lia.
  unfold Hist.query in Hj. apply in_flat_map in Hj. destruct Hj as (b & _ & Hj).
  apply (fill_slots_spec m1 _ Hn1 H0) in Hj. lia.
Qed.

Lemma seed_loop_sim minT eps n i s s' j :
  ntrks (snd s) = n -> fst s' = fst s -> agree (snd s) (snd s') ->
  0 <= i < n -> 0 <= j < n ->
  ntrks (snd (seed_loop minT eps i s j)) = n /\
  fst (seed_loop minT eps i s' j) = fst (seed_loop minT eps i s j) /\
  agree (snd (seed_loop minT eps i s j)) (snd (seed_loop minT eps i s' j)).
Proof.
  destruct s as [mz u], s' as [mz' v]. cbn [fst snd]. intros En -> Ha Hi Hj.
  destruct (agree_at u v i Ha) as (Ezi & _); [lia|].
  destruct (agree_at u v j Ha) as (Ezj & _ & _ & Ennj & _); [lia|].
  unfold seed_loop. rewrite Ezi, Ezj, Ennj.
  destruct (Float32.ge (zt u j) mz); [auto|].
  destruct (nn u j <? minT); [auto|].
  destruct (Float32.gt _ eps); [auto|].
  cbn [fst snd]. split; [exact En|]. split; [reflexivity|]. now apply agree_set_iv.
Qed.

Lemma seed_sim minT eps hist hist' m m' :
  0 <= ntrks m ->
  (forall key j, In j (Hist.query hist key 1) -> 0 <= j < ntrks m) ->
  (forall key n, Hist.query hist' key n = Hist.query hist key n) ->
  agree m m' ->
  agree (seed minT eps hist m) (seed minT eps hist' m').
Proof.
  intros Hn Hr Hq Ha. unfold seed. rewrite (agree_ntrks _ _ Ha).
  apply (proj2 (A := ntrks (fold_left (seed_item minT eps hist)
                              (uniform_elements (ntrks m)) m) = ntrks m)).
  apply (uniform_loop_sim (fun _ u v => ntrks u = ntrks m /\ agree u v)); [exact Hn|auto|].
  intros i u v Hi [En Huv].
  destruct (agree_at u v i Huv) as (Ez & _ & Ei & Enn & _); [lia|].
  unfold seed_item, forEachInBins. rewrite Ez, Ei, Enn, Hq.
  destruct (nn u i <? minT); [auto|].
  pose proof (list_loop_sim
    (fun p q => ntrks (snd p) = ntrks m /\ fst q = fst p /\ agree (snd p) (snd q))
    (seed_loop minT eps i) (seed_loop minT eps i) (Hist.query hist (izt u i) 1)
    (zt u i, u) (zt u i, v)) as H.
  destruct H as (E1 & _ & E2); [cbn [fst snd]; auto| |auto].
  intros j p q Hj (Enp & Ef & Hpq).
  apply seed_loop_sim; auto. apply (Hr _ _ Hj).
Qed.

Lemma walk_agree n fuel a b :
  (forall k, 0 <= k < n -> b k = a k) ->
  (forall k, 0 <= k < n -> 0 <= a k < n) ->
  forall p, 0 <= p < n -> walk fuel b p = walk fuel a p.
Proof.
  intros Hab Hr. induction fuel as [|fuel IH]; intros p Hp; [reflexivity|].
  simpl. rewrite (Hab p Hp). destruct (negb (p =? a p)); [|reflexivity].
  apply IH. now apply Hr.
Qed.

Lemma compress_sim minT fuel m m' m4 :
  0 <= ntrks m -> forest minT m -> agree m m' ->
  compress fuel m = Ok m4 ->
  exists m4', compress fuel m' = Ok m4' /\ agree m4 m4'.
Proof.
  intros Hn Hfo Ha Hc. unfold compress in *. rewrite (agree_ntrks _ _ Ha).
  destruct (uniform_for_each_sim
              (fun i u v => compressed_upto minT m i u /\ agree u v)
              (compress_item fuel) (compress_item fuel) (ntrks m) m m' m4 Hn)
    as (m4' & Hc' & _ & Ha4); [split; [now apply compressed_upto_0|exact Ha]| |exact Hc|].
  - intros i u v u' Hi [Hcu Huv] Hb.
    pose proof (compress_item_step minT fuel m i u u' Hcu Hi Hb) as Hcu'.
    destruct Hcu as (F & Hfu & _).
    pose proof (only_iv_proj _ _ F) as (En & _).
    unfold compress_item in *.
    destruct (agree_at u v i Huv) as (_ & _ & _ & _ & Ev); [lia|].
    rewrite Ev.
    rewrite (walk_agree (ntrks u) fuel (iv u) (iv v)).
    + destruct (walk fuel (iv u) (iv u i)) as [r|]; [|discriminate].
      injection Hb as <-. eexists. split; [reflexivity|].
      split; [exact Hcu'|]. now apply agree_set_iv.
    + intros k Hk. now destruct (agree_at u v k Huv Hk) as (_ & _ & _ & _ & E).
    + intros k Hk. now apply (forest_pointer_range minT u k Hfu).
    + apply (forest_pointer_range minT u i Hfu). lia.
  - exists m4'. auto.
Qed.

Lemma edge_loop_sim minT chi2max n i s s' j :
  ntrks (snd s) = n -> fst s' = fst s -> agree (snd s) (snd s') ->
  0 <= i < n -> 0 <= j < n ->
  ntrks (snd (edge_loop minT chi2max i s j)) = n /\
  fst (edge_loop minT chi2max i s' j) = fst (edge_loop minT chi2max i s j) /\
  agree (snd (edge_loop minT chi2max i s j)) (snd (edge_loop minT chi2max i s' j)).
Proof.
  destruct s as [md u], s' as [md' v]. cbn [fst snd]. intros En -> Ha Hi Hj.
  destruct (agree_at u v i Ha) as (Ezi & Eei & _); [lia|].
  destruct (agree_at u v j Ha) as (Ezj & Eej & _ & Ennj & Evj); [lia|].
  unfold edge_loop. rewrite Ezi, Ezj, Eei, Eej, Ennj, Evj.
  destruct (nn u j <? minT); [auto|].
  destruct (Float32.gt _ md); [auto|].
  destruct (Float32.gt _ _); [auto|].
  cbn [fst snd]. split; [exact En|]. split; [reflexivity|]. now apply agree_set_iv.
Qed.

Lemma collect_edges_sim minT eps chi2max hist hist' m m' :
  0 <= ntrks m ->
  (forall key j, In j (Hist.query hist key 1) -> 0 <= j < ntrks m) ->
  (forall key n, Hist.query hist' key n = Hist.query hist key n) ->
  agree m m' ->
  agree (collect_edges minT eps chi2max hist m) (collect_edges minT eps chi2max hist' m').
Proof.
  intros Hn Hr Hq Ha. unfold collect_edges. rewrite (agree_ntrks _ _ Ha).
  apply (proj2 (A := ntrks (fold_left (edge_item minT eps chi2max hist)
                              (uniform_elements (ntrks m)) m) = ntrks m)).
  apply (uniform_loop_sim (fun _ u v => ntrks u = ntrks m /\ agree u v)); [exact Hn|auto|].
  intros i u v Hi [En Huv].
  destruct (agree_at u v i Huv) as (_ & _ & Ei & Enn & _); [lia|].
  unfold edge_item, forEachInBins. rewrite Ei, Enn, Hq.
  destruct (minT <=? nn u i); [auto|].
  pose proof (list_loop_sim
    (fun p q => ntrks (snd p) = ntrks m /\ fst q = fst p /\ agree (snd p) (snd q))
    (edge_loop minT chi2max i) (edge_loop minT chi2max i) (Hist.query hist (izt u i) 1)
    (eps, u) (eps, v)) as H.
  destruct H as (E1 & _ & E2); [cbn [fst snd]; auto| |auto].
  intros j p q Hj (Enp & Ef & Hpq).
  apply edge_loop_sim; auto. apply (Hr _ _ Hj).
Qed.

Lemma mark_roots_sim minT m m' :
  0 <= ntrks m -> agree m m' ->
  snd (mark_roots minT m') = snd (mark_roots minT m) /\
  agree (fst (mark_roots minT m)) (fst (mark_roots minT m')).
Proof.
  intros Hn Ha. unfold mark_roots. rewrite (agree_ntrks _ _ Ha).
  pose proof (uniform_loop_sim
    (fun _ (p q : Memory * Z) => ntrks (fst p) = ntrks m /\ snd q = snd p /\
                                 agree (fst p) (fst q))
    (mark_item minT) (mark_item minT) (ntrks m) (m, 0) (m', 0) Hn) as H.
  destruct H as (_ & E & Hag); [cbn [fst snd]; auto| |auto].
  intros i [u g] [v g'] Hi (En & Eg & Huv). cbn [fst snd] in *. subst g'.
  destruct (agree_at u v i Huv) as (_ & _ & _ & Enn & Ev); [lia|].
  unfold mark_item. rewrite Enn, Ev.
  destruct (iv u i =? to_int32 i); [|cbn [fst snd]; auto].
  destruct (minT <=? nn u i); [|cbn [fst snd]; split; [exact En|];
                                  split; [reflexivity|now apply agree_set_iv]].
  destruct (atomicInc g 4294967295) as [old g1]. cbn [fst snd].
  split; [exact En|]. split; [reflexivity|]. now apply agree_set_iv.
Qed.

Lemma propagate_sim m m' :
  0 <= ntrks m ->
  (forall k, 0 <= k < ntrks m -> 0 <= iv m k -> iv m k < ntrks m) ->
  agree m m' ->
  agree (propagate m) (propagate m').
Proof.
  intros Hn Hr Ha. unfold propagate. rewrite (agree_ntrks _ _ Ha).
  pose proof (uniform_loop_sim
    (fun _ u v => (ntrks u = ntrks m /\
                   forall k, 0 <= k < ntrks m -> 0 <= iv u k -> iv u k < ntrks m) /\
                  agree u v)
    propagate_item propagate_item (ntrks m) m m' Hn) as H.
  destruct H as (_ & Hag); [auto| |exact Hag].
  intros i u v Hi ((En & Hru) & Huv).
  destruct (agree_at u v i Huv) as (_ & _ & _ & _ & Ev); [lia|].
  unfold propagate_item. rewrite Ev.
  destruct (Z.leb_spec 0 (iv u i)) as [Hpos|Hneg]; [|auto].
  assert (Hp : 0 <= iv u i < ntrks u) by (rewrite En; split; [exact Hpos|apply Hru; lia]).
  destruct (agree_at u v _ Huv Hp) as (_ & _ & _ & _ & Evp). rewrite Evp.
  split; [split; [exact En|]|now apply agree_set_iv].
  intros k Hk. cbn [iv set_iv]. unfold upd. destruct (k =? i); [|now apply Hru].
  apply Hru. lia.
Qed.

Lemma adjust_sim m m' : 0 <= ntrks m -> agree m m' -> agree (adjust m) (adjust m').
Proof.
  intros Hn Ha. unfold adjust. rewrite (agree_ntrks _ _ Ha).
  apply (proj2 (A := ntrks (fold_left adjust_item (uniform_elements (ntrks m)) m) = ntrks m)).
  apply (uniform_loop_sim (fun _ u v => ntrks u = ntrks m /\ agree u v)); [exact Hn|auto|].
  intros i u v Hi [En Huv].
  destruct (agree_at u v i Huv) as (_ & _ & _ & _ & Ev); [lia|].
  unfold adjust_item. rewrite Ev. split; [exact En|now apply agree_set_iv].
Qed.

Lemma fill_hist_total_items zv m0 :
  0 <= ntrks m0 <= INT32_MAX ->
  (forall i, 0 <= i < ntrks m0 -> i < MAXTRACKS zv /\ quantize (zt m0 i) <> None) ->
  exists s, fill_hist zv m0 Hist.zero = Ok s /\ fill_hist_inv zv m0 (ntrks m0) s.
Proof.
  intros Hn Hq. unfold fill_hist.
  apply (uniform_for_each_total (fill_hist_inv zv m0)); [lia|apply fill_hist_inv_0|].
  intros i [m h] Hi Inv.
  assert (Hex : exists t', fill_hist_item zv (m, h) i = Ok t').
  { destruct Inv as ((_ & Ez & _) & _). unfold fill_hist_item.
    destruct (Hq i Hi) as [Hmax Hqi].
    destruct (Z.ltb_spec i (MAXTRACKS zv)) as [_|]; [|lia]. cbn [negb].
    rewrite Ez. destruct (quantize (zt m0 i)) as [iz|] eqn:E; [|now destruct Hqi].
    pose proof (clamp_range iz INT8_MIN INT8_MAX) as Hc. unfold INT8_MIN, INT8_MAX in *.
    destruct (Z.leb_spec 0 (clamp iz (-128) 127 - -128)); [|lia].
    destruct (Z.ltb_spec (clamp iz (-128) 127 - -128) 256); [|lia].
    cbn [andb negb]. eauto. }
  destruct Hex as [t' Ht]. exists t'. split; [exact Ht|].
  eapply fill_hist_item_step; eauto. lia.
Qed.

Lemma fill_slots_sim m m' h h' :
  0 <= ntrks m -> ntrks m' = ntrks m ->
  (forall k, 0 <= k < ntrks m -> izt m' k = izt m k) ->
  (forall b, Hist.bins h' b = Hist.bins h b) ->
  forall b, Hist.bins (fill_slots m' h') b = Hist.bins (fill_slots m h) b.
Proof.
  intros Hn En Hi H0. unfold fill_slots. rewrite En.
  apply (uniform_loop_sim (fun _ u v => forall b, Hist.bins v b = Hist.bins u b)
           (fun h i => Hist.fill h (izt m i) (to_uint32 i))
           (fun h i => Hist.fill h (izt m' i) (to_uint32 i))); [exact Hn|exact H0|].
  intros i u v Hi' Huv b. cbn [Hist.fill Hist.bins]. rewrite (Hi i Hi').
  unfold upd. destruct (b =? izt m i); [now rewrite Huv|apply Huv].
Qed.

Lemma build_index_sim zv m m' m1 hist :
  0 <= ntrks m <= INT32_MAX -> same_items m m' ->
  build_index zv m = Ok (m1, hist) ->
  exists m1' hist',
    build_index zv m' = Ok (m1', hist') /\ agree m1 m1' /\
    forall key n, Hist.query hist' key n = Hist.query hist key n.
Proof.
  intros Hn [En Hin] Hb.
  destruct (build_index_spec zv m m1 hist Hn Hb)
    as ((En1 & Ez1 & Ee1 & _) & Hlo & _ & Hp1).
  assert (Hn' : 0 <= ntrks m' <= INT32_MAX) by lia.
  destruct (fill_hist_total_items zv m' Hn') as ([m1' h'] & Hf' & Inv').
  { intros i Hi. rewrite En in Hi. destruct (Hlo i Hi) as (Hq & _ & _ & _ & Hmax).
    destruct (Hin i Hi) as [-> _]. auto. }
  pose proof Inv' as ((En1' & _) & _ & _ & _ & Hsum' & Hbins').
  assert (Hcap : to_int32 (ntrks m') <= Hist.capacity).
  { rewrite to_int32_small by (unfold INT32_MIN; lia). destruct Hp1 as [? _]. lia. }
  assert (Hb' : build_index zv m' = Ok (m1', fill_slots m1' (Hist.finalize h'))).
  { apply build_index_intro; [exact Hcap|exact Hf'|].
    rewrite size_finalize, Hsum'. now rewrite En1'. }
  destruct (build_index_spec zv m' m1' _ Hn' Hb')
    as ((_ & Ez1' & Ee1' & _) & Hlo' & _).
  exists m1', (fill_slots m1' (Hist.finalize h')).
  split; [exact Hb'|].
  assert (Ha : agree m1 m1').
  { split; [split; [congruence|]|].
    - intros k Hk. rewrite Ez1, Ez1', Ee1, Ee1'. apply Hin. lia.
    - intros k Hk.
      destruct (Hlo k) as (_ & Ei & Ev & Enn & _); [lia|].
      destruct (Hlo' k) as (_ & Ei' & Ev' & Enn' & _); [lia|].
      destruct (Hin k) as [Ezk _]; [lia|].
      rewrite Ei, Ei', Ev, Ev', Enn, Enn', Ezk. auto. }
  split; [exact Ha|].
  apply build_index_inv in Hb. destruct Hb as (_ & h & Hf & _ & ->).
  pose proof (fill_hist_spec zv m _ Hn Hf) as (_ & _ & _ & _ & _ & Hbins).
  intros key n. unfold Hist.query. apply flat_map_ext. intros b.
  apply fill_slots_sim.
  - lia.
  - apply (agree_ntrks _ _ Ha).
  - intros k Hk. now destruct (agree_at m1 m1' k Ha Hk) as (_ & _ & E & _).
  - intros b'. change (Hist.bins (Hist.finalize h') b') with (Hist.bins h' b').
    change (Hist.bins (Hist.finalize h) b') with (Hist.bins h b').
    now rewrite Hbins, Hbins'.
Qed.

(** X16. The kernel reads nothing it has not written: what [izt], [nn],
    [iv], [nvFinal] and [nvIntermediate] hold when it starts, and what
    [zt] and [ezt2] hold beyond the item count, has no bearing on its
    result.  Two memories holding the same items give runs that complete
    together, with the same keys, neighbour counts and labels for the
    items and the same number of clusters. *)
Theorem stale_memory_ignored zv minT eps errmax chi2max fuel m m' r :
  0 <= ntrks m <= INT32_MAX ->
  same_items m m' ->
  clusterTracksDBSCAN zv minT eps errmax chi2max fuel m = Ok r ->
  exists r', clusterTracksDBSCAN zv minT eps errmax chi2max fuel m' = Ok r' /\
             same_results r r'.
Proof.
  intros Hn Hsame H. open_trace Hn H.
  destruct (build_index_sim zv m m' m1 hist Hn Hsame Hb) as (m1' & hist' & Hb' & Ha1 & Hq).
  pose proof (build_index_query_range zv m m1 hist Hn Hb) as Hrange.
  destruct (build_index_spec zv m m1 hist Hn Hb) as (_ & _ & _ & Hp1).
  pose proof (only_iv_proj _ _ F3) as (En3 & _).
  pose proof (only_iv_proj _ _ F4) as (En4 & _).
  pose proof (only_iv_proj _ _ F5) as (En5 & _).
  assert (Ha2 : agree m2 (count_neighbours eps hist' (Float32.mul errmax errmax) m1')).
  { now apply count_neighbours_sim. }
  assert (Ha3 : agree m3 (seed minT eps hist'
                            (count_neighbours eps hist' (Float32.mul errmax errmax) m1'))).
  { apply seed_sim; auto; [lia|]. intros key j Hj. rewrite En2. eapply Hrange; eauto. }
  destruct (compress_sim minT fuel m3 _ m4 ltac:(lia) Hfo Ha3 Hc) as (m4' & Hc' & Ha4).
  assert (Ha5 : agree m5 (collect_edges minT eps chi2max hist' m4')).
  { apply collect_edges_sim; auto; [lia|]. intros key j Hj. rewrite En4, En2.
    eapply Hrange; eauto. }
  destruct (mark_roots_sim minT m5 _ ltac:(lia) Ha5) as (Ef & Ha6).
  rewrite Hm in Ef, Ha6. cbn [fst snd] in Ef, Ha6.
  destruct (mark_roots minT (collect_edges minT eps chi2max hist' m4')) as [m6' f'] eqn:Hm'.
  cbn [fst snd] in Ef, Ha6. subst f'.
  assert (Hn5 : 0 <= ntrks m5 <= Hist.capacity) by lia.
  destruct (mark_roots_spec minT m5 m6 f Hn5 Hm) as (F6 & _ & _ & Hmk).
  pose proof (only_iv_proj _ _ F6) as (En6 & _).
  assert (Ha7 : agree (propagate m6) (propagate m6')).
  { apply propagate_sim; [lia| |exact Ha6].
    intros k Hk Hpos. rewrite En6 in *.
    destruct (Hmk k Hk) as [(_ & _ & id & Hid & E)|[(_ & _ & E)|(_ & E)]]; [lia|lia|].
    rewrite E. destruct (Hfl k Hk) as (Hr & _). lia. }
  pose proof (only_iv_proj _ _ (propagate_only_iv m6)) as (En7 & _).
  assert (Ha8 : agree (adjust (propagate m6)) (adjust (propagate m6'))).
  { apply adjust_sim; [lia|exact Ha7]. }
  exists (set_nv (adjust (propagate m6')) f). split.
  - rewrite (cluster_intro zv minT eps errmax chi2max fuel m' m1' hist' m4' m6' f Hb' Hc' Hm').
    destruct (Z.ltb_spec f (MAXVTX zv)); [reflexivity|lia].
  - split; [|split; reflexivity]. exact Ha8.
Qed.

Lemma stale_memory_ignored_witness :
  exists r r',
    clusterTracksDBSCAN zv 2 f_0_05 f_1 f_9 5 scenario5 = Ok r /\
    clusterTracksDBSCAN zv 2 f_0_05 f_1 f_9 5 (memory_over positions5 f_0_0001 r) = Ok r' /\
    same_results r r'.
Proof.
  destruct (clusterTracksDBSCAN zv 2 f_0_05 f_1 f_9 5 scenario5) as [r| | |] eqn:H;
    try (vm_compute in H; discriminate).
  destruct (stale_memory_ignored zv 2 f_0_05 f_1 f_9 5 scenario5
              (memory_over positions5 f_0_0001 r) r) as (r' & H' & Hs).
  - vm_compute. split; discriminate.
  - split; [reflexivity|]. intros k Hk. split; reflexivity.
  - exact H.
  - exists r, r'. auto.
Defined.

(** ** The limits only guard *)

(** X17. [MAXTRACKS] and [MAXVTX] appear in assertions only, and the
    fuel of the walk is a bound on its steps only: two runs on the same
    memory that both complete, whatever their limits and fuel, leave the
    same memory. *)
Theorem limits_only_guard zv zv' minT eps errmax chi2max fuel fuel' m r r' :
  clusterTracksDBSCAN zv minT eps errmax chi2max fuel m = Ok r ->
  clusterTracksDBSCAN zv' minT eps errmax chi2max fuel' m = Ok r' ->
  r = r'.
Proof.
  intros H H'.
  set (top := mkzVertex (Z.max (MAXTRACKS zv) (MAXTRACKS zv'))
                        (Z.max (MAXVTX zv) (MAXVTX zv'))).
  apply (cluster_mono zv top minT eps errmax chi2max fuel (Nat.max fuel fuel')) in H;
    [|cbn [MAXTRACKS top]; lia|cbn [MAXVTX top]; lia|lia].
  apply (cluster_mono zv' top minT eps errmax chi2max fuel' (Nat.max fuel fuel')) in H';
    [|cbn [MAXTRACKS top]; lia|cbn [MAXVTX top]; lia|lia].
  congruence.
Qed.

Lemma limits_only_guard_witness :
  exists r r',
    clusterTracksDBSCAN zv 2 f_0_05 f_1 f_9 5 scenario5 = Ok r /\
    clusterTracksDBSCAN (mkzVertex 5 2) 2 f_0_05 f_1 f_9 9 scenario5 = Ok r' /\
    r = r'.
Proof.
  assert (H1 : exists r, clusterTracksDBSCAN zv 2 f_0_05 f_1 f_9 5 scenario5 = Ok r).
  { destruct (clusterTracksDBSCAN zv 2 f_0_05 f_1 f_9 5 scenario5) as [r| | |] eqn:H;
      try (vm_compute in H; discriminate).
    now exists r. }
  assert (H2 : exists r',
             clusterTracksDBSCAN (mkzVertex 5 2) 2 f_0_05 f_1 f_9 9 scenario5 = Ok r').
  { destruct (clusterTracksDBSCAN (mkzVertex 5 2) 2 f_0_05 f_1 f_9 9 scenario5)
      as [r'| | |] eqn:H; try (vm_compute in H; discriminate).
    now exists r'. }
  destruct H1 as [r H]. destruct H2 as [r' H'].
  exists r, r'. split; [exact H|]. split; [exact H'|].
  exact (limits_only_guard zv (mkzVertex 5 2) 2 f_0_05 f_1 f_9 5 9 scenario5 r r' H H').
Defined.

(** ** The distance is symmetric *)

Lemma abs_binary_round_aux prec emax s s' mx ex lx :
  SFabs (binary_round_aux prec emax s mx ex lx) =
  SFabs (binary_round_aux prec emax s' mx ex lx).
Proof.
  unfold binary_round_aux.
  destruct (shr_fexp prec emax mx ex lx) as [mrs e'].
  destruct (shr_fexp prec emax _ e' loc_Exact) as [mrs' e''].
  destruct (shr_m mrs'); [reflexivity| |reflexivity].
  destruct (e'' <=? emax - prec); reflexivity.
Qed.

Lemma abs_binary_normalize_opp prec emax z e :
  SFabs (binary_normalize prec emax (- z) e false) =
  SFabs (binary_normalize prec emax z e false).
Proof.
  destruct z as [|p|p]; [reflexivity| |]; cbn [Z.opp binary_normalize]; unfold binary_round;
    destruct (shl_align _ _ _) as [mz ez]; apply abs_binary_round_aux.
Qed.

Lemma abs_sub_sym a b :
  Float32.abs (Float32.sub a b) = Float32.abs (Float32.sub b a).
Proof.
  unfold Float32.abs, Float32.sub.
  destruct a as [sa|sa| |sa ma ea], b as [sb|sb| |sb mb eb];
    try reflexivity; try (destruct sa, sb; reflexivity).
  cbn [SFsub]. rewrite (Z.min_comm eb ea).
  rewrite <- abs_binary_normalize_opp. f_equal. f_equal. lia.
Qed.

(** ** Runs without a cluster *)

(** X19. The kernel reports no cluster exactly when no item is a core
    item, and then every item ends as noise. *)
Theorem no_cluster_iff_no_core zv minT eps errmax chi2max fuel m m' :
  0 <= ntrks m <= INT32_MAX ->
  clusterTracksDBSCAN zv minT eps errmax chi2max fuel m = Ok m' ->
  (nvFinal m' = 0 <-> forall i, 0 <= i < ntrks m -> nn m' i < minT) /\
  (nvFinal m' = 0 -> forall i, 0 <= i < ntrks m -> iv m' i = 9997).
Proof.
  intros Hn H.
  destruct (cluster_structure _ _ _ _ _ _ _ _ Hn H)
    as (m1' & hist' & _ & En & _ & Hlab & Hbound & _ & _).
  assert (Hnoise : nvFinal m' = 0 -> forall i, 0 <= i < ntrks m ->
                   nn m' i < minT /\ iv m' i = 9997).
  { intros E i Hi. destruct (Hlab i) as [Hid|Hno]; [lia|lia|exact Hno]. }
  split; [split|].
  - intros E i Hi. now apply Hnoise.
  - intros Hnc. open_trace Hn H.
    pose proof (only_iv_proj _ _ F5) as (En5 & _ & _ & _ & Enn5 & _).
    pose proof (only_iv_proj _ _ F8) as (En8 & _ & _ & _ & Enn8 & _).
    assert (Hn5 : 0 <= ntrks m5 <= Hist.capacity) by lia.
    destruct (mark_roots_ids minT m5 m6 f Hn5 Hm) as (Hcnt & Hsur & _).
    change (nvFinal (set_nv (adjust (propagate m6)) f)) with f.
    destruct (Z.eq_dec f 0) as [E|Hne]; [exact E|exfalso].
    destruct (mark_roots_spec minT m5 m6 f Hn5 Hm) as (_ & Hfr & _).
    destruct (Hsur 0) as (k & Hk & _ & Hck & _); [lia|].
    specialize (Hnc k ltac:(lia)).
    change (nn (set_nv (adjust (propagate m6)) f) k) with (nn (adjust (propagate m6)) k) in Hnc.
    rewrite Enn8, <- Enn5 in Hnc. lia.
  - intros E i Hi. now apply Hnoise.
Qed.

Lemma no_cluster_iff_no_core_witness :
  exists m',
    clusterTracksDBSCAN zv 2 f_0_05 f_1 f_9 1 single = Ok m' /\
    (nvFinal m' = 0 <-> forall i, 0 <= i < 1 -> nn m' i < 2) /\
    (nvFinal m' = 0 -> forall i, 0 <= i < 1 -> iv m' i = 9997).
Proof.
  destruct (clusterTracksDBSCAN zv 2 f_0_05 f_1 f_9 1 single) as [m'| | |] eqn:H;
    try (vm_compute in H; discriminate).
  exists m'. split; [reflexivity|].
  apply (no_cluster_iff_no_core zv 2 f_0_05 f_1 f_9 1 single m'); [|exact H].
  vm_compute. split; discriminate.
Defined.

(** ** The order of the iterations *)

(** A loop whose iteration [i] writes slot [i] of one array only, reading
    beside the frame nothing but that slot and slots no iteration writes,
    leaves in each slot what its own iteration alone would. *)
Section SlotLoop.

Context {F V : Type}.
Variables (fr : Memory -> F) (get : Memory -> Z -> V).
Variable body : Memory -> Z -> Memory.
Variable fr0 : F.
Variable Rd : Z -> Prop.

Hypothesis Hfr : forall m i, fr (body m i) = fr m.
Hypothesis Hown : forall m i k, k <> i -> get (body m i) k = get m k.
Hypothesis Hro : forall m i, fr m = fr0 -> Rd i -> get (body m i) i = get m i.
Hypothesis Hdep : forall m m' i,
  fr m = fr0 -> fr m' = fr0 -> get m' i = get m i ->
  (forall k, Rd k -> get m' k = get m k) ->
  get (body m' i) i = get (body m i) i.

Lemma slot_loop l :
  NoDup l -> forall m, fr m = fr0 ->
  fr (fold_left body l m) = fr0 /\
  forall k, get (fold_left body l m) k =
            if in_dec Z.eq_dec k l then get (body m k) k else get m k.
Proof.
  induction l as [|x l IH]; intros Hnd m Hm.
  - split; [exact Hm|]. intros k. reflexivity.
  - inversion Hnd as [|x' l' Hx Hl]; subst x' l'. cbn [fold_left].
    assert (Hm1 : fr (body m x) = fr0) by (rewrite Hfr; exact Hm).
    destruct (IH Hl (body m x) Hm1) as [Hf Hv]. split; [exact Hf|].
    intros k. rewrite Hv.
    destruct (in_dec Z.eq_dec k l) as [Hk|Hk];
      destruct (in_dec Z.eq_dec k (x :: l)) as [Hk'|Hk'].
    + assert (Hne : k <> x) by (intros ->; contradiction).
      apply Hdep; [exact Hm|exact Hm1|now apply Hown|].
      intros j Hj. destruct (Z.eq_dec j x) as [->|Hjx]; [now apply Hro|now apply Hown].
    + destruct Hk'. now right.
    + destruct Hk' as [->|Hin]; [reflexivity|contradiction].
    + apply Hown. intros ->. apply Hk'. now left.
Qed.

Lemma slot_loop_perm l l' m :
  NoDup l -> Permutation l l' -> fr m = fr0 ->
  fr (fold_left body l' m) = fr (fold_left body l m) /\
  forall k, get (fold_left body l' m) k = get (fold_left body l m) k.
Proof.
  intros Hnd Hp Hm.
  assert (Hnd' : NoDup l') by (eapply Permutation_NoDup; eauto).
  destruct (slot_loop l Hnd m Hm) as [Hf Hv].
  destruct (slot_loop l' Hnd' m Hm) as [Hf' Hv'].
  split; [congruence|]. intros k. rewrite Hv, Hv'.
  destruct (in_dec Z.eq_dec k l) as [Hk|Hk]; destruct (in_dec Z.eq_dec k l') as [Hk'|Hk'];
    try reflexivity.
  - destruct Hk'. eapply Permutation_in; eauto.
  - destruct Hk. eapply Permutation_in; [apply Permutation_sym|]; eauto.
Qed.

End SlotLoop.

Lemma same_memory_only_iv m m' :
  only_iv m m' -> (forall k, iv m' k = iv m k) -> same_memory m m'.
Proof.
  intros H Hv. pose proof (only_iv_proj _ _ H) as (En & Ez & Ee & Ei & Enn & Ef & Ev).
  split; [exact En|]. split; [exact Ef|]. split; [exact Ev|].
  intros k. rewrite Ez, Ee, Ei, Enn. auto.
Qed.

Lemma same_memory_only_nn m m' :
  only_nn m m' -> (forall k, nn m' k = nn m k) -> same_memory m m'.
Proof.
  intros H Hv. pose proof (only_nn_proj _ _ H) as (En & Ez & Ee & Ei & Eiv & Ef & Ev).
  split; [exact En|]. split; [exact Ef|]. split; [exact Ev|].
  intros k. rewrite Ez, Ee, Ei, Eiv. auto.
Qed.

(** *** Counting *)

Lemma count_item_own eps hist er2mx m i k :
  k <> i -> nn (count_item eps hist er2mx m i) k = nn m k.
Proof.
  intros Hk. unfold count_item, forEachInBins.
  destruct (Float32.gt _ _); [reflexivity|].
  apply (fold_left_preserves (fun t => nn t k = nn m k)); [reflexivity|].
  intros t j Ht. rewrite <- Ht. unfold count_loop.
  destruct (i =? j); [reflexivity|]. destruct (Float32.gt _ _); [reflexivity|].
  cbn [nn set_nn]. now apply upd_other.
Qed.

Lemma count_item_dep eps hist er2mx m m' i :
  only_nn m m' -> nn m' i = nn m i ->
  nn (count_item eps hist er2mx m' i) i = nn (count_item eps hist er2mx m i) i.
Proof.
  intros F E. pose proof (only_nn_proj _ _ F) as (_ & Ez & Ee & Ei & _).
  unfold count_item, forEachInBins. rewrite Ee, Ei.
  destruct (Float32.gt _ _); [exact E|].
  apply (list_loop_sim (fun u v => only_nn u v /\ nn v i = nn u i)
           (count_loop eps i) (count_loop eps i)); [auto|].
  intros j u v _ [Fuv Euv]. pose proof (only_nn_proj _ _ Fuv) as (_ & Ezu & _).
  unfold count_loop. rewrite Ezu, Euv.
  destruct (i =? j); [auto|]. destruct (Float32.gt _ _); [auto|].
  split; [|cbn [nn set_nn]; now rewrite !upd_same].
  unfold only_nn, frame_nn in *. cbn [ntrks zt ezt2 izt iv nvFinal nvIntermediate set_nn].
  exact Fuv.
Qed.

Lemma count_order eps hist er2mx m l :
  Permutation (uniform_elements (ntrks m)) l ->
  same_memory (count_neighbours eps hist er2mx m) (fold_left (count_item eps hist er2mx) l m).
Proof.
  intros Hp. unfold count_neighbours.
  destruct (slot_loop_perm frame_nn nn (count_item eps hist er2mx) (frame_nn m)
              (fun _ => False)) with (l := uniform_elements (ntrks m)) (l' := l) (m := m)
    as [Hf Hv].
  - intros t i. apply (count_item_only_nn eps hist er2mx t i).
  - intros t i k. apply count_item_own.
  - intros t i _ [].
  - intros t t' i Ht Ht' E _. apply count_item_dep; [|exact E].
    unfold only_nn. congruence.
  - apply uniform_elements_nodup.
  - exact Hp.
  - reflexivity.
  - apply same_memory_only_nn; [exact Hf|exact Hv].
Qed.

(** *** Seeding *)

Lemma seed_item_own minT eps hist m i k :
  k <> i -> iv (seed_item minT eps hist m i) k = iv m k.
Proof.
  intros Hk. unfold seed_item, forEachInBins.
  destruct (_ <? _); [reflexivity|].
  apply (fold_left_snd_preserves (fun t => iv t k = iv m k)); [reflexivity|].
  intros [mz t] j Ht. cbn [snd] in *. rewrite <- Ht. unfold seed_loop.
  destruct (Float32.ge _ _); [reflexivity|]. destruct (_ <? _); [reflexivity|].
  destruct (Float32.gt _ _); [reflexivity|]. cbn [snd iv set_iv]. now apply upd_other.
Qed.

Lemma seed_item_only_iv minT eps hist m i : only_iv m (seed_item minT eps hist m i).
Proof.
  unfold seed_item, forEachInBins. destruct (_ <? _); [reflexivity|].
  apply (fold_left_snd_preserves (only_iv m)); [reflexivity|].
  intros s j Hs. eapply only_iv_trans; [exact Hs|apply seed_loop_only_iv].
Qed.

Lemma seed_item_dep minT eps hist m m' i :
  only_iv m m' -> iv m' i = iv m i ->
  iv (seed_item minT eps hist m' i) i = iv (seed_item minT eps hist m i) i.
Proof.
  intros F E. pose proof (only_iv_proj _ _ F) as (_ & Ez & _ & Ei & Enn & _).
  unfold seed_item, forEachInBins. rewrite Ez, Ei, Enn.
  destruct (_ <? _); [exact E|].
  apply (list_loop_sim
           (fun p q => fst q = fst p /\ only_iv (snd p) (snd q) /\ iv (snd q) i = iv (snd p) i)
           (seed_loop minT eps i) (seed_loop minT eps i)); [cbn [fst snd]; auto|].
  intros j [mz u] [mz' v] _ (Ef & Fuv & Euv). cbn [fst snd] in *. subst mz'.
  pose proof (only_iv_proj _ _ Fuv) as (_ & Ezu & _ & _ & Ennu & _).
  unfold seed_loop. rewrite Ezu, Ennu.
  destruct (Float32.ge _ _); [cbn [fst snd]; auto|].
  destruct (_ <? _); [cbn [fst snd]; auto|].
  destruct (Float32.gt _ _); [cbn [fst snd]; auto|].
  cbn [fst snd iv set_iv]. split; [reflexivity|]. split; [|now rewrite !upd_same].
  unfold only_iv, frame_iv in *. cbn [ntrks zt ezt2 izt nn nvFinal nvIntermediate set_iv].
  exact Fuv.
Qed.

Lemma seed_order minT eps hist m l :
  Permutation (uniform_elements (ntrks m)) l ->
  same_memory (seed minT eps hist m) (fold_left (seed_item minT eps hist) l m).
Proof.
  intros Hp. unfold seed.
  destruct (slot_loop_perm frame_iv iv (seed_item minT eps hist) (frame_iv m)
              (fun _ => False)) with (l := uniform_elements (ntrks m)) (l' := l) (m := m)
    as [Hf Hv].
  - intros t i. apply (seed_item_only_iv minT eps hist t i).
  - intros t i k. apply seed_item_own.
  - intros t i _ [].
  - intros t t' i Ht Ht' E _. apply seed_item_dep; [|exact E].
    unfold only_iv. congruence.
  - apply uniform_elements_nodup.
  - exact Hp.
  - reflexivity.
  - apply same_memory_only_iv; [exact Hf|exact Hv].
Qed.

(** *** Collecting edges *)

Lemma edge_item_own minT eps chi2max hist m i k :
  k <> i -> iv (edge_item minT eps chi2max hist m i) k = iv m k.
Proof.
  intros Hk. unfold edge_item, forEachInBins.
  destruct (_ <=? _); [reflexivity|].
  apply (fold_left_snd_preserves (fun t => iv t k = iv m k)); [reflexivity|].
  intros [md t] j Ht. cbn [snd] in *. rewrite <- Ht. unfold edge_loop.
  destruct (_ <? _); [reflexivity|]. destruct (Float32.gt _ _); [reflexivity|].
  destruct (Float32.gt _ _); [reflexivity|]. cbn [snd iv set_iv]. now apply upd_other.
Qed.

Lemma edge_item_only_iv minT eps chi2max hist m i :
  only_iv m (edge_item minT eps chi2max hist m i).
Proof.
  unfold edge_item, forEachInBins. destruct (_ <=? _); [reflexivity|].
  apply (fold_left_snd_preserves (only_iv m)); [reflexivity|].
  intros s j Hs. eapply only_iv_trans; [exact Hs|apply edge_loop_only_iv].
Qed.

Lemma edge_item_dep minT eps chi2max hist m m' i :
  only_iv m m' -> iv m' i = iv m i ->
  (forall k, minT <= nn m k -> iv m' k = iv m k) ->
  iv (edge_item minT eps chi2max hist m' i) i = iv (edge_item minT eps chi2max hist m i) i.
Proof.
  intros F E Hcore. pose proof (only_iv_proj _ _ F) as (_ & Ez & Ee & Ei & Enn & _).
  unfold edge_item, forEachInBins. rewrite Ei, Enn.
  destruct (_ <=? _); [exact E|].
  refine (proj1 (proj2 (proj2 (list_loop_sim
           (fun p q => fst q = fst p /\ only_iv (snd p) (snd q) /\
                       iv (snd q) i = iv (snd p) i /\
                       only_iv m (snd p) /\
                       forall k, minT <= nn m k -> iv (snd q) k = iv (snd p) k)
           (edge_loop minT chi2max i) (edge_loop minT chi2max i)
           (Hist.query hist (izt m i) 1) (eps, m) (eps, m') _ _)))).
  { cbn [fst snd]. split; [reflexivity|]. split; [exact F|]. split; [exact E|].
    split; [reflexivity|exact Hcore]. }
  intros j [md u] [md' v] _ (Ef & Fuv & Euv & Fmu & Hc). cbn [fst snd] in *. subst md'.
  pose proof (only_iv_proj _ _ Fuv) as (_ & Ezu & Eeu & _ & Ennu & _).
  pose proof (only_iv_proj _ _ Fmu) as (_ & _ & _ & _ & Ennm & _).
  unfold edge_loop. rewrite Ezu, Eeu, Ennu.
  destruct (Z.ltb_spec (nn u j) minT) as [|Hcj]; [cbn [fst snd]; auto 6|].
  destruct (Float32.gt _ _); [cbn [fst snd]; auto 6|].
  destruct (Float32.gt _ _); [cbn [fst snd]; auto 6|].
  rewrite (Hc j) by (rewrite <- Ennm; exact Hcj).
  cbn [fst snd iv set_iv]. split; [reflexivity|]. split; [|split; [now rewrite !upd_same|split]].
  - unfold only_iv, frame_iv in *. cbn [ntrks zt ezt2 izt nn nvFinal nvIntermediate set_iv].
    exact Fuv.
  - unfold only_iv, frame_iv in *. cbn [ntrks zt ezt2 izt nn nvFinal nvIntermediate set_iv].
    exact Fmu.
  - intros k Hk. unfold upd. destruct (k =? i); [reflexivity|now apply Hc].
Qed.

Lemma collect_edges_order minT eps chi2max hist m l :
  Permutation (uniform_elements (ntrks m)) l ->
  same_memory (collect_edges minT eps chi2max hist m)
              (fold_left (edge_item minT eps chi2max hist) l m).
Proof.
  intros Hp. unfold collect_edges.
  destruct (slot_loop_perm frame_iv iv (edge_item minT eps chi2max hist) (frame_iv m)
              (fun k => minT <= nn m k))
    with (l := uniform_elements (ntrks m)) (l' := l) (m := m) as [Hf Hv].
  - intros t i. apply (edge_item_only_iv minT eps chi2max hist t i).
  - intros t i k. apply edge_item_own.
  - intros t i Ht Hc.
    assert (Enn : nn t = nn m) by (unfold frame_iv in Ht; congruence).
    unfold edge_item. rewrite Enn.
    destruct (Z.leb_spec minT (nn m i)); [reflexivity|lia].
  - intros t t' i Ht Ht' E Hc.
    assert (Enn : nn t = nn m) by (unfold frame_iv in Ht; congruence).
    apply edge_item_dep; [unfold only_iv; congruence|exact E|].
    intros k Hk. apply Hc. rewrite <- Enn. exact Hk.
  - apply uniform_elements_nodup.
  - exact Hp.
  - reflexivity.
  - apply same_memory_only_iv; [exact Hf|exact Hv].
Qed.

(** *** Consolidation *)

Lemma compress_item_forest minT fuel m i m' :
  forest minT m -> 0 <= i < ntrks m -> compress_item fuel m i = Ok m' ->
  forest minT m'.
Proof.
  intros Hf Hi Hc. unfold compress_item in Hc.
  destruct (walk fuel (iv m) (iv m i)) as [r|] eqn:Hw; [|discriminate].
  injection Hc as <-.
  pose proof (forest_pointer_range minT m i Hf Hi) as Hp.
  destruct (walk_sound minT m Hf fuel _ _ Hp Hw) as (Hr & Hroot & Hrel).
  intros k Hk. cbn [ntrks set_iv] in Hk. cbn [iv set_iv zt nn ntrks].
  destruct (Z.eq_dec k i) as [->|Hne].
  - rewrite upd_same.
    destruct (Z.eq_dec r i) as [->|Hri]; [now left|]. right.
    split; [exact Hr|].
    destruct (Hf i Hi) as [E|(_ & Hlt & Hci & Hcp)].
    + rewrite E in Hw. now destruct (Hri (walk_of_root _ _ _ _ E Hw)).
    + destruct Hrel as [->|(Hlt' & _ & Hcr)]; [auto|].
      split; [eapply lt_trans; eauto|auto].
  - rewrite upd_other by exact Hne.
    destruct (Hf k Hk) as [E|(Hrk & Hlt & Hck & Hcp)]; [now left|]. right.
    split; [exact Hrk|]. split; [exact Hlt|]. split; [exact Hck|exact Hcp].
Qed.

Lemma rank_only_iv m m' p : only_iv m m' -> rank m' p = rank m p.
Proof.
  intros F. pose proof (only_iv_proj _ _ F) as (En & Ez & _).
  unfold rank. now rewrite En, Ez.
Qed.

(** The consolidation over the items of a list, in the order of the
    list: every item of the list ends at the root of its chain. *)
Lemma compress_list minT fuel l :
  forall m, forest minT m -> (forall i, In i l -> 0 <= i < ntrks m) -> NoDup l ->
  ntrks m <= Z.of_nat fuel ->
  exists m', for_each (compress_item fuel) l m = Ok m' /\ only_iv m m' /\
    forall k, (In k l -> exists f, walk f (iv m) k = Some (iv m' k)) /\
              (~ In k l -> iv m' k = iv m k).
Proof.
  induction l as [|x l IH]; intros m Hf Hl Hnd Hfuel.
  - exists m. split; [reflexivity|]. split; [reflexivity|].
    intros k. split; [intros []|reflexivity].
  - inversion Hnd as [|x' l' Hx Hnd']; subst x' l'.
    assert (Hxr : 0 <= x < ntrks m) by (apply Hl; now left).
    pose proof (forest_pointer_range minT m x Hf Hxr) as Hp.
    destruct (walk_total minT m Hf fuel (iv m x) Hp) as (r & Hw).
    { pose proof (rank_bound m (iv m x) Hp). lia. }
    assert (Hb : compress_item fuel m x = Ok (set_iv m x r)).
    { unfold compress_item. now rewrite Hw. }
    pose proof (compress_item_forest minT fuel m x _ Hf Hxr Hb) as Hf1.
    pose proof (compress_item_only_iv _ _ _ _ Hb) as F1.
    pose proof (only_iv_proj _ _ F1) as (En1 & _).
    destruct (IH (set_iv m x r) Hf1) as (m' & Hm' & F' & Hv); [|exact Hnd'|lia|].
    { intros i Hi. rewrite En1. apply Hl. now right. }
    exists m'. cbn [for_each]. rewrite Hb. cbn [bind].
    split; [exact Hm'|]. split; [exact (only_iv_trans _ _ _ F1 F')|].
    intros k. destruct (Hv k) as [Hin Hout]. split.
    + intros [<-|Hk].
      * rewrite (Hout Hx). cbn [iv set_iv]. rewrite upd_same.
        destruct (Z.eq_dec (iv m x) x) as [E|Hne].
        -- exists fuel. now rewrite E in Hw.
        -- exists (S fuel). now rewrite walk_step.
      * destruct (Hin Hk) as (f & Hwk).
        assert (Hkr : 0 <= k < ntrks m) by (apply Hl; now right).
        destruct (walk_total minT m Hf (S (rank m k)) k Hkr) as (r0 & Hr0); [lia|].
        destruct (compress_item_reach _ _ _ _ Hb _ _ _ Hr0) as (f' & Hf').
        assert (r0 = iv m' k) by (eapply walk_det; eauto). subst r0.
        eexists; eauto.
    + intros Hk. rewrite Hout by (intros H; apply Hk; now right).
      cbn [iv set_iv]. apply upd_other. intros ->. apply Hk. now left.
Qed.

Lemma compress_order minT fuel m m4 l :
  0 <= ntrks m -> forest minT m -> compress fuel m = Ok m4 ->
  ntrks m <= Z.of_nat fuel ->
  Permutation (uniform_elements (ntrks m)) l ->
  exists m4', for_each (compress_item fuel) l m = Ok m4' /\ same_memory m4 m4'.
Proof.
  intros Hn Hf Hc Hfuel Hp.
  assert (Hnd : NoDup l) by (eapply Permutation_NoDup; [exact Hp|apply uniform_elements_nodup]).
  assert (Hl : forall i, In i l <-> 0 <= i < ntrks m).
  { intros i. rewrite <- In_uniform_elements. split; apply Permutation_in;
      [now apply Permutation_sym|exact Hp]. }
  destruct (compress_list minT fuel l m Hf (fun i Hi => proj1 (Hl i) Hi) Hnd Hfuel)
    as (m4' & Hm4' & F' & Hv).
  exists m4'. split; [exact Hm4'|].
  pose proof (compress_only_iv _ _ _ Hc) as F4.
  apply same_memory_only_iv.
  - unfold only_iv in *. congruence.
  - intros k. destruct (Hv k) as [Hin Hout].
    pose proof (compress_sound minT fuel m m4 Hn Hf Hc) as (_ & _ & Hout4 & _).
    destruct (Z_le_dec 0 k) as [H0|H0]; [destruct (Z_lt_dec k (ntrks m)) as [H1|H1]|].
    + destruct (Hin (proj2 (Hl k) (conj H0 H1))) as (f & Hw).
      destruct (compress_root minT fuel m m4 Hn Hf Hc k (conj H0 H1)) as (f' & Hw').
      eapply walk_det; eauto.
    + rewrite Hout by (rewrite Hl; lia). symmetry. apply Hout4. lia.
    + rewrite Hout by (rewrite Hl; lia). symmetry. apply Hout4. lia.
Qed.

(** *** Propagation and adjustment *)

Lemma propagate_item_only_iv m i : only_iv m (propagate_item m i).
Proof. unfold propagate_item. destruct (_ <=? _); reflexivity. Qed.

Lemma propagate_list l :
  forall m, NoDup l ->
  (forall k, In k l -> 0 <= iv m k -> iv m (iv m k) < 0) ->
  only_iv m (fold_left propagate_item l m) /\
  forall k, iv (fold_left propagate_item l m) k =
            if in_dec Z.eq_dec k l
            then (if 0 <=? iv m k then iv m (iv m k) else iv m k)
            else iv m k.
Proof.
  induction l as [|x l IH]; intros m Hnd Ht.
  - split; [reflexivity|]. intros k. reflexivity.
  - inversion Hnd as [|x' l' Hx Hnd']; subst x' l'. cbn [fold_left].
    assert (Hneg : forall k, iv m k < 0 -> iv (propagate_item m x) k = iv m k).
    { intros k Hk. unfold propagate_item.
      destruct (Z.leb_spec 0 (iv m x)) as [Hpos|_]; [|reflexivity].
      cbn [iv set_iv]. apply upd_other. intros ->. lia. }
    assert (Hoth : forall k, k <> x -> iv (propagate_item m x) k = iv m k).
    { intros k Hk. unfold propagate_item. destruct (_ <=? _); [|reflexivity].
      cbn [iv set_iv]. now apply upd_other. }
    destruct (IH (propagate_item m x) Hnd') as [F Hv].
    { intros k Hk Hpos.
      assert (Hkx : k <> x) by (intros ->; contradiction).
      rewrite (Hoth k Hkx) in Hpos. rewrite (Hoth k Hkx).
      assert (Hn : iv m (iv m k) < 0) by (apply Ht; [now right|exact Hpos]).
      rewrite (Hneg _ Hn). exact Hn. }
    split; [eapply only_iv_trans; [apply propagate_item_only_iv|exact F]|].
    intros k. rewrite Hv.
    destruct (in_dec Z.eq_dec k l) as [Hk|Hk];
      destruct (in_dec Z.eq_dec k (x :: l)) as [Hk'|Hk'].
    + assert (Hkx : k <> x) by (intros ->; contradiction).
      rewrite Hoth by exact Hkx.
      destruct (Z.leb_spec 0 (iv m k)) as [Hpos|_]; [|reflexivity].
      apply Hneg. apply Ht; [now right|exact Hpos].
    + destruct Hk'. now right.
    + destruct Hk' as [->|Hin]; [|contradiction].
      unfold propagate_item. destruct (Z.leb_spec 0 (iv m k)); [|reflexivity].
      cbn [iv set_iv]. apply upd_same.
    + apply Hoth. intros ->. apply Hk'. now left.
Qed.

Lemma propagate_order m l :
  (forall k, 0 <= k < ntrks m -> 0 <= iv m k -> iv m (iv m k) < 0) ->
  Permutation (uniform_elements (ntrks m)) l ->
  same_memory (propagate m) (fold_left propagate_item l m).
Proof.
  intros Ht Hp. unfold propagate.
  assert (Hnd : NoDup l) by (eapply Permutation_NoDup; [exact Hp|apply uniform_elements_nodup]).
  assert (Hl : forall i, In i l <-> In i (uniform_elements (ntrks m))).
  { intros i. split; apply Permutation_in; [now apply Permutation_sym|exact Hp]. }
  destruct (propagate_list (uniform_elements (ntrks m)) m (uniform_elements_nodup _))
    as [F Hv].
  { intros k Hk. apply Ht. now apply In_uniform_elements. }
  destruct (propagate_list l m Hnd) as [F' Hv'].
  { intros k Hk. apply Ht. apply In_uniform_elements. now apply Hl. }
  apply same_memory_only_iv; [unfold only_iv in *; congruence|].
  intros k. rewrite Hv, Hv'.
  destruct (in_dec Z.eq_dec k l) as [Hk|Hk];
    destruct (in_dec Z.eq_dec k (uniform_elements (ntrks m))) as [Hk'|Hk']; try reflexivity.
  - destruct Hk'. now apply Hl.
  - destruct Hk. now apply Hl.
Qed.

Lemma adjust_order m l :
  Permutation (uniform_elements (ntrks m)) l ->
  same_memory (adjust m) (fold_left adjust_item l m).
Proof.
  intros Hp. unfold adjust.
  destruct (slot_loop_perm frame_iv iv adjust_item (frame_iv m) (fun _ => False))
    with (l := uniform_elements (ntrks m)) (l' := l) (m := m) as [Hf Hv].
  - intros t i. reflexivity.
  - intros t i k Hk. cbn [adjust_item iv set_iv]. unfold adjust_item. cbn [iv set_iv].
    now apply upd_other.
  - intros t i _ [].
  - intros t t' i _ _ E _. unfold adjust_item. cbn [iv set_iv]. now rewrite !upd_same, E.
  - apply uniform_elements_nodup.
  - exact Hp.
  - reflexivity.
  - apply same_memory_only_iv; [exact Hf|exact Hv].
Qed.

(** *** Marking the roots *)

Lemma filter_length_le_all {A : Type} (f : A -> bool) l :
  (length (filter f l) <= length l)%nat.
Proof.
  induction l as [|x l IH]; simpl; [lia|]. destruct (f x); simpl; lia.
Qed.

(** The marking loop over the items of a list, in the order of the list:
    the core roots of the list get the ids below their number, one
    each. *)
Lemma mark_list minT m0 l :
  0 <= ntrks m0 <= Hist.capacity -> NoDup l ->
  (forall k, In k l -> 0 <= k < ntrks m0) ->
  forall m f, fold_left (mark_item minT) l (m0, 0) = (m, f) ->
  only_iv m0 m /\
  f = Z.of_nat (length (filter (fun k => (iv m0 k =? k) && (minT <=? nn m0 k)) l)) /\
  (forall k, ~ In k l -> iv m k = iv m0 k) /\
  (forall k, In k l -> iv m0 k <> k -> iv m k = iv m0 k) /\
  (forall k, In k l -> iv m0 k = k -> nn m0 k < minT -> iv m k = -9998) /\
  (forall k, In k l -> iv m0 k = k -> minT <= nn m0 k ->
     exists c, 0 <= c < f /\ iv m k = - (c + 1)) /\
  (forall c, 0 <= c < f ->
     exists k, In k l /\ iv m0 k = k /\ minT <= nn m0 k /\ iv m k = - (c + 1)) /\
  (forall k k', In k l -> In k' l ->
     iv m0 k = k -> minT <= nn m0 k -> iv m0 k' = k' -> minT <= nn m0 k' ->
     iv m k = iv m k' -> k = k').
Proof.
  intros Hn. induction l as [|x l IH] using rev_ind; intros Hnd Hl m f Hm.
  - cbn [fold_left] in Hm. injection Hm as <- <-.
    split; [reflexivity|]. split; [reflexivity|]. split; [reflexivity|].
    split; [intros k []|]. split; [intros k []|]. split; [intros k []|].
    split; [intros c Hc; simpl in Hc; lia|]. intros k k' [].
  - rewrite fold_left_app in Hm. cbn [fold_left] in Hm.
    destruct (fold_left (mark_item minT) l (m0, 0)) as [t g] eqn:Ht.
    assert (Hnd' : NoDup l /\ ~ In x l).
    { apply NoDup_remove in Hnd. rewrite app_nil_r in Hnd. exact Hnd. }
    destruct Hnd' as [Hnd' Hx].
    assert (Hxr : 0 <= x < ntrks m0) by (apply Hl, in_or_app; right; now left).
    destruct (IH Hnd' (fun k Hk => Hl k (in_or_app _ _ _ (or_introl Hk))) t g eq_refl)
      as (F & Hcnt & Hout & Hnr & Hnoise & Hcode & Hsur & Hinj).
    pose proof (only_iv_proj _ _ F) as (_ & _ & _ & _ & Enn & _).
    assert (Hlen : Z.of_nat (length l) <= ntrks m0).
    { rewrite <- (uniform_elements_length (ntrks m0)) by lia. apply inj_le.
      apply NoDup_incl_length; [exact Hnd'|].
      intros k Hk. apply In_uniform_elements. apply Hl, in_or_app. now left. }
    assert (Hg : 0 <= g <= Z.of_nat (length l)).
    { rewrite Hcnt. split; [lia|]. apply inj_le. apply filter_length_le_all. }
    rewrite filter_app, length_app, Nat2Z.inj_add. cbn [filter].
    assert (Hin : forall k, In k (l ++ [x]) <-> In k l \/ k = x).
    { intros k. rewrite in_app_iff. cbn [In]. intuition. }
    unfold mark_item in Hm. rewrite Enn in Hm. rewrite (Hout x Hx) in Hm.
    rewrite to_int32_small in Hm by (unfold INT32_MIN, INT32_MAX, Hist.capacity in *; lia).
    destruct (Z.eqb_spec (iv m0 x) x) as [Eroot|Hnroot].
    + destruct (Z.leb_spec minT (nn m0 x)) as [Hc|Hnc].
      * unfold atomicInc in Hm.
        destruct (Z.leb_spec 4294967295 g) as [Hbig|_];
          [unfold Hist.capacity in Hn; lia|].
        rewrite to_uint32_neg in Hm by (unfold Hist.capacity in Hn; lia).
        injection Hm as <- <-. cbn [andb length].
        assert (Hold : forall k, k <> x -> iv (set_iv t x (- (g + 1))) k = iv t k).
        { intros k Hk. cbn [iv set_iv]. now apply upd_other. }
        assert (Hnew : iv (set_iv t x (- (g + 1))) x = - (g + 1)).
        { cbn [iv set_iv]. apply upd_same. }
        split; [eapply only_iv_trans; [exact F|apply only_iv_set_iv]|].
        split; [lia|]. split; [|split; [|split; [|split; [|split]]]].
        -- intros k Hk. rewrite Hin in Hk. rewrite Hold by tauto. apply Hout. tauto.
        -- intros k Hk Hne. apply Hin in Hk. destruct Hk as [Hk| ->]; [|contradiction].
           rewrite Hold by (intros ->; contradiction). now apply Hnr.
        -- intros k Hk E Hlt. apply Hin in Hk. destruct Hk as [Hk| ->]; [|lia].
           rewrite Hold by (intros ->; contradiction). now apply Hnoise.
        -- intros k Hk E Hck. apply Hin in Hk. destruct Hk as [Hk| ->].
           ++ destruct (Hcode k Hk E Hck) as (c & Hc' & Ec). exists c. split; [lia|].
              rewrite Hold by (intros ->; contradiction). exact Ec.
           ++ exists g. split; [lia|exact Hnew].
        -- intros c Hc'. destruct (Z.eq_dec c g) as [->|Hne].
           ++ exists x. split; [apply Hin; now right|]. auto.
           ++ destruct (Hsur c) as (k & Hk & H1 & H2 & H3); [lia|].
              exists k. split; [apply Hin; now left|].
              rewrite Hold by (intros ->; contradiction). auto.
        -- intros k k' Hk Hk' H1 H2 H1' H2' E.
           apply Hin in Hk. apply Hin in Hk'.
           destruct Hk as [Hk| ->]; destruct Hk' as [Hk'| ->]; [| | |reflexivity].
           ++ rewrite !Hold in E by (intros ->; contradiction). now apply Hinj.
           ++ exfalso. rewrite Hnew, Hold in E by (intros ->; contradiction).
              destruct (Hcode k Hk H1 H2) as (c & Hc' & Ec). lia.
           ++ exfalso. rewrite Hnew, Hold in E by (intros ->; contradiction).
              destruct (Hcode k' Hk' H1' H2') as (c & Hc' & Ec). lia.
      * injection Hm as <- <-. cbn [andb length].
        assert (Hold : forall k, k <> x -> iv (set_iv t x (-9998)) k = iv t k).
        { intros k Hk. cbn [iv set_iv]. now apply upd_other. }
        split; [eapply only_iv_trans; [exact F|apply only_iv_set_iv]|].
        split; [lia|]. split; [|split; [|split; [|split; [|split]]]].
        -- intros k Hk. rewrite Hin in Hk. rewrite Hold by tauto. apply Hout. tauto.
        -- intros k Hk Hne. apply Hin in Hk. destruct Hk as [Hk| ->]; [|contradiction].
           rewrite Hold by (intros ->; contradiction). now apply Hnr.
        -- intros k Hk E Hlt. apply Hin in Hk. destruct Hk as [Hk| ->].
           ++ rewrite Hold by (intros ->; contradiction). now apply Hnoise.
           ++ cbn [iv set_iv]. apply upd_same.
        -- intros k Hk E Hck. apply Hin in Hk. destruct Hk as [Hk| ->]; [|lia].
           destruct (Hcode k Hk E Hck) as (c & Hc' & Ec). exists c. split; [lia|].
           rewrite Hold by (intros ->; contradiction). exact Ec.
        -- intros c Hc'. destruct (Hsur c) as (k & Hk & H1 & H2 & H3); [lia|].
           exists k. split; [apply Hin; now left|].
           rewrite Hold by (intros ->; contradiction). auto.
        -- intros k k' Hk Hk' H1 H2 H1' H2' E.
           apply Hin in Hk. apply Hin in Hk'.
           destruct Hk as [Hk| ->]; [|lia]. destruct Hk' as [Hk'| ->]; [|lia].
           rewrite !Hold in E by (intros ->; contradiction). now apply Hinj.
    + injection Hm as <- <-. cbn [andb length].
      split; [exact F|]. split; [lia|]. split; [|split; [|split; [|split; [|split]]]].
      -- intros k Hk. rewrite Hin in Hk. apply Hout. tauto.
      -- intros k Hk Hne. apply Hin in Hk. destruct Hk as [Hk| ->]; [now apply Hnr|].
         now apply Hout.
      -- intros k Hk E Hlt. apply Hin in Hk. destruct Hk as [Hk| ->]; [|contradiction].
         now apply Hnoise.
      -- intros k Hk E Hck. apply Hin in Hk. destruct Hk as [Hk| ->]; [|contradiction].
         destruct (Hcode k Hk E Hck) as (c & Hc' & Ec). exists c. split; [lia|exact Ec].
      -- intros c Hc'. destruct (Hsur c) as (k & Hk & H1 & H2 & H3); [lia|].
         exists k. split; [apply Hin; now left|]. auto.
      -- intros k k' Hk Hk' H1 H2 H1' H2' E.
         apply Hin in Hk. apply Hin in Hk'.
         destruct Hk as [Hk| ->]; [|contradiction]. destruct Hk' as [Hk'| ->]; [|contradiction].
         now apply Hinj.
Qed.

(** ** The loops in any order of their iterations *)

(** X20. The loops that count the neighbours, seed the pointers, collect
    the edges and adjust the ids give the same memory whatever the order
    in which they take the items: an iteration writes the slot of its own
    item only and reads nothing another iteration writes. *)
Theorem item_loops_any_order minT eps chi2max er2mx hist m l :
  Permutation (uniform_elements (ntrks m)) l ->
  same_memory (count_neighbours eps hist er2mx m)
              (fold_left (count_item eps hist er2mx) l m) /\
  same_memory (seed minT eps hist m) (fold_left (seed_item minT eps hist) l m) /\
  same_memory (collect_edges minT eps chi2max hist m)
              (fold_left (edge_item minT eps chi2max hist) l m) /\
  same_memory (adjust m) (fold_left adjust_item l m).
Proof.
  intros Hp.
  split; [now apply count_order|]. split; [now apply seed_order|].
  split; [now apply collect_edges_order|now apply adjust_order].
Qed.

Lemma item_loops_any_order_witness :
  exists m1 hist,
    build_index zv scenario5 = Ok (m1, hist) /\
    let l := rev (uniform_elements (ntrks m1)) in
    same_memory (count_neighbours f_0_05 hist f_1 m1)
                (fold_left (count_item f_0_05 hist f_1) l m1) /\
    same_memory (seed 2 f_0_05 hist m1) (fold_left (seed_item 2 f_0_05 hist) l m1) /\
    same_memory (collect_edges 2 f_0_05 f_9 hist m1)
                (fold_left (edge_item 2 f_0_05 f_9 hist) l m1) /\
    same_memory (adjust m1) (fold_left adjust_item l m1).
Proof.
  destruct (build_index zv scenario5) as [[m1 hist]| | |] eqn:Hb;
    try (vm_compute in Hb; discriminate).
  exists m1, hist. split; [reflexivity|].
  apply (item_loops_any_order 2 f_0_05 f_9 f_1 hist m1 (rev (uniform_elements (ntrks m1)))).
  apply Permutation_rev.
Defined.

(** X21. The consolidation loop, too, gives the same memory in any order
    of the items, although its walks go through the pointers other
    iterations rewrite: each item ends at the root of its own chain.
    (The bound on the steps of a walk is taken as large as the item
    count, which is enough for every order.) *)
Theorem consolidation_any_order zv minT eps errmax fuel m m1 hist m4 l :
  0 <= ntrks m <= INT32_MAX ->
  build_index zv m = Ok (m1, hist) ->
  let m3 := seed minT eps hist
              (count_neighbours eps hist (Float32.mul errmax errmax) m1) in
  compress fuel m3 = Ok m4 ->
  ntrks m <= Z.of_nat fuel ->
  Permutation (uniform_elements (ntrks m)) l ->
  exists m4', for_each (compress_item fuel) l m3 = Ok m4' /\ same_memory m4 m4'.
Proof.
  intros Hn Hb m3 Hc Hfuel Hp.
  destruct (seeded_state zv minT eps errmax m m1 hist Hn Hb) as (_ & _ & Hfo & _ & _ & Ein).
  fold m3 in Hfo, Ein.
  assert (En3 : ntrks m3 = ntrks m) by (unfold inputs in Ein; congruence).
  apply (compress_order minT fuel m3 m4 l); [lia|exact Hfo|exact Hc|lia|].
  now rewrite En3.
Qed.

Lemma consolidation_any_order_witness :
  exists m1 hist m4,
    build_index zv groups6 = Ok (m1, hist) /\
    let m3 := seed 2 f_0_05 hist (count_neighbours f_0_05 hist (Float32.mul f_1 f_1) m1) in
    compress 6 m3 = Ok m4 /\
    exists m4', for_each (compress_item 6) (rev (uniform_elements 6)) m3 = Ok m4' /\
                same_memory m4 m4'.
Proof.
  destruct (build_index zv groups6) as [[m1 hist]| | |] eqn:Hb;
    try (vm_compute in Hb; discriminate).
  destruct (compress 6 (seed 2 f_0_05 hist
                          (count_neighbours f_0_05 hist (Float32.mul f_1 f_1) m1)))
    as [m4| | |] eqn:Hc;
    try (vm_compute in Hb; injection Hb as <- <-; vm_compute in Hc; discriminate).
  exists m1, hist, m4. split; [reflexivity|]. split; [exact Hc|].
  apply (consolidation_any_order zv 2 f_0_05 f_1 6 groups6 m1 hist m4
           (rev (uniform_elements 6))).
  - vm_compute. split; discriminate.
  - exact Hb.
  - exact Hc.
  - vm_compute. discriminate.
  - apply (Permutation_rev (uniform_elements 6)).
Defined.

(** X22. The marking loop in any order of the items: the number of ids
    it allocates is the same, every item that is not a core root gets the
    same code (the noise marker, or its pointer left in place), and the
    core roots get ids below that number, different for different
    roots; only which root gets which id depends on the order. *)
Theorem marking_any_order minT m l :
  0 <= ntrks m <= Hist.capacity ->
  Permutation (uniform_elements (ntrks m)) l ->
  let r := mark_roots minT m in
  let r' := fold_left (mark_item minT) l (m, 0) in
  snd r' = snd r /\
  (forall k, ~ (0 <= k < ntrks m /\ iv m k = k /\ minT <= nn m k) ->
             iv (fst r') k = iv (fst r) k) /\
  (forall k, 0 <= k < ntrks m -> iv m k = k -> minT <= nn m k ->
     exists c c', 0 <= c < snd r /\ 0 <= c' < snd r /\
                  iv (fst r) k = - (c + 1) /\ iv (fst r') k = - (c' + 1)) /\
  (forall k k', 0 <= k < ntrks m -> 0 <= k' < ntrks m ->
     iv m k = k -> minT <= nn m k -> iv m k' = k' -> minT <= nn m k' ->
     iv (fst r') k = iv (fst r') k' -> k = k').
Proof.
  intros Hn Hp r r'.
  assert (Hnd : NoDup l) by (eapply Permutation_NoDup; [exact Hp|apply uniform_elements_nodup]).
  assert (Hl : forall i, In i l <-> 0 <= i < ntrks m).
  { intros i. rewrite <- In_uniform_elements. split; apply Permutation_in;
      [now apply Permutation_sym|exact Hp]. }
  destruct r as [m6 f] eqn:Er. destruct r' as [m6' f'] eqn:Er'. cbn [fst snd].
  destruct (mark_list minT m (uniform_elements (ntrks m)) Hn (uniform_elements_nodup _)
              (fun k Hk => proj1 (In_uniform_elements _ _) Hk) m6 f Er)
    as (_ & Hcnt & Hout & Hnr & Hnoise & Hcode & _ & _).
  destruct (mark_list minT m l Hn Hnd (fun k Hk => proj1 (Hl k) Hk) m6' f' Er')
    as (_ & Hcnt' & Hout' & Hnr' & Hnoise' & Hcode' & _ & Hinj').
  assert (Ef : f' = f).
  { rewrite Hcnt, Hcnt'. f_equal. apply filter_length_nodup;
      [exact Hnd|apply uniform_elements_nodup|].
    intros k. rewrite Hl, In_uniform_elements. tauto. }
  split; [exact Ef|]. split; [|split].
  - intros k Hk.
    destruct (Z_le_dec 0 k) as [H0|H0]; [destruct (Z_lt_dec k (ntrks m)) as [H1|H1]|].
    + assert (Hin : In k l) by (apply Hl; lia).
      assert (Hin' : In k (uniform_elements (ntrks m))) by (apply In_uniform_elements; lia).
      destruct (Z.eq_dec (iv m k) k) as [E|Hne].
      * assert (Hnc : nn m k < minT) by (destruct (Z_lt_le_dec (nn m k) minT); tauto).
        rewrite (Hnoise k Hin' E Hnc), (Hnoise' k Hin E Hnc). reflexivity.
      * rewrite (Hnr k Hin' Hne), (Hnr' k Hin Hne). reflexivity.
    + rewrite Hout by (rewrite In_uniform_elements; lia).
      rewrite Hout' by (rewrite Hl; lia). reflexivity.
    + rewrite Hout by (rewrite In_uniform_elements; lia).
      rewrite Hout' by (rewrite Hl; lia). reflexivity.
  - intros k Hk E Hc.
    destruct (Hcode k (proj2 (In_uniform_elements _ _) Hk) E Hc) as (c & Hc1 & Ec).
    destruct (Hcode' k (proj2 (Hl k) Hk) E Hc) as (c' & Hc1' & Ec').
    exists c, c'. rewrite Ef in Hc1'. auto.
  - intros k k' Hk Hk' E Hc E' Hc' Eq.
    apply (Hinj' k k'); auto; now apply Hl.
Qed.

Lemma marking_any_order_witness :
  let m := mkMemory 3 (fun _ => f_0) (fun _ => f_1) (fun _ => 128) (fun _ => 2)
                    (fun k => k) 0 0 in
  let l := [2; 0; 1] in
  let r := mark_roots 2 m in
  let r' := fold_left (mark_item 2) l (m, 0) in
  snd r' = snd r /\
  (forall k, ~ (0 <= k < ntrks m /\ iv m k = k /\ 2 <= nn m k) ->
             iv (fst r') k = iv (fst r) k) /\
  (forall k, 0 <= k < ntrks m -> iv m k = k -> 2 <= nn m k ->
     exists c c', 0 <= c < snd r /\ 0 <= c' < snd r /\
                  iv (fst r) k = - (c + 1) /\ iv (fst r') k = - (c' + 1)) /\
  (forall k k', 0 <= k < ntrks m -> 0 <= k' < ntrks m ->
     iv m k = k -> 2 <= nn m k -> iv m k' = k' -> 2 <= nn m k' ->
     iv (fst r') k = iv (fst r') k' -> k = k').
Proof.
  apply (marking_any_order 2
           (mkMemory 3 (fun _ => f_0) (fun _ => f_1) (fun _ => 128) (fun _ => 2)
                     (fun k => k) 0 0) [2; 0; 1]).
  - vm_compute. split; discriminate.
  - change (Permutation [0; 1; 2] [2; 0; 1]).
    apply Permutation_cons_app with (l1 := [2]) (l2 := [1]). apply perm_swap.
Defined.

(** X23. The propagation loop of a run gives the same memory in any
    order of the items: the pointers it follows lead to roots, whose
    codes no iteration rewrites. *)
Theorem propagation_any_order zv minT eps errmax chi2max fuel m m1 hist m4 l :
  0 <= ntrks m <= INT32_MAX ->
  build_index zv m = Ok (m1, hist) ->
  compress fuel (seed minT eps hist
                   (count_neighbours eps hist (Float32.mul errmax errmax) m1)) = Ok m4 ->
  Permutation (uniform_elements (ntrks m)) l ->
  let m6 := fst (mark_roots minT (collect_edges minT eps chi2max hist m4)) in
  same_memory (propagate m6) (fold_left propagate_item l m6).
Proof.
  intros Hn Hb Hc Hp m6.
  destruct (link_structure zv minT eps errmax chi2max fuel m m1 hist m4 Hn Hb Hc)
    as (Hp2 & _ & _ & _ & _ & _ & Hfl & F5 & En2).
  pose proof (only_iv_proj _ _ F5) as (En5 & _).
  set (m5 := collect_edges minT eps chi2max hist m4) in *.
  assert (Hn5 : 0 <= ntrks m5 <= Hist.capacity) by (destruct Hp2 as [? _]; lia).
  destruct (mark_roots minT m5) as [m6' f] eqn:Hm. cbn [fst] in m6. subst m6.
  destruct (mark_roots_spec minT m5 m6' f Hn5 Hm) as (F6 & _ & _ & Hmk).
  pose proof (only_iv_proj _ _ F6) as (En6 & _).
  apply propagate_order; [|rewrite En6, En5, En2; exact Hp].
  intros k Hk Hpos. rewrite En6 in Hk.
  destruct (Hmk k Hk) as [(_ & _ & id & Hid & E)|[(_ & _ & E)|(Hne & E)]]; [lia|lia|].
  rewrite E. destruct (Hfl k Hk) as (Hr & Hrr & _).
  destruct (Hmk _ Hr) as [(_ & _ & id & Hid & E')|[(_ & _ & E')|(Hne' & _)]];
    [lia|lia|contradiction].
Qed.

Lemma propagation_any_order_witness :
  exists m1 hist m4,
    build_index zv edge4 = Ok (m1, hist) /\
    compress 4 (seed 2 f_0_05 hist
                  (count_neighbours f_0_05 hist (Float32.mul f_1 f_1) m1)) = Ok m4 /\
    let m6 := fst (mark_roots 2 (collect_edges 2 f_0_05 f_9 hist m4)) in
    same_memory (propagate m6) (fold_left propagate_item (rev (uniform_elements 4)) m6).
Proof.
  destruct (build_index zv edge4) as [[m1 hist]| | |] eqn:Hb;
    try (vm_compute in Hb; discriminate).
  destruct (compress 4 (seed 2 f_0_05 hist
                          (count_neighbours f_0_05 hist (Float32.mul f_1 f_1) m1)))
    as [m4| | |] eqn:Hc;
    try (vm_compute in Hb; injection Hb as <- <-; vm_compute in Hc; discriminate).
  exists m1, hist, m4. split; [reflexivity|]. split; [exact Hc|].
  apply (propagation_any_order zv 2 f_0_05 f_1 f_9 4 edge4 m1 hist m4
           (rev (uniform_elements 4))).
  - vm_compute. split; discriminate.
  - exact Hb.
  - exact Hc.
  - apply (Permutation_rev (uniform_elements 4)).
Defined.

(** ** Members of a cluster are connected *)

Lemma linked_ext minT eps m m' i r :
  (forall a b, visited m a b -> visited m' a b) ->
  (forall a b, seed_candidate minT eps m a b -> seed_candidate minT eps m' a b) ->
  linked minT eps m i r -> linked minT eps m' i r.
Proof.
  intros Hv Hc H. induction H as [i|i j r Hij Hcij _ IH]; [apply linked_refl|].
  apply linked_step with (j := j); [now apply Hv|now apply Hc|exact IH].
Qed.

(** The walk along the seeding pointers goes from candidate to
    candidate. *)
Lemma walk_linked minT eps hist m2 m3 :
  prepared m2 hist -> seeded minT eps hist m2 m3 ->
  forall fuel i r, 0 <= i < ntrks m2 -> walk fuel (iv m3) i = Some r ->
  linked minT eps m2 i r.
Proof.
  intros Hp Hs.
  pose proof (seeded_forest minT eps hist m2 m3 Hp Hs) as Hfo.
  destruct Hp as (_ & _ & Hq). destruct Hs as (F3 & _ & Hs).
  pose proof (only_iv_proj _ _ F3) as (En3 & _).
  induction fuel as [|fuel IH]; intros i r Hi Hw; [discriminate|].
  destruct (Z.eq_dec (iv m3 i) i) as [E|Hne].
  - rewrite (walk_of_root _ _ _ _ E Hw). apply linked_refl.
  - rewrite walk_step in Hw by exact Hne.
    destruct (Hs i Hi) as (Hnc & Hcore).
    destruct (Z_lt_le_dec (nn m2 i) minT) as [Hlt|Hge]; [now destruct (Hne (Hnc Hlt))|].
    destruct (Hcore Hge) as [[E _]|(Hin & Hcand & _)]; [contradiction|].
    apply (Hq i _ Hi) in Hin.
    apply linked_step with (j := iv m3 i); [exact Hin|exact Hcand|].
    apply IH; [apply Hin|exact Hw].
Qed.

(** X24. A core item is connected to the root whose label it carries:
    a chain of steps leads from the item to the root, each step going to
    a core item at a strictly smaller position, not farther than [eps],
    in the buckets within one of the bucket it leaves. *)
Theorem core_members_connected zv minT eps errmax chi2max fuel m m' :
  0 <= ntrks m <= INT32_MAX ->
  clusterTracksDBSCAN zv minT eps errmax chi2max fuel m = Ok m' ->
  forall i, 0 <= i < ntrks m -> minT <= nn m' i ->
    exists r, In r (roots minT eps m') /\ iv m' r = iv m' i /\ linked minT eps m' i r.
Proof.
  intros Hn H i Hi Hci. open_trace Hn H.
  pose proof (only_iv_proj _ _ F3) as (En3 & _).
  pose proof (only_iv_proj _ _ F4) as (En4 & _ & _ & _ & Enn4 & _).
  pose proof (only_iv_proj _ _ F5) as (En5 & _ & _ & _ & Enn5 & _).
  pose proof (only_iv_proj _ _ F8) as (En8 & _ & _ & _ & Enn8 & _).
  change (nn (set_nv (adjust (propagate m6)) f) i) with (nn (adjust (propagate m6)) i) in Hci.
  rewrite Enn8 in Hci.
  assert (Hn5 : 0 <= ntrks m5 <= Hist.capacity) by lia.
  assert (Hn3 : 0 <= ntrks m3) by lia.
  assert (Hi5 : 0 <= i < ntrks m5) by lia.
  destruct (Hfl i Hi5) as (Hr & Hrr & _ & Hcr).
  exists (iv m5 i).
  assert (E54 : iv m5 i = iv m4 i).
  { destruct He as (_ & _ & He). destruct (He i) as [Hcore _]; [lia|].
    apply Hcore. rewrite Enn4. exact Hci. }
  split; [|split].
  - change (roots minT eps (set_nv (adjust (propagate m6)) f))
      with (roots minT eps (adjust (propagate m6))).
    rewrite (roots_frame minT eps _ _ F8). unfold roots.
    rewrite filter_In, In_uniform_elements. split; [lia|].
    apply (run_root minT eps chi2max fuel hist m2 m3 m4 m5); auto; [lia|].
    split; [|exact Hrr]. apply Hcr. rewrite Enn5. exact Hci.
  - rewrite (run_label minT m5 m6 f _ Hn5 Hfl Hm Hr).
    rewrite (run_label minT m5 m6 f i Hn5 Hfl Hm Hi5). now rewrite Hrr.
  - apply (linked_ext minT eps m2).
    { intros a b. apply (proj2 (final_visited m2 _ f a b F8)). }
    { intros a b. apply (proj2 (final_seed_candidate minT eps m2 _ f a b F8)). }
    destruct (compress_root minT fuel m3 m4 Hn3 Hfo Hc i) as (n & Hw); [lia|].
    rewrite E54. apply (walk_linked minT eps hist m2 m3 Hp2 Hs n i); [lia|exact Hw].
Qed.

Lemma core_members_connected_witness :
  exists m',
    clusterTracksDBSCAN zv 2 f_0_05 f_1 f_9 5 scenario5 = Ok m' /\
    forall i, 0 <= i < 5 -> 2 <= nn m' i ->
      exists r, In r (roots 2 f_0_05 m') /\ iv m' r = iv m' i /\ linked 2 f_0_05 m' i r.
Proof.
  destruct (clusterTracksDBSCAN zv 2 f_0_05 f_1 f_9 5 scenario5) as [m'| | |] eqn:H;
    try (vm_compute in H; discriminate).
  exists m'. split; [reflexivity|].
  apply (core_members_connected zv 2 f_0_05 f_1 f_9 5 scenario5 m'); [|exact H].
  vm_compute. split; discriminate.
Defined.
(** ** Item counts beyond the range of [int] *)




(** ** Counting is mutual between the items that pass the variance gate *)

Lemma to_int32_succ_neq z : to_int32 (z + 1) <> z.
Proof.
  unfold to_int32. intros E.
  pose proof (Z.mod_pos_bound (z + 1 + 2 ^ 31) (2 ^ 32) ltac:(lia)) as Hb.
  assert (Hz : 0 <= z + 2 ^ 31 < 2 ^ 32) by lia.
  destruct (Z.eq_dec (z + 2 ^ 31 + 1) (2 ^ 32)) as [Ew|Hw].
  - replace (z + 1 + 2 ^ 31) with (2 ^ 32) in E by lia.
    rewrite Z.mod_same in E by lia. lia.
  - rewrite Z.mod_small in E by lia. lia.
Qed.

(** The lambda of lines 105-112 leaves the memory as it is exactly when it
    returns at line 107 or at line 110. *)
Lemma count_loop_early eps i m j :
  count_loop eps i m j = m <-> (i =? j) || Float32.gt (dist m i j) eps = true.
Proof.
  unfold count_loop, dist.
  destruct (i =? j); [cbn [orb]; tauto|]. cbn [orb].
  destruct (Float32.gt _ eps); [tauto|].
  split; [|discriminate]. intros E. exfalso.
  apply (f_equal (fun x => nn x i)) in E. cbn [nn set_nn] in E.
  unfold upd in E. rewrite Z.eqb_refl in E.
  exact (to_int32_succ_neq _ E).
Qed.

Lemma is_neighbour_sym eps m i j : is_neighbour eps m i j = is_neighbour eps m j i.
Proof.
  unfold is_neighbour, adjacent, dist. rewrite (abs_sub_sym (zt m i) (zt m j)), (Z.eqb_sym i j).
  replace (izt m j - izt m i) with (- (izt m i - izt m j)) by lia.
  now rewrite Z.abs_opp.
Qed.

Lemma counted_length eps er2mx m i :
  Z.of_nat (length (filter (counted eps er2mx m i) (uniform_elements (ntrks m)))) =
  (if Float32.gt (ezt2 m i) er2mx then 0 else neighbours eps m i).
Proof.
  unfold counted, neighbours.
  destruct (Float32.gt (ezt2 m i) er2mx); cbn [negb andb].
  - induction (uniform_elements (ntrks m)) as [|x l IH]; [reflexivity|exact IH].
  - reflexivity.
Qed.

(** X18. The lambda of the counting loop tests the pair alone, and
    [std::abs(zt[i] - zt[j])] (lines 108, 130 and 205) is the same value
    for the pair taken in either order, rounding, infinities and NaN
    included: run for [i] on [j] the lambda returns early exactly when,
    run for [j] on [i], it does.  The counts are not symmetric, because
    line 103 skips an item on its own variance: once the kernel returns,
    [nn[i]] is the number of the items counted for [i], and when [j] is
    counted for [i], then [i] is counted for [j] exactly when [j] is not
    skipped at line 103. *)
Theorem counting_mutual_under_gate zv minT eps errmax chi2max fuel m m' :
  0 <= ntrks m <= INT32_MAX ->
  clusterTracksDBSCAN zv minT eps errmax chi2max fuel m = Ok m' ->
  forall i, 0 <= i < ntrks m ->
    nn m' i = Z.of_nat (length (filter (counted eps (Float32.mul errmax errmax) m' i)
                                       (uniform_elements (ntrks m)))) /\
    forall j, 0 <= j < ntrks m ->
      dist m' i j = dist m' j i /\
      (count_loop eps i m' j = m' <-> count_loop eps j m' i = m') /\
      (counted eps (Float32.mul errmax errmax) m' i j = true ->
       counted eps (Float32.mul errmax errmax) m' j i
       = negb (Float32.gt (ezt2 m' j) (Float32.mul errmax errmax))).
Proof.
  intros Hn H i Hi.
  assert (Edist : forall j, dist m' i j = dist m' j i) by (intros j; apply abs_sub_sym).
  split.
  - destruct (cluster_trace _ _ _ _ _ _ _ _ Hn H)
      as (m1 & hist & m4 & m6 & f & (Hb & _ & _ & _ & ->) & _ & _ & (_ & _ & _ & F8)).
    destruct (build_index_spec zv m m1 hist Hn Hb) as ((En1 & Ez1 & Ee1 & _) & Hlo & _ & Hp1).
    pose proof (build_index_nodup zv m m1 hist Hn Hb) as Hnd.
    destruct (count_neighbours_value eps hist (Float32.mul errmax errmax) m1 Hp1)
      as (Hval & _).
    { intros k _. apply Hnd. }
    { intros k Hk. apply Hlo. lia. }
    pose proof (only_nn_proj _ _ (count_neighbours_only_nn eps hist (Float32.mul errmax errmax) m1))
      as (En2 & Ez2 & Ee2 & Ei2 & _).
    pose proof (only_iv_proj _ _ F8) as (En8 & Ez8 & Ee8 & Ei8 & Enn8 & _).
    set (m8 := set_nv (adjust (propagate m6)) f).
    assert (En : ntrks m8 = ntrks m) by (unfold m8; cbn [ntrks set_nv]; congruence).
    rewrite <- En, counted_length.
    assert (Eg : ezt2 m8 i = ezt2 m1 i) by (unfold m8; cbn [ezt2 set_nv]; congruence).
    assert (E : neighbours eps m8 i = neighbours eps m1 i).
    { change (neighbours eps m8 i) with (neighbours eps (adjust (propagate m6)) i).
      apply neighbours_frame; congruence. }
    rewrite Eg, E. unfold m8. cbn [nn set_nv]. rewrite Enn8. apply Hval. lia.
  - intros j Hj. split; [apply Edist|]. split.
    + rewrite !count_loop_early, Edist, (Z.eqb_sym i j). tauto.
    + unfold counted. rewrite (is_neighbour_sym eps m' j i).
      intros Hc. apply andb_true_iff in Hc. destruct Hc as [_ ->].
      now rewrite andb_true_r.
Qed.

Lemma counting_mutual_under_gate_witness :
  exists m',
    clusterTracksDBSCAN zv 2 f_0_05 f_1 f_9 3 gated3 = Ok m' /\
    (nn m' 0 = 2 /\ nn m' 1 = 0 /\ nn m' 2 = 2) /\
    (counted f_0_05 (Float32.mul f_1 f_1) m' 0 1 = true /\
     counted f_0_05 (Float32.mul f_1 f_1) m' 1 0 = false) /\
    forall i, 0 <= i < 3 ->
      nn m' i = Z.of_nat (length (filter (counted f_0_05 (Float32.mul f_1 f_1) m' i)
                                         (uniform_elements 3))) /\
      forall j, 0 <= j < 3 ->
        dist m' i j = dist m' j i /\
        (count_loop f_0_05 i m' j = m' <-> count_loop f_0_05 j m' i = m') /\
        (counted f_0_05 (Float32.mul f_1 f_1) m' i j = true ->
         counted f_0_05 (Float32.mul f_1 f_1) m' j i
         = negb (Float32.gt (ezt2 m' j) (Float32.mul f_1 f_1))).
Proof.
  destruct (clusterTracksDBSCAN zv 2 f_0_05 f_1 f_9 3 gated3) as [m'| | |] eqn:H;
    try (vm_compute in H; discriminate).
  exists m'. split; [reflexivity|].
  split; [|split].
  - vm_compute in H. injection H as <-. vm_compute. auto.
  - vm_compute in H. injection H as <-. vm_compute. auto.
  - apply (counting_mutual_under_gate zv 2 f_0_05 f_1 f_9 3 gated3 m'); [|exact H].
    vm_compute. split; discriminate.
Defined.
